(** * Market-data feed of the mobile trading dashboard

    A shallow embedding of [src/contexts/WebSocketContext.tsx] (the
    [WebSocketProvider] component and its demo generators) and of the three
    handlers of the settings screen that drive it, followed by the
    properties of the order book, the trade list and the connection
    life cycle.

    Conventions of the embedding.
    - A JavaScript [number] is an exact rational ([Q]): every finite double
      is one, arithmetic is taken without rounding error, and NaN and the
      infinities are outside the model.  [===] on numbers is [Qeq_bool].
    - [Math.random] and [Date.now] are inputs: a stream of draws with a
      cursor, and a clock reading.
    - React state is a record; a callback built by [useCallback] takes the
      values it captured (its dependency list) as explicit arguments, so a
      stale closure is a call with old arguments.
    - Sockets and timers live in a host table; a ref holds an index into it. *)

From Stdlib Require Import List String Ascii Bool ZArith QArith Qround Qabs.
From Stdlib Require Import Lia Lqa Sorted SetoidList DecimalString.
From Stdlib Require Import Permutation.
Import ListNotations.

Local Open Scope Q_scope.

(** ** JavaScript values and array methods *)

Definition number := Q.

(** [a === b] on two numbers. *)
Definition strict_eq (a b : number) : bool := Qeq_bool a b.

(** [a > b] on two numbers. *)
Definition gt (a b : number) : bool := negb (Qle_bool a b).

(** [parseFloat(x.toFixed(digits))]: the decimal numeral that [toFixed]
    prints, read back as a number.  [toFixed] works on the absolute value,
    takes the integer [n] with [n / 10^digits] closest to it (the larger
    one on a tie) and restores the sign; from [10^21] on it prints the
    number itself. *)
Definition toFixed (digits : nat) (x : number) : number :=
  let scale := inject_Z (10 ^ Z.of_nat digits) in
  let a := Qabs x in
  if Qle_bool (inject_Z (10 ^ 21)) a then x
  else
    let n := Qfloor (a * scale + (1 # 2)) in
    if Qle_bool 0 x then inject_Z n / scale else - (inject_Z n / scale).

(** [Math.floor]. *)
Definition Math_floor (x : number) : number := inject_Z (Qfloor x).

(** [arr.findIndex(p)]: the first index whose element satisfies [p],
    [-1] when there is none. *)
Fixpoint findIndex {A : Type} (p : A -> bool) (l : list A) : Z :=
  match l with
  | [] => (-1)%Z
  | x :: t =>
      if p x then 0%Z
      else let i := findIndex p t in if (i <? 0)%Z then (-1)%Z else (i + 1)%Z
  end.

(** [arr[i] = v] for an index inside the array (the only use in the source
    takes [i] from [findIndex], see [findIndex_range]). *)
Fixpoint array_set {A : Type} (l : list A) (i : nat) (v : A) : list A :=
  match l, i with
  | [], _ => []
  | _ :: t, O => v :: t
  | x :: t, S j => x :: array_set t j v
  end.

(** [arr.push(v)]. *)
Definition push {A : Type} (l : list A) (v : A) : list A := l ++ [v].

(** [arr.slice(0, n)]. *)
Definition slice0 {A : Type} (n : nat) (l : list A) : list A := firstn n l.

(** [arr.sort(cmp)].  The sort of the language is stable, and with a
    comparator that is a total preorder its result is the one stable
    arrangement; insertion from the right computes it: an element goes in
    front of the first one it does not exceed. *)
Fixpoint sort_insert {A : Type} (cmp : A -> A -> number) (x : A) (l : list A)
  : list A :=
  match l with
  | [] => [x]
  | y :: t => if Qle_bool (cmp x y) 0 then x :: y :: t
              else y :: sort_insert cmp x t
  end.

Definition sort {A : Type} (cmp : A -> A -> number) (l : list A) : list A :=
  fold_right (sort_insert cmp) [] l.

(** [s.toLowerCase()] on ASCII text. *)
Definition lower_ascii (c : ascii) : ascii :=
  let n := nat_of_ascii c in
  if (Nat.leb 65 n && Nat.leb n 90)%bool then ascii_of_nat (n + 32) else c.

Fixpoint toLowerCase (s : string) : string :=
  match s with
  | EmptyString => EmptyString
  | String c t => String (lower_ascii c) (toLowerCase t)
  end.

(** [n.toString()] for an integer. *)
Definition Z_toString (z : Z) : string := NilZero.string_of_int (Z.to_int z).

Definition nat_toString (n : nat) : string :=
  NilZero.string_of_uint (Nat.to_uint n).

(** What a callback can do besides returning: throw a [TypeError]. *)
Inductive Result (A : Type) : Type :=
| Ok (a : A)
| TypeError.
Arguments Ok {A} a.
Arguments TypeError {A}.

(** ** Randomness and time *)

(** The draws of [Math.random], each in [[0, 1)], and how many were taken. *)
Record RNG : Type := mkRNG { draws : nat -> number; cursor : nat }.

Definition Rand (A : Type) : Type := RNG -> A * RNG.

Definition ret {A : Type} (a : A) : Rand A := fun r => (a, r).

Definition bind {A B : Type} (m : Rand A) (k : A -> Rand B) : Rand B :=
  fun r => let (a, r') := m r in k a r'.

Notation "x <- m ;; k" := (bind m (fun x => k))
  (at level 61, m at next level, right associativity).

Definition Math_random : Rand number :=
  fun r => (draws r (cursor r), mkRNG (draws r) (S (cursor r))).

(** ** Data model *)

(** A price level [[price, amount]]. *)
Definition Level : Type := (number * number)%type.

Record OrderBookData : Type := mkOrderBook {
  bids : list Level;
  asks : list Level;
  lastUpdateId : number
}.

Record Trade : Type := mkTrade {
  id : string;
  price : number;
  amount : number;
  time : number;
  isBuyerMaker : bool
}.

Record MarketData : Type := mkMarketData {
  md_symbol : string;
  md_price : number;
  change : number;
  changePercent : number;
  volume : number;
  high : number;
  low : number;
  marketCap : option number
}.

Inductive AssetType : Type := Crypto | Stock.

Inductive DataProvider : Type := Binance | Alpaca | Polygon | Demo.

Definition AssetType_eqb (a b : AssetType) : bool :=
  match a, b with
  | Crypto, Crypto | Stock, Stock => true
  | _, _ => false
  end.

Definition DataProvider_eqb (a b : DataProvider) : bool :=
  match a, b with
  | Binance, Binance | Alpaca, Alpaca | Polygon, Polygon | Demo, Demo => true
  | _, _ => false
  end.

(** ** Demo data generators *)

(** The body of the [for] loop of [generateDemoOrderBook], [n] iterations
    from index [i] on. *)
Fixpoint demoLevels (basePrice spread : number) (n i : nat)
    (bids asks : list Level) : Rand (list Level * list Level) :=
  match n with
  | O => ret (bids, asks)
  | S n' =>
      r1 <- Math_random ;;
      r2 <- Math_random ;;
      let k := inject_Z (Z.of_nat i) in
      demoLevels basePrice spread n' (S i)
        (push bids (toFixed 2 (basePrice - spread - k * spread),
                    toFixed 2 (r1 * 1000)))
        (push asks (toFixed 2 (basePrice + spread + k * spread),
                    toFixed 2 (r2 * 1000)))
  end.

Definition generateDemoOrderBook (basePrice now : number)
  : Rand OrderBookData :=
  let spread := basePrice * (1 # 10000) in
  ba <- demoLevels basePrice spread 20 0 [] [] ;;
  ret (mkOrderBook (fst ba) (snd ba) now).

Definition generateDemoTrade (basePrice : number) (id : nat) (now : number)
  : Rand Trade :=
  let variance := basePrice * (1 # 1000) in
  r1 <- Math_random ;;
  r2 <- Math_random ;;
  r3 <- Math_random ;;
  ret (mkTrade ("trade-" ++ nat_toString id)
         (toFixed 2 (basePrice + (r1 - (1 # 2)) * variance))
         (toFixed 2 (r2 * 100))
         now
         (gt r3 (1 # 2))).

Definition DEFAULT_SYMBOLS (t : AssetType) : string :=
  match t with
  | Crypto => "BTCUSDT"
  | Stock => "AAPL"
  end.

Definition DEMO_PRICES : list (string * number) :=
  [ ("BTCUSDT"%string, 45000); ("ETHUSDT"%string, 2500);
    ("AAPL"%string, 175); ("GOOGL"%string, 140); ("TSLA"%string, 250);
    ("MSFT"%string, 380); ("AMZN"%string, 170); ("NVDA"%string, 480) ].

Fixpoint lookup (k : string) (m : list (string * number)) : option number :=
  match m with
  | [] => None
  | (k', v) :: t => if String.eqb k k' then Some v else lookup k t
  end.

(** [DEMO_PRICES[symbol] || 100], for a [symbol] that is not a name the
    object inherits (see [inherited]). *)
Definition demoBasePrice (symbol : string) : number :=
  match lookup symbol DEMO_PRICES with
  | Some p => if strict_eq p 0 then 100 else p
  | None => 100
  end.

(** ** Messages of the exchange *)

(** A stream message ([message.data]): [data_e] is its event type [e];
    [data_b] and [data_a] are the bid and ask levels of a depth update;
    [data_t], [data_p], [data_q], [data_T] and [data_m] are the fields
    [t], [p], [q], [T] and [m] of a trade. *)
Record Message : Type := mkMessage {
  data_e : string;
  data_b : list (string * string);
  data_a : list (string * string);
  data_t : Z;
  data_p : string;
  data_q : string;
  data_T : number;
  data_m : bool
}.

(** The body of the depth snapshot of the REST endpoint. *)
Record Snapshot : Type := mkSnapshot {
  snap_bids : list (string * string);
  snap_asks : list (string * string);
  snap_lastUpdateId : number
}.

(** A plain decimal numeral ([-12.50]) read digit by digit: the parser the
    examples use for [parseFloat].  [acc] is the digits read so far as an
    integer and [frac] the power of ten they are to be divided by. *)
Definition digit_of (c : ascii) : option Z :=
  let n := nat_of_ascii c in
  if (Nat.leb 48 n && Nat.leb n 57)%bool then Some (Z.of_nat (n - 48))
  else None.

Fixpoint parseDigits (s : string) (dot : bool) (acc frac : Z) : Z * Z :=
  match s with
  | EmptyString => (acc, frac)
  | String c t =>
      match digit_of c with
      | Some d =>
          parseDigits t dot (10 * acc + d)%Z (if dot then (10 * frac)%Z else frac)
      | None =>
          if (Ascii.eqb c "."%char && negb dot)%bool
          then parseDigits t true acc frac
          else (acc, frac)
      end
  end.

Definition parseDecimal (s : string) : number :=
  match s with
  | String "-"%char t =>
      let (n, d) := parseDigits t false 0%Z 1%Z in - (inject_Z n / inject_Z d)
  | _ =>
      let (n, d) := parseDigits s false 0%Z 1%Z in inject_Z n / inject_Z d
  end.

(** ** State of the provider component *)

(** The [useState] cells.  [bookGen] counts the calls of [setOrderBook]: it
    stands for the identity of the object held in [orderBook], which is
    what a dependency list compares.  The market-hours effect and its cell
    [isMarketOpen] are left out: the feed neither reads nor writes them. *)
Record ReactState : Type := mkReact {
  orderBook : option OrderBookData;
  bookGen : nat;
  trades : list Trade;
  isConnected : bool;
  assetType : AssetType;
  symbol : string;
  provider : DataProvider;
  marketData : option MarketData
}.

Definition setOrderBook (v : OrderBookData) (s : ReactState) : ReactState :=
  mkReact (Some v) (S (bookGen s)) (trades s) (isConnected s) (assetType s)
    (symbol s) (provider s) (marketData s).

Definition setTrades (f : list Trade -> list Trade) (s : ReactState)
  : ReactState :=
  mkReact (orderBook s) (bookGen s) (f (trades s)) (isConnected s)
    (assetType s) (symbol s) (provider s) (marketData s).

Definition setIsConnected (v : bool) (s : ReactState) : ReactState :=
  mkReact (orderBook s) (bookGen s) (trades s) v (assetType s) (symbol s)
    (provider s) (marketData s).

Definition setAssetType (v : AssetType) (s : ReactState) : ReactState :=
  mkReact (orderBook s) (bookGen s) (trades s) (isConnected s) v (symbol s)
    (provider s) (marketData s).

Definition setSymbol (v : string) (s : ReactState) : ReactState :=
  mkReact (orderBook s) (bookGen s) (trades s) (isConnected s) (assetType s)
    v (provider s) (marketData s).

Definition setProvider (v : DataProvider) (s : ReactState) : ReactState :=
  mkReact (orderBook s) (bookGen s) (trades s) (isConnected s) (assetType s)
    (symbol s) v (marketData s).

Definition setMarketData (f : option MarketData -> option MarketData)
    (s : ReactState) : ReactState :=
  mkReact (orderBook s) (bookGen s) (trades s) (isConnected s) (assetType s)
    (symbol s) (provider s) (f (marketData s)).

(** What the callbacks of one render have captured. *)
Record Closure : Type := mkClosure {
  c_provider : DataProvider;
  c_assetType : AssetType;
  c_symbol : string;
  c_orderBook : option OrderBookData;
  c_bookGen : nat
}.

Definition closure_of (s : ReactState) : Closure :=
  mkClosure (provider s) (assetType s) (symbol s) (orderBook s) (bookGen s).

(** [connect] is rebuilt when [provider], [assetType], [symbol] or the
    [orderBook] object changes: the union of the dependency lists of
    [connect], [connectDemo], [connectBinance], [processOrderBookUpdate]
    and [processTrade]. *)
Definition same_connect (c c' : Closure) : bool :=
  (DataProvider_eqb (c_provider c) (c_provider c')
   && AssetType_eqb (c_assetType c) (c_assetType c')
   && String.eqb (c_symbol c) (c_symbol c')
   && Nat.eqb (c_bookGen c) (c_bookGen c'))%bool.

Inductive ReadyState : Type := CONNECTING | OPEN | CLOSING | CLOSED.

Record Socket : Type := mkSocket {
  url : string;
  handlers : Closure;
  readyState : ReadyState
}.

(** A timer of the host: the demo interval with the [basePrice] its
    callback captured, or the reconnect timeout with the [connect] it
    captured. *)
Inductive TimerKind : Type :=
| DemoTick (basePrice : number)
| ReconnectTimer (c : Closure).

Record Timer : Type := mkTimer { kind : TimerKind; active : bool }.

(** The host: every socket and timer ever created (an id is a position),
    the snapshot requests in flight, the random stream and the clock. *)
Record Host : Type := mkHost {
  sockets : list Socket;
  timers : list Timer;
  fetches : list string;
  rng : RNG;
  clock : number
}.

(** The [useRef] cells.  [None] is [null]; the ids the host hands out are
    positive numbers, so a stored id is truthy. *)
Record Refs : Type := mkRefs {
  ws : option nat;
  reconnectTimeout : option nat;
  demoInterval : option nat;
  tradeCounter : nat
}.

Record World : Type := mkWorld {
  react : ReactState;
  refs : Refs;
  host : Host;
  rendered : Closure
}.

Definition on_react (f : ReactState -> ReactState) (w : World) : World :=
  mkWorld (f (react w)) (refs w) (host w) (rendered w).

Definition on_refs (f : Refs -> Refs) (w : World) : World :=
  mkWorld (react w) (f (refs w)) (host w) (rendered w).

Definition on_host (f : Host -> Host) (w : World) : World :=
  mkWorld (react w) (refs w) (f (host w)) (rendered w).

Definition set_rendered (c : Closure) (w : World) : World :=
  mkWorld (react w) (refs w) (host w) c.

Definition set_ws (v : option nat) (r : Refs) : Refs :=
  mkRefs v (reconnectTimeout r) (demoInterval r) (tradeCounter r).

Definition set_reconnectTimeout (v : option nat) (r : Refs) : Refs :=
  mkRefs (ws r) v (demoInterval r) (tradeCounter r).

Definition set_demoInterval (v : option nat) (r : Refs) : Refs :=
  mkRefs (ws r) (reconnectTimeout r) v (tradeCounter r).

Definition set_tradeCounter (v : nat) (r : Refs) : Refs :=
  mkRefs (ws r) (reconnectTimeout r) (demoInterval r) v.

Definition set_sockets (v : list Socket) (h : Host) : Host :=
  mkHost v (timers h) (fetches h) (rng h) (clock h).

Definition set_timers (v : list Timer) (h : Host) : Host :=
  mkHost (sockets h) v (fetches h) (rng h) (clock h).

Definition set_fetches (v : list string) (h : Host) : Host :=
  mkHost (sockets h) (timers h) v (rng h) (clock h).

Definition set_rng (v : RNG) (h : Host) : Host :=
  mkHost (sockets h) (timers h) (fetches h) v (clock h).

Definition set_clock (v : number) (h : Host) : Host :=
  mkHost (sockets h) (timers h) (fetches h) (rng h) v.

(** Run a computation that draws from [Math.random] against the host. *)
Definition draw {A : Type} (m : Rand A) (w : World) : A * World :=
  let (a, r) := m (rng (host w)) in (a, on_host (set_rng r) w).

(** [setInterval] and [setTimeout]: a new active timer, whose id is
    returned. *)
Definition setTimer (k : TimerKind) (w : World) : nat * World :=
  let n := List.length (timers (host w)) in
  (n, on_host (set_timers (push (timers (host w)) (mkTimer k true))) w).

(** [clearInterval] and [clearTimeout]. *)
Definition clearTimer (i : nat) (w : World) : World :=
  match nth_error (timers (host w)) i with
  | Some t =>
      on_host (set_timers (array_set (timers (host w)) i (mkTimer (kind t) false))) w
  | None => w
  end.

Definition set_readyState (i : nat) (st : ReadyState) (w : World) : World :=
  match nth_error (sockets (host w)) i with
  | Some s =>
      on_host (set_sockets
        (array_set (sockets (host w)) i (mkSocket (url s) (handlers s) st))) w
  | None => w
  end.

Definition readyState_of (i : nat) (w : World) : option ReadyState :=
  option_map readyState (nth_error (sockets (host w)) i).

(** [socket.close()]: starts the closing handshake of a socket that is not
    yet closing or closed. *)
Definition close (i : nat) (w : World) : World :=
  match readyState_of i w with
  | Some CONNECTING | Some OPEN => set_readyState i CLOSING w
  | _ => w
  end.

(** [new WebSocket(url)] with the handlers of closure [c] attached. *)
Definition newWebSocket (u : string) (c : Closure) (w : World) : nat * World :=
  let n := List.length (sockets (host w)) in
  (n, on_host (set_sockets (push (sockets (host w)) (mkSocket u c CONNECTING))) w).

(** ** The provider component *)

Section Provider.

(** [parseFloat] of the language, on text that denotes a finite number. *)
Variable parseFloat : string -> number.

(** The callback of [data.b.forEach] in [processOrderBookUpdate], as a
    function of the array [newOrderBook.bids] before and after. *)
Definition applyBid (bids : list Level) (u : string * string) : list Level :=
  let (price, amount) := u in
  let priceNum := parseFloat price in
  let amountNum := parseFloat amount in
  if strict_eq amountNum 0 then
    filter (fun l => negb (strict_eq (fst l) priceNum)) bids
  else
    let index := findIndex (fun l => strict_eq (fst l) priceNum) bids in
    if (0 <=? index)%Z then array_set bids (Z.to_nat index) (priceNum, amountNum)
    else push bids (priceNum, amountNum).

(** [processOrderBookUpdate], built from the captured [orderBook] and
    [provider].  The spread copy of a [null] book has no [bids], and the
    first use of it throws.  The levels of [data.a] are never read: where
    they would be handled the source has the comment "Similar for asks".
    The copy shares its arrays with the captured book, so the writes in
    place ([bids[index] = ...], [push], [sort]) reach that book too; the
    function below gives the book handed to [setOrderBook]. *)
Definition processOrderBookUpdate (orderBook : option OrderBookData)
    (provider : DataProvider) (data : Message) (s : ReactState)
  : Result ReactState :=
  if (DataProvider_eqb provider Binance
      && String.eqb (data_e data) "depthUpdate")%bool then
    match orderBook with
    | None => TypeError
    | Some newOrderBook =>
        let bids1 := fold_left applyBid (data_b data) (bids newOrderBook) in
        let bids2 := sort (fun a b => fst b - fst a) bids1 in
        let asks2 := sort (fun a b => fst a - fst b) (asks newOrderBook) in
        Ok (setOrderBook (mkOrderBook bids2 asks2 (lastUpdateId newOrderBook)) s)
    end
  else Ok s.

(** The [newTrade] object of [processTrade]. *)
Definition tradeOfMessage (data : Message) : Trade :=
  mkTrade (Z_toString (data_t data)) (parseFloat (data_p data))
    (parseFloat (data_q data)) (data_T data) (data_m data).

(** The updater both writers of the trade list pass to [setTrades]:
    [prev => [newTrade, ...prev].slice(0, 100)]. *)
Definition prependTrade (newTrade : Trade) (prev : list Trade) : list Trade :=
  slice0 100 (newTrade :: prev).

(** [processTrade], built from the captured [provider]. *)
Definition processTrade (provider : DataProvider) (data : Message)
    (s : ReactState) : Result ReactState :=
  if (DataProvider_eqb provider Binance
      && String.eqb (data_e data) "trade")%bool then
    Ok (setTrades (prependTrade (tradeOfMessage data)) s)
  else Ok s.

(** [ws.current.onmessage] of a socket whose handlers captured [c], for a
    frame that parsed: [data] is [message.data] with the fields of its
    event type.  The captured book is taken with the arrays as they are
    when the message arrives; [onmessageShared] says what the call leaves
    in them. *)
Definition onmessage (c : Closure) (data : Message) (s : ReactState)
  : Result ReactState :=
  if String.eqb (data_e data) "depthUpdate" then
    processOrderBookUpdate (c_orderBook c) (c_provider c) data s
  else if String.eqb (data_e data) "trade" then
    processTrade (c_provider c) data s
  else Ok s.

(** The [processedSnapshot] object built when the depth snapshot arrives. *)
Definition processedSnapshot (snapshot : Snapshot) : OrderBookData :=
  mkOrderBook
    (map (fun pa => (parseFloat (fst pa), parseFloat (snd pa))) (snap_bids snapshot))
    (map (fun pa => (parseFloat (fst pa), parseFloat (snd pa))) (snap_asks snapshot))
    (snap_lastUpdateId snapshot).

(** The object [connectDemo] passes to [setMarketData]. *)
Definition demoMarketData (symbol : string) (assetType : AssetType)
    (basePrice : number) : Rand MarketData :=
  r1 <- Math_random ;;
  r2 <- Math_random ;;
  r3 <- Math_random ;;
  cap <- match assetType with
         | Stock => r4 <- Math_random ;; ret (Some (Math_floor (r4 * 1000000000)))
         | Crypto => ret None
         end ;;
  ret (mkMarketData symbol basePrice ((r1 - (1 # 2)) * 5) ((r2 - (1 # 2)) * 2)
         (Math_floor (r3 * 1000000)) (basePrice * (102 # 100))
         (basePrice * (98 # 100)) cap).

(** The callback [connectDemo] hands to [setInterval].  Its updater of the
    market summary spreads [prev!]: [connectDemo] has stored a summary
    before the interval exists. *)
Definition demoTick (basePrice : number) (w : World) : World :=
  let (r, w1) := draw Math_random w in
  let currentPrice := basePrice + (r - (1 # 2)) * basePrice * (1 # 1000) in
  let (book, w2) := draw (generateDemoOrderBook currentPrice (clock (host w1))) w1 in
  let w3 := on_react (setOrderBook book) w2 in
  let (newTrade, w4) :=
    draw (generateDemoTrade currentPrice (tradeCounter (refs w3)) (clock (host w3))) w3 in
  let w5 := on_refs (set_tradeCounter (S (tradeCounter (refs w4)))) w4 in
  let w6 := on_react (setTrades (prependTrade newTrade)) w5 in
  on_react (setMarketData (option_map (fun prev =>
    mkMarketData (md_symbol prev) currentPrice (currentPrice - basePrice)
      ((currentPrice - basePrice) / basePrice * 100)
      (volume prev) (high prev) (low prev) (marketCap prev)))) w6.

(** [connectDemo], built from the captured [symbol] and [assetType]. *)
Definition connectDemo (c : Closure) (w : World) : World :=
  let w1 := on_react (setIsConnected true) w in
  let basePrice := demoBasePrice (c_symbol c) in
  let (book, w2) := draw (generateDemoOrderBook basePrice (clock (host w1))) w1 in
  let w3 := on_react (setOrderBook book) w2 in
  let (md, w4) := draw (demoMarketData (c_symbol c) (c_assetType c) basePrice) w3 in
  let w5 := on_react (setMarketData (fun _ => Some md)) w4 in
  let (t, w6) := setTimer (DemoTick basePrice) w5 in
  on_refs (set_demoInterval (Some t)) w6.

(** [connectBinance]: the socket is created with the handlers of this
    render; they run later, on the events of the host. *)
Definition connectBinance (c : Closure) (w : World) : World :=
  let streams :=
    (toLowerCase (c_symbol c) ++ "@depth@100ms" ++ "/"
     ++ toLowerCase (c_symbol c) ++ "@trade")%string in
  let wsUrl := ("wss://stream.binance.com:443/stream?streams=" ++ streams)%string in
  let (i, w1) := newWebSocket wsUrl c w in
  on_refs (set_ws (Some i)) w1.

(** [connect]. *)
Definition connect (c : Closure) (w : World) : World :=
  let w1 :=
    match ws (refs w) with
    | Some i =>
        match readyState_of i w with
        | Some OPEN => close i w
        | _ => w
        end
    | None => w
    end in
  let w2 :=
    match demoInterval (refs w1) with
    | Some t => clearTimer t w1
    | None => w1
    end in
  match c_provider c with
  | Demo => connectDemo c w2
  | Binance =>
      match c_assetType c with
      | Crypto => connectBinance c w2
      | Stock => connectDemo c w2
      end
  | Alpaca | Polygon => connectDemo c w2
  end.

(** [reconnect]. *)
Definition reconnect (c : Closure) (w : World) : World :=
  let w1 :=
    match reconnectTimeout (refs w) with
    | Some t => clearTimer t w
    | None => w
    end in
  connect c w1.

(** The function the [connect] effect returns. *)
Definition cleanup (w : World) : World :=
  let w1 := match ws (refs w) with Some i => close i w | None => w end in
  let w2 :=
    match reconnectTimeout (refs w1) with
    | Some t => clearTimer t w1
    | None => w1
    end in
  match demoInterval (refs w2) with
  | Some t => clearTimer t w2
  | None => w2
  end.

(** [ws.current.onopen]. *)
Definition onopen (c : Closure) (w : World) : World :=
  let w1 := on_react (setIsConnected true) w in
  on_host (fun h => set_fetches (push (fetches h) (c_symbol c)) h) w1.

(** [ws.current.onerror]. *)
Definition onerror (w : World) : World := on_react (setIsConnected false) w.

(** [ws.current.onclose]. *)
Definition onclose (c : Closure) (w : World) : World :=
  let w1 := on_react (setIsConnected false) w in
  let (t, w2) := setTimer (ReconnectTimer c) w1 in
  on_refs (set_reconnectTimeout (Some t)) w2.

(** The handlers of the settings screen.  They call the [reconnect] of the
    last render right after the setter, so it runs with the selection from
    before the change. *)
Definition handleSymbolChange (newSymbol : string) (w : World) : World :=
  reconnect (rendered w) (on_react (setSymbol newSymbol) w).

Definition handleAssetTypeChange (newType : AssetType) (w : World) : World :=
  on_react (setProvider Demo) (on_react (setAssetType newType) w).

Definition handleProviderChange (newProvider : DataProvider) (w : World)
  : World :=
  reconnect (rendered w) (on_react (setProvider newProvider) w).

(** One render with its effects, given the closure [rendered w] of the one
    before: the clean-up of the [connect] effect when [connect] was
    rebuilt, then the symbol effect when [assetType] changed, then the
    [connect] effect. *)
Definition render (w : World) : World :=
  let c := rendered w in
  let c' := closure_of (react w) in
  let rebuilt := negb (same_connect c c') in
  let w1 := if rebuilt then cleanup w else w in
  let w2 :=
    if AssetType_eqb (c_assetType c) (c_assetType c') then w1
    else on_react (setSymbol (DEFAULT_SYMBOLS (c_assetType c'))) w1 in
  let w3 := if rebuilt then connect c' w2 else w2 in
  set_rendered c' w3.

Definition initialState : ReactState :=
  mkReact None 0 [] false Crypto (DEFAULT_SYMBOLS Crypto) Demo None.

(** The first render: every effect runs. *)
Definition mount (r : RNG) (now : number) : World :=
  let c := closure_of initialState in
  let w := mkWorld initialState (mkRefs None None None 0) (mkHost [] [] [] r now) c in
  connect c (on_react (setSymbol (DEFAULT_SYMBOLS (c_assetType c))) w).

(** What can happen next: the user acts in the settings screen, the
    component renders, a socket opens, delivers a message, fails or closes,
    the depth snapshot arrives, a timer fires, time passes. *)
Inductive Event : Type :=
| SymbolChange (newSymbol : string)
| AssetTypeChange (newType : AssetType)
| ProviderChange (newProvider : DataProvider)
| Render
| SocketOpen (i : nat)
| SocketMessage (i : nat) (data : Message)
| SocketError (i : nat)
| SocketClose (i : nat)
| SnapshotLoaded (snapshot : Snapshot)
| TimerFire (t : nat)
| ClockAdvance (d : number).

(** One event.  A socket event is delivered to the handlers the socket was
    created with; an event for a socket or timer that cannot produce it any
    more changes nothing; a [TypeError] thrown by the message handler
    reaches the host before any setter ran, so the state is as before. *)
Definition step (ev : Event) (w : World) : World :=
  match ev with
  | SymbolChange newSymbol => handleSymbolChange newSymbol w
  | AssetTypeChange newType => handleAssetTypeChange newType w
  | ProviderChange newProvider => handleProviderChange newProvider w
  | Render => render w
  | SocketOpen i =>
      match nth_error (sockets (host w)) i with
      | Some (mkSocket _ c CONNECTING) => onopen c (set_readyState i OPEN w)
      | _ => w
      end
  | SocketMessage i data =>
      match nth_error (sockets (host w)) i with
      | Some (mkSocket _ c OPEN) =>
          match onmessage c data (react w) with
          | Ok s => on_react (fun _ => s) w
          | TypeError => w
          end
      | _ => w
      end
  | SocketError i =>
      match nth_error (sockets (host w)) i with
      | Some (mkSocket _ _ CLOSED) | None => w
      | Some _ => onerror w
      end
  | SocketClose i =>
      match nth_error (sockets (host w)) i with
      | Some (mkSocket _ _ CLOSED) | None => w
      | Some (mkSocket _ c _) => onclose c (set_readyState i CLOSED w)
      end
  | SnapshotLoaded snapshot =>
      match fetches (host w) with
      | _ :: rest =>
          on_react (setOrderBook (processedSnapshot snapshot))
            (on_host (set_fetches rest) w)
      | [] => w
      end
  | TimerFire t =>
      match nth_error (timers (host w)) t with
      | Some (mkTimer (DemoTick basePrice) true) => demoTick basePrice w
      | Some (mkTimer (ReconnectTimer c) true) => connect c (clearTimer t w)
      | _ => w
      end
  | ClockAdvance d => on_host (fun h => set_clock (clock h + d) h) w
  end.

Definition run (evs : list Event) (w : World) : World :=
  fold_left (fun w ev => step ev w) evs w.

(** ** The market-hours check *)

(** [isStockMarketOpen], as a function of what it reads from [new Date()]:
    the day of the week ([0] is Sunday), the hour and the minute. *)
Definition isStockMarketOpen (day hours minutes : Z) : bool :=
  if ((day =? 0) || (day =? 6))%Z then false
  else
    let currentTime := (hours * 60 + minutes)%Z in
    let marketOpen := (9 * 60 + 30)%Z in
    let marketClose := (16 * 60)%Z in
    ((marketOpen <=? currentTime) && (currentTime <? marketClose))%Z.

(** ** The settings screen: a symbol typed by hand *)

(** [s.toUpperCase()] on ASCII text. *)
Definition upper_ascii (c : ascii) : ascii :=
  let n := nat_of_ascii c in
  if (Nat.leb 97 n && Nat.leb n 122)%bool then ascii_of_nat (n - 32) else c.

Fixpoint toUpperCase (s : string) : string :=
  match s with
  | EmptyString => EmptyString
  | String c t => String (upper_ascii c) (toUpperCase t)
  end.

(** The ASCII characters [trim] removes: tab, line feed, vertical tab, form
    feed, carriage return and space. *)
Definition is_space (c : ascii) : bool :=
  let n := nat_of_ascii c in
  ((Nat.leb 9 n && Nat.leb n 13) || Nat.eqb n 32)%bool.

Fixpoint trimStart (s : string) : string :=
  match s with
  | EmptyString => EmptyString
  | String c t => if is_space c then trimStart t else s
  end.

Fixpoint string_rev (s : string) : string :=
  match s with
  | EmptyString => EmptyString
  | String c t => (string_rev t ++ String c EmptyString)%string
  end.

Definition trimEnd (s : string) : string :=
  string_rev (trimStart (string_rev s)).

(** [s.trim()]. *)
Definition trim (s : string) : string := trimEnd (trimStart s).

(** [s.replace(/USDT$/, '')]: the text without one closing [USDT]. *)
Fixpoint stripUSDT (s : string) : string :=
  match s with
  | EmptyString => EmptyString
  | String c t => if String.eqb s "USDT" then EmptyString
                  else String c (stripUSDT t)
  end.

(** [handleCustomSymbolSubmit]: the text field [customSymbol] before, the
    field and the world after.  The screen reads [assetType] from the
    context value of the last render. *)
Definition handleCustomSymbolSubmit (customSymbol : string) (w : World)
  : string * World :=
  if String.eqb (trim customSymbol) "" then (customSymbol, w)
  else
    let formattedSymbol :=
      match c_assetType (rendered w) with
      | Crypto => toUpperCase customSymbol
      | Stock => stripUSDT (toUpperCase customSymbol)
      end in
    (EmptyString, handleSymbolChange formattedSymbol w).

(** ** The order-book screen *)

(** A row of the depth table. *)
Record Row : Type := mkRow {
  row_price : number;
  row_amount : number;
  row_total : number
}.

(** [levels.map(([price, amount]) => { sum += amount; return {price,
    amount, total: sum}; })] with [sum] at [acc] before; the rows and the
    sum afterwards. *)
Fixpoint withTotal (acc : number) (levels : list Level) : list Row * number :=
  match levels with
  | [] => ([], acc)
  | (p, a) :: t =>
      let acc' := acc + a in
      let (rows, final) := withTotal acc' t in
      (mkRow p a acc' :: rows, final)
  end.

(** [Math.max(a, b)] and [Math.min(a, b)]. *)
Definition Math_max (a b : number) : number := if Qle_bool a b then b else a.

Definition Math_min (a b : number) : number := if Qle_bool a b then a else b.

(** What the first [useMemo] of the screen returns. *)
Record DepthRows : Type := mkDepthRows {
  bidsWithTotal : list Row;
  asksWithTotal : list Row;
  maxTotal : number
}.

Definition depthRows (orderBook : option OrderBookData) : DepthRows :=
  match orderBook with
  | None => mkDepthRows [] [] 0
  | Some ob =>
      let (bidsWithTotal, bidTotal) := withTotal 0 (slice0 15 (bids ob)) in
      let (asksWithTotal, askTotal) := withTotal 0 (slice0 15 (asks ob)) in
      mkDepthRows bidsWithTotal asksWithTotal (Math_max bidTotal askTotal)
  end.

(** The width of the depth bar of a row, in per cent ([OrderBookRow]). *)
Definition percentage (total maxTotal : number) : number :=
  total / maxTotal * 100.

(** The memoised [spread]. *)
Definition spread (orderBook : option OrderBookData) : number :=
  match orderBook with
  | None => 0
  | Some ob =>
      match asks ob, bids ob with
      | a :: _, b :: _ => fst a - fst b
      | _, _ => 0
      end
  end.

(** The memoised [spreadPercentage]. *)
Definition spreadPercentage (orderBook : option OrderBookData) : number :=
  match orderBook with
  | None => 0
  | Some ob =>
      match asks ob, bids ob with
      | a :: _, b :: _ =>
          let midPrice := (fst a + fst b) / 2 in
          spread orderBook / midPrice * 100
      | _, _ => 0
      end
  end.

(** [data={asksWithTotal.reverse()}] of the ask list: [reverse] turns the
    memoised array around in place and returns it.  The rows handed to the
    list, and the memo as the render leaves it. *)
Definition displayAsks (memo : DepthRows) : list Row * DepthRows :=
  let reversed := rev (asksWithTotal memo) in
  (reversed, mkDepthRows (bidsWithTotal memo) reversed (maxTotal memo)).

(** ** The heatmap screen *)

Inductive Side : Type := BidSide | AskSide.

Record HeatmapCell : Type := mkCell {
  cell_price : number;
  cell_amount : number;
  timestamp : number;
  cell_type : Side
}.

(** [arr.slice(-n)]. *)
Definition slice_last {A : Type} (n : nat) (l : list A) : list A :=
  skipn (List.length l - n) l.

(** The column the heatmap effect builds from a book. *)
Definition newColumn (ob : OrderBookData) (now : number) : list HeatmapCell :=
  map (fun l => mkCell (fst l) (snd l) now BidSide) (slice0 20 (bids ob))
  ++ map (fun l => mkCell (fst l) (snd l) now AskSide) (slice0 20 (asks ob)).

(** The state cells of the heatmap screen the effect writes; [priceRange]
    is the pair of its [min] and [max]. *)
Record HeatmapState : Type := mkHeatmap {
  heatmapData : list (list HeatmapCell);
  priceRange : number * number
}.

(** The heatmap effect, run for a new [orderBook] at clock reading [now].
    [Math.min(...prices)] and [Math.max(...prices)] are taken of a column
    that is not empty. *)
Definition heatmapEffect (orderBook : option OrderBookData) (now : number)
    (st : HeatmapState) : HeatmapState :=
  match orderBook with
  | None => st
  | Some ob =>
      let column := newColumn ob now in
      let updated := slice_last 60 (heatmapData st ++ [column]) in
      match map cell_price column with
      | [] => mkHeatmap updated (priceRange st)
      | p :: ps =>
          mkHeatmap updated (fold_left Math_min ps p, fold_left Math_max ps p)
      end
  end.

(** The memoised [maxAmount]: [Math.max(...amounts, 1)]. *)
Definition maxAmount (data : list (list HeatmapCell)) : number :=
  fold_right Math_max 1 (map cell_amount (concat data)).

(** [getColorIntensity]. *)
Definition getColorIntensity (amount maxAmount : number) : number :=
  let intensity := Math_min (amount / maxAmount) 1 in
  Math_floor (intensity * 255).

(** The height of a cell above the lower edge of a chart [CHART_HEIGHT]
    high, as [renderHeatmapCells] computes it. *)
Definition cellY (CHART_HEIGHT : number) (range : number * number)
    (cell : HeatmapCell) : number :=
  (cell_price cell - fst range) / (snd range - fst range) * CHART_HEIGHT.

(** The height of a cell, and the [y] attribute of its rectangle: the
    drawing area runs from 0 at its upper edge down to [CHART_HEIGHT], and
    the rectangle from [rectY] down to [rectY + cellHeight]. *)
Definition cellHeight (CHART_HEIGHT : number) : number := CHART_HEIGHT / 40.

Definition rectY (CHART_HEIGHT : number) (range : number * number)
    (cell : HeatmapCell) : number :=
  CHART_HEIGHT - cellY CHART_HEIGHT range cell - cellHeight CHART_HEIGHT.

(** The scale the zoom buttons animate to, from the current scale. *)
Definition zoomIn (scale : number) : number := Math_min (scale * (12 # 10)) 3.

Definition zoomOut (scale : number) : number :=
  Math_max (scale * (8 # 10)) (1 # 2).

(** ** Names a plain object inherits *)

(** [DEMO_PRICES] is a plain object: indexed with a name it inherits from
    [Object.prototype] it yields that property, which is neither a price
    nor [undefined].  The names the language standard puts there; each has
    a lower-case letter, so no symbol of the settings screen is one. *)
Definition Object_prototype_names : list string :=
  [ "constructor"%string; "hasOwnProperty"%string; "isPrototypeOf"%string;
    "propertyIsEnumerable"%string; "toLocaleString"%string;
    "toString"%string; "valueOf"%string; "__proto__"%string;
    "__defineGetter__"%string; "__defineSetter__"%string;
    "__lookupGetter__"%string; "__lookupSetter__"%string ].

Definition inherited (symbol : string) : bool :=
  existsb (String.eqb symbol) Object_prototype_names.

(** ** The arrays a handler shares with the book it captured *)

(** [{ ...orderBook }] copies the fields of the captured book, not its
    arrays: [newOrderBook.bids] is the captured array until a level of size
    0 makes [filter] build a fresh one.  The loop over [data.b] therefore
    has two arrays to tell apart: the captured one, and the fresh one once
    there is one. *)
Record BidsLoop : Type := mkBidsLoop {
  capturedBids : list Level;
  ownBids : option (list Level)
}.

(** The callback of [data.b.forEach] on those two arrays: [bids[index] =
    ...] and [push] write to the array [newOrderBook.bids] points to,
    [filter] makes it point to a fresh array. *)
Definition applyBidShared (st : BidsLoop) (u : string * string) : BidsLoop :=
  match ownBids st with
  | Some own => mkBidsLoop (capturedBids st) (Some (applyBid own u))
  | None =>
      if strict_eq (parseFloat (snd u)) 0
      then mkBidsLoop (capturedBids st) (Some (applyBid (capturedBids st) u))
      else mkBidsLoop (applyBid (capturedBids st) u) None
  end.

(** The array [newOrderBook.bids] points to. *)
Definition currentBids (st : BidsLoop) : list Level :=
  match ownBids st with
  | Some own => own
  | None => capturedBids st
  end.

(** One depth update on the arrays: the book handed to [setOrderBook], and
    the captured book as the call leaves it.  Both [sort] calls work in
    place, the one on the asks always on the captured array. *)
Definition depthUpdateShared (captured : OrderBookData) (data : Message)
  : OrderBookData * OrderBookData :=
  let st := fold_left applyBidShared (data_b data)
              (mkBidsLoop (bids captured) None) in
  let asks2 := sort (fun a b => fst a - fst b) (asks captured) in
  match ownBids st with
  | Some own =>
      (mkOrderBook (sort (fun a b => fst b - fst a) own) asks2
         (lastUpdateId captured),
       mkOrderBook (capturedBids st) asks2 (lastUpdateId captured))
  | None =>
      let bids2 := sort (fun a b => fst b - fst a) (capturedBids st) in
      (mkOrderBook bids2 asks2 (lastUpdateId captured),
       mkOrderBook bids2 asks2 (lastUpdateId captured))
  end.

(** The closure [c] with the arrays of its book as a call left them. *)
Definition with_book (c : Closure) (ob : OrderBookData) : Closure :=
  mkClosure (c_provider c) (c_assetType c) (c_symbol c) (Some ob) (c_bookGen c).

(** [ws.current.onmessage] of a socket whose handlers captured [c], with
    the captured arrays threaded through: the state after the message, and
    the closure the next message of the same socket meets. *)
Definition onmessageShared (c : Closure) (data : Message) (s : ReactState)
  : Result (ReactState * Closure) :=
  if String.eqb (data_e data) "depthUpdate" then
    if DataProvider_eqb (c_provider c) Binance then
      match c_orderBook c with
      | None => TypeError
      | Some ob =>
          let (newOrderBook, ob') := depthUpdateShared ob data in
          Ok (setOrderBook newOrderBook s, with_book c ob')
      end
    else Ok (s, c)
  else
    match onmessage c data s with
    | Ok s' => Ok (s', c)
    | TypeError => TypeError
    end.

(** ** Vocabulary of the properties *)

(** Price order of one side of the book. *)
Definition descending (l : list Level) : Prop :=
  StronglySorted (fun x y => fst y <= fst x) l.

Definition ascending (l : list Level) : Prop :=
  StronglySorted (fun x y => fst x <= fst y) l.

Definition strictly_descending (l : list Level) : Prop :=
  StronglySorted (fun x y => fst y < fst x) l.

Definition strictly_ascending (l : list Level) : Prop :=
  StronglySorted (fun x y => fst x < fst y) l.

Definition same_price (x y : Level) : Prop := fst x == fst y.

(** No two levels of the side carry the same price. *)
Definition distinct_prices (l : list Level) : Prop := NoDupA same_price l.

Definition book_sorted (ob : OrderBookData) : Prop :=
  strictly_descending (bids ob) /\ strictly_ascending (asks ob).

(** A data source that is running: a socket that is connecting or open,
    an interval of the demo generator that was not cleared. *)
Definition live (s : Socket) : bool :=
  match readyState s with
  | CONNECTING | OPEN => true
  | CLOSING | CLOSED => false
  end.

Definition demo_running (t : Timer) : bool :=
  match kind t with
  | DemoTick _ => active t
  | ReconnectTimer _ => false
  end.

(** The selections no live feed serves. *)
Definition unsupported (p : DataProvider) (a : AssetType) : bool :=
  match p, a with
  | Binance, Stock => true
  | Alpaca, _ | Polygon, _ => true
  | _, _ => false
  end.

(** The same selection with the demo provider. *)
Definition as_demo (c : Closure) : Closure :=
  mkClosure Demo (c_assetType c) (c_symbol c) (c_orderBook c) (c_bookGen c).

(** The world after the two clean-up statements that open [connect]. *)
Definition connect_teardown (w : World) : World :=
  let w1 :=
    match ws (refs w) with
    | Some i =>
        match readyState_of i w with
        | Some OPEN => close i w
        | _ => w
        end
    | None => w
    end in
  match demoInterval (refs w1) with
  | Some t => clearTimer t w1
  | None => w1
  end.

(** The number of hundredths [toFixed(2)] prints for a non-negative
    number below [10^21]. *)
Definition cents (x : number) : Z := Qfloor (x * 100 + (1 # 2)).

(** Two random streams give the same next [k] draws. *)
Definition agree (k : nat) (r1 r2 : RNG) : Prop :=
  forall i, (i < k)%nat ->
            draws r1 (cursor r1 + i)%nat = draws r2 (cursor r2 + i)%nat.

(** Events that lead from the first render to a socket still connecting
    while the demo interval runs: the user picks Binance, the component
    renders, and before the socket has opened the user picks the demo
    provider again. *)
Definition overlap_trace : list Event :=
  [Render; ProviderChange Binance; Render; ProviderChange Demo; Render].

(** The same start, then a change of symbol before the socket has opened. *)
Definition twin_trace : list Event :=
  [Render; ProviderChange Binance; Render; SymbolChange "ETHUSDT"; Render].

(** Trades appended one after the other, oldest first. *)
Definition appendTrades (ts : list Trade) (prev : list Trade) : list Trade :=
  fold_left (fun acc t => prependTrade t acc) ts prev.

(** Every draw lies in [[0, 1)], as [Math.random] promises. *)
Definition unit_draws (r : RNG) : Prop :=
  forall i, 0 <= draws r i /\ draws r i < 1.

(** The timer table after [clearInterval(i)] or [clearTimeout(i)]. *)
Definition clear_at (i : nat) (ts : list Timer) : list Timer :=
  match nth_error ts i with
  | Some t => array_set ts i (mkTimer (kind t) false)
  | None => ts
  end.

(** No demo interval runs. *)
Definition no_demo (ts : list Timer) : Prop :=
  forall t tm, nth_error ts t = Some tm -> demo_running tm = false.

(** A demo interval that runs is the one [demoInterval.current] holds. *)
Definition tracked (ts : list Timer) (d : option nat) : Prop :=
  forall t tm, nth_error ts t = Some tm -> demo_running tm = true -> d = Some t.

(** A closure whose message handler can run: if it captured the Binance
    provider it captured a book. *)
Definition good_closure (c : Closure) : Prop :=
  c_provider c = Binance -> c_orderBook c <> None.

(** What a timer captured: a demo base price of at least 100, or a closure
    as above. *)
Definition timer_ok (t : Timer) : Prop :=
  match kind t with
  | DemoTick b => 100 <= b
  | ReconnectTimer c => good_closure c
  end.

(** What holds in every state the component reaches (see
    [run_keeps_invariant]). *)
Definition invariant (w : World) : Prop :=
  tracked (timers (host w)) (demoInterval (refs w)) /\
  orderBook (react w) <> None /\
  good_closure (rendered w) /\
  Forall (fun s => good_closure (handlers s)) (sockets (host w)) /\
  Forall timer_ok (timers (host w)).

(** Every bid of the book is priced below every ask. *)
Definition positive_spread (ob : OrderBookData) : Prop :=
  forall bid ask, In bid (bids ob) -> In ask (asks ob) -> fst bid < fst ask.

(** A side of the book with sizes that are not negative. *)
Definition sizes_nonneg (l : list Level) : Prop :=
  Forall (fun x => 0 <= snd x) l.

(** The market summary [connectDemo] derives from base price [b]. *)
Definition summary_of (b : number) (md : MarketData) : Prop :=
  high md == b * (102 # 100) /\ low md == b * (98 # 100).

(** The heatmap state after the effect ran for each book of [runs] in
    turn, each with its own clock reading. *)
Definition heatmapRuns (runs : list (OrderBookData * number))
    (st : HeatmapState) : HeatmapState :=
  fold_left (fun st p => heatmapEffect (Some (fst p)) (snd p) st) runs st.

(** None of the letters [a] to [z] occurs. *)
Fixpoint no_lower (s : string) : Prop :=
  match s with
  | EmptyString => True
  | String c t =>
      (Nat.leb 97 (nat_of_ascii c) && Nat.leb (nat_of_ascii c) 122)%bool = false
      /\ no_lower t
  end.





(** ** Sample inputs *)

Definition rng0 : RNG := mkRNG (fun _ => 1 # 2) 0.

Definition book0 : OrderBookData := mkOrderBook [(100, 1)] [(101, 5)] 7.

(** A book with the same bid price twice. *)
Definition book1 : OrderBookData :=
  mkOrderBook [(100, 1); (100, 2)] [(101, 5)] 7.

Definition state0 : ReactState :=
  mkReact (Some book0) 1 [] true Crypto "BTCUSDT" Binance None.

Definition depth0 : Message :=
  mkMessage "depthUpdate" [] [("101.00"%string, "0"%string)] 0 "" "" 0 false.

(** A depth update with one new bid level. *)
Definition depth1 : Message :=
  mkMessage "depthUpdate" [("99.00"%string, "3"%string)] [] 0 "" "" 0 false.

(** The first render, then Binance is chosen and rendered. *)
Definition binance_trace : list Event :=
  [Render; ProviderChange Binance; Render].

Definition trade0 : Message :=
  mkMessage "trade" [] [] 12345 "100.50" "0.25" 1700000000000 true.

Definition snapshot0 : Snapshot :=
  mkSnapshot [("99.00"%string, "1"%string); ("100.00"%string, "2"%string)]
    [("101.00"%string, "3"%string)] 42.

(** ** The host operations leave the React state alone *)

Lemma draw_react :
  forall (A : Type) (m : Rand A) (w w' : World) (a : A),
    draw m w = (a, w') -> react w' = react w.
Proof.
  intros A m w w' a H. unfold draw in H.
  destruct (m (rng (host w))) as [a0 r]. inversion H. reflexivity.
Qed.

Lemma draw_refs :
  forall (A : Type) (m : Rand A) (w w' : World) (a : A),
    draw m w = (a, w') -> refs w' = refs w.
Proof.
  intros A m w w' a H. unfold draw in H.
  destruct (m (rng (host w))) as [a0 r]. inversion H. reflexivity.
Qed.

Lemma draw_host :
  forall (A : Type) (m : Rand A) (w w' : World) (a : A),
    draw m w = (a, w') ->
    sockets (host w') = sockets (host w) /\
    timers (host w') = timers (host w) /\
    clock (host w') = clock (host w).
Proof.
  intros A m w w' a H. unfold draw in H.
  destruct (m (rng (host w))) as [a0 r]. inversion H. repeat split.
Qed.

Lemma draw_fst :
  forall (A : Type) (m : Rand A) (w w' : World) (a : A),
    draw m w = (a, w') -> a = fst (m (rng (host w))).
Proof.
  intros A m w w' a H. unfold draw in H.
  destruct (m (rng (host w))) as [a0 r]. inversion H. reflexivity.
Qed.

Lemma clearTimer_react : forall t w, react (clearTimer t w) = react w.
Proof.
  intros t w. unfold clearTimer.
  destruct (nth_error (timers (host w)) t); reflexivity.
Qed.

Lemma clearTimer_refs : forall t w, refs (clearTimer t w) = refs w.
Proof.
  intros t w. unfold clearTimer.
  destruct (nth_error (timers (host w)) t); reflexivity.
Qed.

Lemma clearTimer_sockets :
  forall t w, sockets (host (clearTimer t w)) = sockets (host w).
Proof.
  intros t w. unfold clearTimer.
  destruct (nth_error (timers (host w)) t); reflexivity.
Qed.

Lemma close_react : forall i w, react (close i w) = react w.
Proof.
  intros i w. unfold close, set_readyState.
  destruct (readyState_of i w) as [[| | |] |];
    try reflexivity;
    destruct (nth_error (sockets (host w)) i); reflexivity.
Qed.

Lemma close_refs : forall i w, refs (close i w) = refs w.
Proof.
  intros i w. unfold close, set_readyState.
  destruct (readyState_of i w) as [[| | |] |];
    try reflexivity;
    destruct (nth_error (sockets (host w)) i); reflexivity.
Qed.

Lemma array_set_length :
  forall (A : Type) (l : list A) (i : nat) (v : A),
    List.length (array_set l i v) = List.length l.
Proof.
  intros A l. induction l as [| x l IH]; intros [| i] v; simpl;
    try reflexivity.
  f_equal. apply IH.
Qed.

Lemma close_sockets_length :
  forall i w,
    List.length (sockets (host (close i w))) = List.length (sockets (host w)).
Proof.
  intros i w. unfold close, set_readyState.
  destruct (readyState_of i w) as [[| | |] |];
    try reflexivity;
    destruct (nth_error (sockets (host w)) i); try reflexivity;
    simpl; apply array_set_length.
Qed.

Lemma close_timers :
  forall i w, timers (host (close i w)) = timers (host w).
Proof.
  intros i w. unfold close, set_readyState.
  destruct (readyState_of i w) as [[| | |] |];
    try reflexivity;
    destruct (nth_error (sockets (host w)) i); reflexivity.
Qed.

(** ** Frame of the two message callbacks *)

Lemma processOrderBookUpdate_skips :
  forall ob p data s,
    p <> Binance \/ data_e data <> "depthUpdate"%string ->
    processOrderBookUpdate ob p data s = Ok s.
Proof.
  intros ob p data s H. unfold processOrderBookUpdate.
  destruct H as [H | H].
  - destruct p; try congruence; reflexivity.
  - apply String.eqb_neq in H. rewrite H, andb_false_r. reflexivity.
Qed.

Lemma processTrade_skips :
  forall p data s,
    p <> Binance \/ data_e data <> "trade"%string ->
    processTrade p data s = Ok s.
Proof.
  intros p data s H. unfold processTrade.
  destruct H as [H | H].
  - destruct p; try congruence; reflexivity.
  - apply String.eqb_neq in H. rewrite H, andb_false_r. reflexivity.
Qed.

(** A callback whose captured provider is not Binance, or that is handed a
    message of another event type, returns without touching the state:
    order book and trade list stay as they were.  The same holds for the
    message handler of a socket under either condition.  The provider in
    question is the one the callback captured, not the one selected when
    the message arrives. *)
Theorem message_frame :
  forall ob p data s,
    (p <> Binance \/ data_e data <> "depthUpdate"%string ->
     processOrderBookUpdate ob p data s = Ok s) /\
    (p <> Binance \/ data_e data <> "trade"%string ->
     processTrade p data s = Ok s) /\
    (forall c,
       c_provider c <> Binance \/
       (data_e data <> "depthUpdate"%string /\ data_e data <> "trade"%string) ->
       onmessage c data s = Ok s).
Proof.
  intros ob p data s. split; [| split].
  - apply processOrderBookUpdate_skips.
  - apply processTrade_skips.
  - intros c H. unfold onmessage.
    destruct (String.eqb (data_e data) "depthUpdate") eqn:E1.
    + apply processOrderBookUpdate_skips.
      destruct H as [H | [H _]]; [left; exact H |].
      apply String.eqb_eq in E1. contradiction.
    + destruct (String.eqb (data_e data) "trade") eqn:E2; [| reflexivity].
      apply processTrade_skips.
      destruct H as [H | [_ H]]; [left; exact H |].
      apply String.eqb_eq in E2. contradiction.
Qed.

(** ** The trade list *)

Lemma prependTrade_length :
  forall t prev, (List.length (prependTrade t prev) <= 100)%nat.
Proof.
  intros t prev. unfold prependTrade, slice0. apply firstn_le_length.
Qed.

Lemma prependTrade_cons :
  forall t prev, prependTrade t prev = t :: firstn 99 prev.
Proof. reflexivity. Qed.

Lemma firstn_app_firstn :
  forall (A : Type) (l1 l2 : list A) (n m : nat),
    (n <= m)%nat ->
    firstn n (l1 ++ firstn m l2) = firstn n (l1 ++ l2).
Proof.
  intros A l1. induction l1 as [| x l1 IH]; intros l2 n m Hnm; simpl.
  - rewrite firstn_firstn. f_equal. lia.
  - destruct n as [| n]; simpl; [reflexivity |].
    f_equal. apply IH. lia.
Qed.

Lemma appendTrades_firstn :
  forall ts prev, appendTrades ts prev = firstn 100 (rev ts ++ prev) \/ ts = [].
Proof.
  induction ts as [| t ts IH]; intros prev; [right; reflexivity | left].
  unfold appendTrades. simpl fold_left. fold (appendTrades ts (prependTrade t prev)).
  destruct (IH (prependTrade t prev)) as [E | E].
  - rewrite E. unfold prependTrade, slice0.
    rewrite firstn_app_firstn by lia.
    simpl rev. rewrite <- app_assoc. reflexivity.
  - subst ts. reflexivity.
Qed.

(** C3.  Both writers of the trade list, the live callback and the demo
    tick, put the new trade in front and keep the first 100 entries.  So
    after any run of appends onto a list of at most 100 trades the list has
    at most 100 entries and is the first 100 of the appended trades, newest
    first, followed by the earlier list: the newest trade is the head, the
    retained trades keep their order, and what is dropped is the oldest
    end. *)
Theorem trades_capped_newest_first :
  (forall p data s,
      p = Binance -> data_e data = "trade"%string ->
      processTrade p data s
      = Ok (setTrades (prependTrade (tradeOfMessage data)) s)) /\
  (forall basePrice w,
      exists newTrade,
        trades (react (demoTick basePrice w))
        = prependTrade newTrade (trades (react w)) /\
        id newTrade
        = ("trade-" ++ nat_toString (tradeCounter (refs w)))%string /\
        time newTrade = clock (host w)) /\
  (forall t prev,
      prependTrade t prev = t :: firstn 99 prev /\
      (List.length (prependTrade t prev) <= 100)%nat) /\
  (forall ts prev,
      (List.length prev <= 100)%nat ->
      appendTrades ts prev = firstn 100 (rev ts ++ prev) /\
      (List.length (appendTrades ts prev) <= 100)%nat).
Proof.
  split; [| split; [| split]].
  - intros p data s -> E. unfold processTrade. rewrite E. reflexivity.
  - intros basePrice w. unfold demoTick.
    destruct (draw Math_random w) as [r w1] eqn:E1.
    destruct (draw (generateDemoOrderBook _ _) w1) as [book w2] eqn:E2.
    destruct (draw (generateDemoTrade _ _ _) _) as [newTrade w4] eqn:E4.
    exists newTrade.
    pose proof (draw_fst _ _ _ _ _ E4) as T4.
    pose proof (draw_refs _ _ _ _ _ E1) as F1.
    pose proof (draw_refs _ _ _ _ _ E2) as F2.
    pose proof (draw_host _ _ _ _ _ E1) as (_ & _ & C1).
    pose proof (draw_host _ _ _ _ _ E2) as (_ & _ & C2).
    apply draw_react in E1, E2, E4.
    cbn [react on_react on_refs setMarketData setTrades trades].
    rewrite E4. cbn [react on_react setOrderBook trades].
    rewrite E2, E1. split; [reflexivity |].
    rewrite T4. cbn [refs host on_react]. rewrite F2, F1, C2, C1.
    split; reflexivity.
  - intros t prev. split; [reflexivity | apply prependTrade_length].
  - intros ts prev Hlen.
    assert (E : appendTrades ts prev = firstn 100 (rev ts ++ prev)).
    { destruct (appendTrades_firstn ts prev) as [E | E]; [exact E |].
      subst ts. change (prev = firstn 100 prev).
      symmetry. apply firstn_all2. exact Hlen. }
    split; [exact E |]. rewrite E. apply firstn_le_length.
Qed.

(** ** Connecting *)

Lemma connectDemo_spec :
  forall c w,
    exists book md,
      react (connectDemo c w)
      = setMarketData (fun _ => Some md)
          (setOrderBook book (setIsConnected true (react w))) /\
      book = fst (generateDemoOrderBook (demoBasePrice (c_symbol c))
                    (clock (host w)) (rng (host w))) /\
      refs (connectDemo c w)
      = set_demoInterval (Some (List.length (timers (host w)))) (refs w) /\
      timers (host (connectDemo c w))
      = push (timers (host w))
          (mkTimer (DemoTick (demoBasePrice (c_symbol c))) true) /\
      sockets (host (connectDemo c w)) = sockets (host w).
Proof.
  intros c w. unfold connectDemo.
  destruct (draw (generateDemoOrderBook _ _) _) as [book w2] eqn:E2.
  destruct (draw (demoMarketData _ _ _) _) as [md w4] eqn:E4.
  exists book, md.
  pose proof (draw_react _ _ _ _ _ E2) as R2.
  pose proof (draw_refs _ _ _ _ _ E2) as F2.
  pose proof (draw_host _ _ _ _ _ E2) as (S2 & T2 & _).
  pose proof (draw_fst _ _ _ _ _ E2) as B2.
  pose proof (draw_react _ _ _ _ _ E4) as R4.
  pose proof (draw_refs _ _ _ _ _ E4) as F4.
  pose proof (draw_host _ _ _ _ _ E4) as (S4 & T4 & _).
  clear E2 E4.
  unfold setTimer.
  cbn [react refs host on_react on_refs on_host timers sockets set_timers].
  cbn [react refs host on_react on_refs on_host timers sockets] in R2, F2, S2, T2, R4, F4, S4, T4.
  rewrite R4, R2, F4, F2, T4, T2, S4, S2.
  split; [reflexivity |].
  split; [exact B2 | split; [reflexivity | split; reflexivity]].
Qed.

Lemma connectDemo_as_demo :
  forall c w, connectDemo (as_demo c) w = connectDemo c w.
Proof.
  intros c w. unfold connectDemo, as_demo. cbn [c_symbol c_assetType].
  reflexivity.
Qed.

(** [connect] is its clean-up followed by the [switch]. *)
Lemma connect_cases :
  forall c w,
    connect c w
    = match c_provider c with
      | Demo => connectDemo c (connect_teardown w)
      | Binance =>
          match c_assetType c with
          | Crypto => connectBinance c (connect_teardown w)
          | Stock => connectDemo c (connect_teardown w)
          end
      | Alpaca | Polygon => connectDemo c (connect_teardown w)
      end.
Proof. intros c w. unfold connect, connect_teardown. reflexivity. Qed.

(** The clean-up touches sockets and timers only. *)
Lemma connect_teardown_frame :
  forall w,
    react (connect_teardown w) = react w /\
    refs (connect_teardown w) = refs w /\
    List.length (sockets (host (connect_teardown w)))
    = List.length (sockets (host w)) /\
    List.length (timers (host (connect_teardown w)))
    = List.length (timers (host w)).
Proof.
  intros w. unfold connect_teardown.
  set (w1 := match ws (refs w) with Some _ => _ | None => w end).
  assert (H1 : react w1 = react w /\ refs w1 = refs w /\
               List.length (sockets (host w1)) = List.length (sockets (host w)) /\
               timers (host w1) = timers (host w)).
  { subst w1. destruct (ws (refs w)) as [i |]; [| now auto].
    destruct (readyState_of i w) as [[| | |] |]; try (now auto).
    split; [apply close_react | split; [apply close_refs |]].
    split; [apply close_sockets_length | apply close_timers]. }
  destruct H1 as (R1 & F1 & S1 & T1).
  set (w2 := match demoInterval (refs w1) with Some _ => _ | None => w1 end).
  assert (H2 : react w2 = react w1 /\ refs w2 = refs w1 /\
               sockets (host w2) = sockets (host w1) /\
               List.length (timers (host w2)) = List.length (timers (host w1))).
  { subst w2. destruct (demoInterval (refs w1)) as [t |]; [| now auto].
    split; [apply clearTimer_react | split; [apply clearTimer_refs |]].
    split; [apply clearTimer_sockets |].
    unfold clearTimer. destruct (nth_error (timers (host w1)) t);
      [simpl; apply array_set_length | reflexivity]. }
  destruct H2 as (R2 & F2 & S2 & T2).
  split; [congruence | split; [congruence |]].
  split; congruence.
Qed.

(** C6.  With a selection that no live feed serves (Binance for stocks,
    Alpaca, Polygon) [connect] does what it does for the demo provider: it
    returns, sets the connection flag, installs a demo book, starts the
    demo interval and keeps it in the ref, and opens no socket. *)
Theorem unsupported_selection_falls_back_to_demo :
  forall c w,
    unsupported (c_provider c) (c_assetType c) = true ->
    connect c w = connect (as_demo c) w /\
    isConnected (react (connect c w)) = true /\
    (exists book, orderBook (react (connect c w)) = Some book) /\
    (exists t,
        demoInterval (refs (connect c w)) = Some t /\
        nth_error (timers (host (connect c w))) t
        = Some (mkTimer (DemoTick (demoBasePrice (c_symbol c))) true)) /\
    List.length (sockets (host (connect c w)))
    = List.length (sockets (host w)).
Proof.
  intros c w H.
  assert (E : connect c w = connectDemo c (connect_teardown w)).
  { rewrite connect_cases. destruct (c_provider c), (c_assetType c);
      simpl in H; try discriminate H; reflexivity. }
  split.
  { rewrite E, (connect_cases (as_demo c) w). cbn [as_demo c_provider].
    symmetry. apply (connectDemo_as_demo c). }
  rewrite E. clear E.
  destruct (connect_teardown_frame w) as (R & F & S & T).
  set (w2 := connect_teardown w) in *.
  destruct (connectDemo_spec c w2) as (book & md & Hr & _ & Hf & Ht & Hs).
  rewrite Hr, Hf, Ht, Hs.
  split; [reflexivity |]. split; [| split].
  - exists book. reflexivity.
  - exists (List.length (timers (host w2))). split; [reflexivity |].
    unfold push. rewrite nth_error_app2 by lia.
    rewrite Nat.sub_diag. reflexivity.
  - exact S.
Qed.

(** ** Switching the asset class *)

Lemma cleanup_react : forall w, react (cleanup w) = react w.
Proof.
  intros w. unfold cleanup.
  set (w1 := match ws (refs w) with Some _ => _ | None => w end).
  assert (R1 : react w1 = react w).
  { subst w1. destruct (ws (refs w)); [apply close_react | reflexivity]. }
  set (w2 := match reconnectTimeout (refs w1) with Some _ => _ | None => w1 end).
  assert (R2 : react w2 = react w1).
  { subst w2. destruct (reconnectTimeout (refs w1));
      [apply clearTimer_react | reflexivity]. }
  destruct (demoInterval (refs w2));
    [rewrite clearTimer_react |]; congruence.
Qed.

Lemma connectBinance_react : forall c w, react (connectBinance c w) = react w.
Proof. reflexivity. Qed.

Lemma connect_selection :
  forall c w,
    provider (react (connect c w)) = provider (react w) /\
    symbol (react (connect c w)) = symbol (react w) /\
    assetType (react (connect c w)) = assetType (react w).
Proof.
  intros c w.
  destruct (connect_teardown_frame w) as (R & _).
  rewrite connect_cases, <- R.
  set (w2 := connect_teardown w).
  destruct (connectDemo_spec c w2) as (book & md & Hr & _).
  destruct (c_provider c), (c_assetType c);
    rewrite ?connectBinance_react, ?Hr; auto.
Qed.

Lemma react_set_rendered :
  forall c w, react (set_rendered c w) = react w.
Proof. reflexivity. Qed.

Lemma render_asset_changed :
  forall w,
    AssetType_eqb (c_assetType (rendered w)) (assetType (react w)) = false ->
    render w
    = set_rendered (closure_of (react w))
        (connect (closure_of (react w))
           (on_react (setSymbol (DEFAULT_SYMBOLS (assetType (react w))))
              (cleanup w))).
Proof.
  intros w H. unfold render.
  assert (E : same_connect (rendered w) (closure_of (react w)) = false).
  { unfold same_connect.
    change (c_assetType (closure_of (react w))) with (assetType (react w)).
    rewrite H, andb_false_r. reflexivity. }
  rewrite E.
  change (c_assetType (closure_of (react w))) with (assetType (react w)).
  rewrite H. reflexivity.
Qed.

(** C4.  When the settings screen switches the asset class to the other
    one, the handler sets the provider to demo, and the render that
    follows runs the symbol effect: afterwards the provider is demo, the
    asset class is the new one and the symbol is that class's default. *)
Theorem asset_switch_resets_selection :
  forall newType w,
    c_assetType (rendered w) = assetType (react w) ->
    assetType (react w) <> newType ->
    let w' := render (handleAssetTypeChange newType w) in
    provider (react w') = Demo /\
    assetType (react w') = newType /\
    symbol (react w') = DEFAULT_SYMBOLS newType /\
    (DEFAULT_SYMBOLS Crypto = "BTCUSDT"%string /\
     DEFAULT_SYMBOLS Stock = "AAPL"%string).
Proof.
  intros newType w Hr Hne w'. subst w'.
  set (w0 := handleAssetTypeChange newType w).
  assert (Hb : AssetType_eqb (c_assetType (rendered w0)) (assetType (react w0))
               = false).
  { subst w0. unfold handleAssetTypeChange.
    cbn [rendered react on_react setProvider setAssetType assetType].
    rewrite Hr. destruct (assetType (react w)), newType;
      try reflexivity; congruence. }
  rewrite (render_asset_changed w0 Hb), react_set_rendered.
  match goal with
  | |- context [connect ?c ?x] =>
      destruct (connect_selection c x) as (P & S & A); rewrite P, S, A
  end.
  cbn [react on_react setSymbol provider symbol assetType].
  rewrite cleanup_react. subst w0. unfold handleAssetTypeChange.
  cbn [react on_react setProvider setAssetType provider assetType].
  auto.
Qed.

(** ** Array methods *)

Lemma findIndex_range :
  forall (A : Type) (p : A -> bool) (l : list A),
    findIndex p l = (-1)%Z \/
    (0 <= findIndex p l < Z.of_nat (List.length l))%Z.
Proof.
  intros A p l. induction l as [| x l IH]; simpl; [left; reflexivity |].
  destruct (p x); [right; lia |].
  destruct (Z.ltb_spec (findIndex p l) 0); [left; reflexivity | right; lia].
Qed.

Lemma findIndex_found_lt :
  forall (A : Type) (p : A -> bool) (l : list A),
    (0 <= findIndex p l)%Z ->
    (Z.to_nat (findIndex p l) < List.length l)%nat.
Proof.
  intros A p l H. destruct (findIndex_range A p l); lia.
Qed.

Lemma findIndex_none :
  forall (A : Type) (p : A -> bool) (l : list A),
    (findIndex p l < 0)%Z -> forall x, In x l -> p x = false.
Proof.
  intros A p l. induction l as [| y l IH]; simpl; intros H x Hx; [tauto |].
  destruct (p y) eqn:Py; [lia |].
  destruct (Z.ltb_spec (findIndex p l) 0) as [Hn | Hn].
  - destruct Hx as [-> | Hx]; [exact Py | apply IH; assumption].
  - destruct (findIndex_range A p l); lia.
Qed.

Lemma array_set_In :
  forall (A : Type) (l : list A) (i : nat) (v x : A),
    In x (array_set l i v) -> x = v \/ In x l.
Proof.
  intros A l. induction l as [| y l IH]; intros [| i] v x; simpl;
    try tauto.
  - intros [<- | H]; auto.
  - intros [<- | H]; auto. destruct (IH _ _ _ H); auto.
Qed.

Lemma sort_insert_In :
  forall (A : Type) (cmp : A -> A -> number) (x y : A) (l : list A),
    In y (sort_insert cmp x l) <-> y = x \/ In y l.
Proof.
  intros A cmp x y l. induction l as [| z l IH]; simpl.
  - intuition congruence.
  - destruct (Qle_bool (cmp x z) 0); simpl; [intuition congruence |].
    rewrite IH. intuition congruence.
Qed.

Lemma sort_In :
  forall (A : Type) (cmp : A -> A -> number) (y : A) (l : list A),
    In y (sort cmp l) <-> In y l.
Proof.
  intros A cmp y l. induction l as [| x l IH]; simpl; [tauto |].
  rewrite sort_insert_In, IH. intuition congruence.
Qed.

Section SortOrder.

Variable A : Type.
Variable cmp : A -> A -> number.
Variable R : A -> A -> Prop.
Hypothesis R_trans : forall x y z, R x y -> R y z -> R x z.
Hypothesis cmp_le : forall x y, Qle_bool (cmp x y) 0 = true -> R x y.
Hypothesis cmp_gt : forall x y, Qle_bool (cmp x y) 0 = false -> R y x.

Lemma sort_insert_sorted :
  forall x l, StronglySorted R l -> StronglySorted R (sort_insert cmp x l).
Proof.
  intros x l Hs. induction Hs as [| y l Hs IH Hy]; simpl.
  - constructor; constructor.
  - destruct (Qle_bool (cmp x y) 0) eqn:E.
    + constructor; [constructor; assumption |].
      constructor; [apply cmp_le; exact E |].
      eapply Forall_impl; [| exact Hy].
      intros z Hz. apply R_trans with y; [apply cmp_le; exact E | exact Hz].
    + constructor; [exact IH |].
      apply Forall_forall. intros z Hz.
      apply sort_insert_In in Hz. destruct Hz as [-> | Hz].
      * apply cmp_gt. exact E.
      * rewrite Forall_forall in Hy. apply Hy. exact Hz.
Qed.

Lemma sort_sorted : forall l, StronglySorted R (sort cmp l).
Proof.
  induction l as [| x l IH]; simpl; [constructor |].
  apply sort_insert_sorted. exact IH.
Qed.

End SortOrder.

Lemma same_price_refl : forall x, same_price x x.
Proof. intros x. unfold same_price. reflexivity. Qed.

Lemma same_price_sym : forall x y, same_price x y -> same_price y x.
Proof. intros x y H. unfold same_price in *. symmetry. exact H. Qed.

Lemma same_price_trans :
  forall x y z, same_price x y -> same_price y z -> same_price x z.
Proof. intros x y z H1 H2. unfold same_price in *. rewrite H1. exact H2. Qed.

Lemma InA_same_price :
  forall x l, InA same_price x l <-> exists y, In y l /\ fst x == fst y.
Proof.
  intros x l. rewrite InA_alt. unfold same_price.
  split; intros (y & H1 & H2); exists y; tauto.
Qed.

Lemma sort_insert_distinct :
  forall cmp x l,
    distinct_prices l -> ~ InA same_price x l ->
    distinct_prices (sort_insert cmp x l).
Proof.
  intros cmp x l Hd. induction Hd as [| y l Hy Hd IH]; simpl; intros Hx.
  - constructor; [exact Hx | constructor].
  - destruct (Qle_bool (cmp x y) 0).
    + constructor; [exact Hx | constructor; assumption].
    + constructor.
      * rewrite InA_same_price. intros (z & Hz & E).
        apply sort_insert_In in Hz. destruct Hz as [-> | Hz].
        -- apply Hx. left. apply same_price_sym. exact E.
        -- apply Hy. apply InA_same_price. exists z. tauto.
      * apply IH. intros H. apply Hx. right. exact H.
Qed.

Lemma sort_distinct :
  forall cmp l, distinct_prices l -> distinct_prices (sort cmp l).
Proof.
  intros cmp l Hd. induction Hd as [| x l Hx Hd IH]; simpl; [constructor |].
  apply sort_insert_distinct; [exact IH |].
  rewrite InA_same_price in *. intros (y & Hy & E). apply Hx.
  exists y. split; [apply (sort_In _ cmp); exact Hy | exact E].
Qed.

Lemma descending_distinct_strict :
  forall l, descending l -> distinct_prices l -> strictly_descending l.
Proof.
  intros l Hs. induction Hs as [| x l Hs IH Hx]; intros Hd;
    [constructor |].
  inversion Hd as [| ? ? Hnx Hd']; subst.
  constructor; [apply IH; exact Hd' |].
  apply Forall_forall. intros y Hy.
  rewrite Forall_forall in Hx. specialize (Hx y Hy).
  apply Qle_lteq in Hx. destruct Hx as [Hlt | Heq]; [exact Hlt |].
  exfalso. apply Hnx. apply InA_same_price. exists y.
  split; [exact Hy | symmetry; exact Heq].
Qed.

Lemma ascending_distinct_strict :
  forall l, ascending l -> distinct_prices l -> strictly_ascending l.
Proof.
  intros l Hs. induction Hs as [| x l Hs IH Hx]; intros Hd;
    [constructor |].
  inversion Hd as [| ? ? Hnx Hd']; subst.
  constructor; [apply IH; exact Hd' |].
  apply Forall_forall. intros y Hy.
  rewrite Forall_forall in Hx. specialize (Hx y Hy).
  apply Qle_lteq in Hx. destruct Hx as [Hlt | Heq]; [exact Hlt |].
  exfalso. apply Hnx. apply InA_same_price. exists y.
  split; [exact Hy | exact Heq].
Qed.

Lemma sort_bids_descending :
  forall l : list Level, descending (sort (fun a b => fst b - fst a) l).
Proof.
  intros l. apply sort_sorted.
  - intros x y z H1 H2. lra.
  - intros x y H. apply Qle_bool_iff in H. lra.
  - intros x y H.
    destruct (Qlt_le_dec 0 (fst y - fst x)) as [H1 | H1]; [lra |].
    apply Qle_bool_iff in H1. congruence.
Qed.

Lemma sort_asks_ascending :
  forall l : list Level, ascending (sort (fun a b => fst a - fst b) l).
Proof.
  intros l. apply sort_sorted.
  - intros x y z H1 H2. lra.
  - intros x y H. apply Qle_bool_iff in H. lra.
  - intros x y H.
    destruct (Qlt_le_dec 0 (fst x - fst y)) as [H1 | H1]; [lra |].
    apply Qle_bool_iff in H1. congruence.
Qed.

(** ** One level of a depth update *)

Lemma filter_distinct :
  forall (f : Level -> bool) l,
    distinct_prices l -> distinct_prices (filter f l).
Proof.
  intros f l Hd. induction Hd as [| x l Hx Hd IH]; simpl; [constructor |].
  destruct (f x); [| exact IH].
  constructor; [| exact IH].
  rewrite InA_same_price in *. intros (y & Hy & E). apply Hx.
  exists y. apply filter_In in Hy. tauto.
Qed.

Lemma push_distinct :
  forall l (v : Level),
    distinct_prices l ->
    (forall x, In x l -> strict_eq (fst x) (fst v) = false) ->
    distinct_prices (push l v).
Proof.
  intros l v Hd. unfold push.
  induction Hd as [| x l Hx Hd IH]; simpl; intros Hv.
  - constructor; [| constructor]. intros H. inversion H.
  - constructor.
    + rewrite InA_same_price in *. intros (y & Hy & E).
      apply in_app_or in Hy. destruct Hy as [Hy | [<- | []]].
      * apply Hx. exists y. tauto.
      * specialize (Hv x (or_introl eq_refl)).
        apply Qeq_bool_iff in E. unfold strict_eq in Hv. congruence.
    + apply IH. intros y Hy. apply Hv. right. exact Hy.
Qed.

Lemma array_set_found_distinct :
  forall l (p a : number),
    distinct_prices l ->
    (0 <= findIndex (fun x : Level => strict_eq (fst x) p) l)%Z ->
    distinct_prices
      (array_set l (Z.to_nat (findIndex (fun x : Level => strict_eq (fst x) p) l))
         (p, a)).
Proof.
  intros l p a Hd. induction Hd as [| x l Hx Hd IH]; simpl; intros Hi;
    [constructor |].
  destruct (strict_eq (fst x) p) eqn:E.
  - simpl. constructor; [| exact Hd].
    rewrite InA_same_price in *. intros (y & Hy & E'). apply Hx.
    exists y. split; [exact Hy |].
    apply Qeq_bool_iff in E. simpl in E'. rewrite E. exact E'.
  - destruct (Z.ltb_spec (findIndex (fun x0 : Level => strict_eq (fst x0) p) l) 0)
      as [Hn | Hn]; [lia |].
    rewrite Z2Nat.inj_add by lia. rewrite Nat.add_comm. simpl.
    constructor; [| apply IH; exact Hn].
    rewrite InA_same_price in *. intros (y & Hy & E').
    apply array_set_In in Hy. destruct Hy as [-> | Hy].
    + simpl in E'. apply Qeq_bool_iff in E'. unfold strict_eq in E. congruence.
    + apply Hx. exists y. tauto.
Qed.

Lemma applyBid_distinct :
  forall bids u, distinct_prices bids -> distinct_prices (applyBid bids u).
Proof.
  intros bids [price amount] Hd. unfold applyBid.
  destruct (strict_eq (parseFloat amount) 0); [apply filter_distinct; exact Hd |].
  match goal with
    | |- context [(0 <=? ?i)%Z] => destruct (Z.leb_spec 0 i) as [Hi | Hi]
    end.
  - apply array_set_found_distinct; assumption.
  - apply push_distinct; [exact Hd |].
    intros x Hx. simpl.
    apply (findIndex_none _ (fun l : Level => strict_eq (fst l) (parseFloat price))
             bids Hi x Hx).
Qed.

Lemma fold_applyBid_distinct :
  forall us bids,
    distinct_prices bids -> distinct_prices (fold_left applyBid us bids).
Proof.
  induction us as [| u us IH]; intros bids Hd; simpl; [exact Hd |].
  apply IH. apply applyBid_distinct. exact Hd.
Qed.

(** A level sent with size 0 is gone from the side afterwards. *)
Lemma applyBid_zero_removes :
  forall bids price amount,
    parseFloat amount == 0 ->
    forall x, In x (applyBid bids (price, amount)) ->
              ~ fst x == parseFloat price.
Proof.
  intros bids price amount Hz x Hx. unfold applyBid in Hx.
  apply Qeq_bool_iff in Hz. unfold strict_eq at 1 in Hx. rewrite Hz in Hx.
  apply filter_In in Hx. destruct Hx as [_ Hx].
  intros E. apply Qeq_bool_iff in E. unfold strict_eq in Hx.
  rewrite E in Hx. discriminate Hx.
Qed.

(** A price that is absent stays absent under an update of another price,
    and under an update of size 0. *)
Lemma applyBid_keeps_absent :
  forall bids price amount q,
    (forall x, In x bids -> ~ fst x == q) ->
    ~ parseFloat price == q \/ parseFloat amount == 0 ->
    forall x, In x (applyBid bids (price, amount)) -> ~ fst x == q.
Proof.
  intros bids price amount q Habs Hu x Hx. unfold applyBid in Hx.
  destruct (strict_eq (parseFloat amount) 0) eqn:Ez.
  - apply filter_In in Hx. apply Habs. tauto.
  - assert (Hq : ~ parseFloat price == q).
    { destruct Hu as [Hu | Hu]; [exact Hu |].
      apply Qeq_bool_iff in Hu. unfold strict_eq in Ez. congruence. }
    match type of Hx with
    | context [(0 <=? ?i)%Z] => destruct (0 <=? i)%Z
    end.
    + apply array_set_In in Hx. destruct Hx as [-> | Hx];
        [exact Hq | apply Habs; exact Hx].
    + unfold push in Hx. apply in_app_or in Hx.
      destruct Hx as [Hx | [<- | []]]; [apply Habs; exact Hx | exact Hq].
Qed.

Lemma fold_applyBid_keeps_absent :
  forall us bids q,
    (forall x, In x bids -> ~ fst x == q) ->
    (forall u, In u us ->
               parseFloat (fst u) == q -> parseFloat (snd u) == 0) ->
    forall x, In x (fold_left applyBid us bids) -> ~ fst x == q.
Proof.
  induction us as [| [price amount] us IH]; intros bids q Habs Hus; simpl;
    [exact Habs |].
  apply IH.
  - apply applyBid_keeps_absent; [exact Habs |].
    destruct (Qeq_dec (parseFloat price) q) as [E | E]; [right | left; exact E].
    apply (Hus (price, amount)); [left; reflexivity | exact E].
  - intros u Hu. apply Hus. right. exact Hu.
Qed.

Lemma fold_applyBid_zero_removes :
  forall us bids q,
    (exists u, In u us /\ parseFloat (fst u) == q) ->
    (forall u, In u us ->
               parseFloat (fst u) == q -> parseFloat (snd u) == 0) ->
    forall x, In x (fold_left applyBid us bids) -> ~ fst x == q.
Proof.
  induction us as [| [price amount] us IH]; intros bids q (u & Hu & Eu) Hus;
    [destruct Hu |].
  simpl. destruct (Qeq_dec (parseFloat price) q) as [E | E].
  - apply fold_applyBid_keeps_absent.
    + intros x Hx.
      assert (Hz : parseFloat amount == 0).
      { apply (Hus (price, amount)); [left; reflexivity | exact E]. }
      rewrite <- E. apply (applyBid_zero_removes bids price amount Hz x Hx).
    + intros v Hv. apply Hus. right. exact Hv.
  - apply IH.
    + destruct Hu as [<- | Hu]; [simpl in Eu; contradiction |].
      exists u. tauto.
    + intros v Hv. apply Hus. right. exact Hv.
Qed.

Lemma array_set_nth :
  forall (A : Type) (l : list A) (i : nat) (v : A),
    (i < List.length l)%nat -> In v (array_set l i v).
Proof.
  intros A l. induction l as [| x l IH]; intros [| i] v H; simpl in *;
    try lia.
  - left. reflexivity.
  - right. apply IH. lia.
Qed.

(** A level sent with a size other than 0 is in the side afterwards, with
    that size. *)
Lemma applyBid_nonzero_present :
  forall bids price amount,
    ~ parseFloat amount == 0 ->
    In (parseFloat price, parseFloat amount) (applyBid bids (price, amount)).
Proof.
  intros bids price amount Hnz. unfold applyBid.
  destruct (strict_eq (parseFloat amount) 0) eqn:Ez.
  - apply Qeq_bool_iff in Ez. contradiction.
  - match goal with
    | |- context [(0 <=? ?i)%Z] => destruct (Z.leb_spec 0 i) as [Hi | Hi]
    end.
    + apply array_set_nth.
      apply findIndex_found_lt. exact Hi.
    + unfold push. apply in_or_app. right. left. reflexivity.
Qed.

(** ** Rounding to two decimals *)

Lemma inv100_pos : 0 < / 100.
Proof. reflexivity. Qed.

Lemma le_Qfloor : forall (z : Z) (q : Q), inject_Z z <= q -> (z <= Qfloor q)%Z.
Proof.
  intros z q H.
  assert (H1 : inject_Z z < inject_Z (Qfloor q + 1)).
  { eapply Qle_lt_trans; [exact H | apply Qlt_floor]. }
  rewrite <- Zlt_Qlt in H1. lia.
Qed.

Lemma cents_mono : forall x y, x <= y -> (cents x <= cents y)%Z.
Proof.
  intros x y H. unfold cents. apply Qfloor_resp_le. lra.
Qed.

Lemma cents_step :
  forall x y, x + (1 # 100) <= y -> (cents x + 1 <= cents y)%Z.
Proof.
  intros x y H. unfold cents. apply le_Qfloor.
  rewrite inject_Z_plus.
  pose proof (Qfloor_le (x * 100 + (1 # 2))) as H1.
  change (inject_Z 1) with 1. lra.
Qed.

Lemma cents_upper : forall x, inject_Z (cents x) / 100 <= x + (1 # 200).
Proof.
  intros x. unfold cents.
  pose proof (Qfloor_le (x * 100 + (1 # 2))) as H1.
  apply Qle_shift_div_r; lra.
Qed.

Lemma toFixed2_cases :
  forall x,
    0 <= x ->
    (x < inject_Z (10 ^ 21) /\ toFixed 2 x == inject_Z (cents x) / 100) \/
    (inject_Z (10 ^ 21) <= x /\ toFixed 2 x == x).
Proof.
  intros x Hx. unfold toFixed.
  pose proof (Qabs_pos x Hx) as Ha.
  destruct (Qle_bool (inject_Z (10 ^ 21)) (Qabs x)) eqn:E.
  - right. apply Qle_bool_iff in E. rewrite Ha in E.
    split; [exact E | reflexivity].
  - left.
    assert (Hlt : x < inject_Z (10 ^ 21)).
    { destruct (Qlt_le_dec x (inject_Z (10 ^ 21))) as [H | H]; [exact H |].
      rewrite <- Ha in H. apply Qle_bool_iff in H. congruence. }
    split; [exact Hlt |].
    apply Qle_bool_iff in Hx. rewrite Hx.
    change (inject_Z (10 ^ Z.of_nat 2)) with 100.
    unfold cents. rewrite Ha. reflexivity.
Qed.

Lemma toFixed2_mono :
  forall x y, 0 <= x -> x <= y -> toFixed 2 x <= toFixed 2 y.
Proof.
  intros x y Hx Hxy.
  assert (Hy : 0 <= y) by lra.
  destruct (toFixed2_cases x Hx) as [[Lx Ex] | [Lx Ex]];
    destruct (toFixed2_cases y Hy) as [[Ly Ey] | [Ly Ey]];
    rewrite Ex, Ey.
  - apply Qmult_le_compat_r; [| apply Qlt_le_weak, inv100_pos].
    rewrite <- Zle_Qle. apply cents_mono. exact Hxy.
  - pose proof (cents_upper x) as Hu.
    assert (Hc : (cents x <= 10 ^ 23)%Z).
    { assert (H1 : inject_Z (cents x) < inject_Z (10 ^ 23 + 1)).
      { eapply Qle_lt_trans; [apply Qfloor_le |].
        change (inject_Z (10 ^ 23 + 1)) with (inject_Z (10 ^ 21) * 100 + 1).
        lra. }
      rewrite <- Zlt_Qlt in H1. lia. }
    rewrite Zle_Qle in Hc.
    change (inject_Z (10 ^ 23)) with (inject_Z (10 ^ 21) * 100) in Hc.
    apply Qle_shift_div_r; lra.
  - lra.
  - exact Hxy.
Qed.

Lemma toFixed2_strict :
  forall x y, 0 <= x -> x + (1 # 100) <= y -> toFixed 2 x < toFixed 2 y.
Proof.
  intros x y Hx Hxy.
  assert (Hy : 0 <= y) by lra.
  destruct (toFixed2_cases x Hx) as [[Lx Ex] | [Lx Ex]];
    destruct (toFixed2_cases y Hy) as [[Ly Ey] | [Ly Ey]];
    rewrite Ex, Ey.
  - apply Qmult_lt_compat_r; [apply inv100_pos |].
    rewrite <- Zlt_Qlt. pose proof (cents_step x y Hxy). lia.
  - pose proof (cents_upper x) as Hu. lra.
  - lra.
  - lra.
Qed.

(** ** The demo generators *)

Lemma demoLevels_prices :
  forall n b s i bids asks r,
    map fst (fst (fst (demoLevels b s n i bids asks r)))
    = map fst bids
      ++ map (fun k => toFixed 2 (b - s - inject_Z (Z.of_nat k) * s)) (seq i n)
    /\
    map fst (snd (fst (demoLevels b s n i bids asks r)))
    = map fst asks
      ++ map (fun k => toFixed 2 (b + s + inject_Z (Z.of_nat k) * s)) (seq i n).
Proof.
  induction n as [| n IH]; intros b s i bids asks r.
  - simpl. rewrite !app_nil_r. split; reflexivity.
  - cbn [demoLevels]. unfold bind, Math_random. cbn [draws cursor].
    match goal with
    | |- context [demoLevels b s n (S i) ?bs ?as_ ?r'] =>
        destruct (IH b s (S i) bs as_ r') as [H1 H2]
    end.
    rewrite H1, H2. unfold push. rewrite !map_app. cbn [map fst seq].
    rewrite <- !app_assoc. split; reflexivity.
Qed.

Lemma generateDemoOrderBook_prices :
  forall b now r,
    let s := b * (1 # 10000) in
    let book := fst (generateDemoOrderBook b now r) in
    map fst (bids book)
    = map (fun k => toFixed 2 (b - s - inject_Z (Z.of_nat k) * s)) (seq 0 20) /\
    map fst (asks book)
    = map (fun k => toFixed 2 (b + s + inject_Z (Z.of_nat k) * s)) (seq 0 20) /\
    lastUpdateId book = now.
Proof.
  intros b now r s book. subst book. unfold generateDemoOrderBook, bind, ret.
  fold s.
  destruct (demoLevels_prices 20 b s 0 [] [] r) as [H1 H2].
  destruct (demoLevels b s 20 0 [] [] r) as [ba r'].
  cbn [fst snd bids asks lastUpdateId] in *.
  split; [exact H1 | split; [exact H2 | reflexivity]].
Qed.

Lemma map_seq_sorted :
  forall (R : number -> number -> Prop) (f : nat -> number) (n i : nat),
    (forall j k, (i <= j)%nat -> (j < k)%nat -> (k < i + n)%nat ->
                 R (f j) (f k)) ->
    StronglySorted R (map f (seq i n)).
Proof.
  intros R f n. induction n as [| n IH]; intros i H; simpl;
    constructor.
  - apply IH. intros j k H1 H2 H3. apply H; lia.
  - apply Forall_forall. intros y Hy. apply in_map_iff in Hy.
    destruct Hy as (k & <- & Hk). apply in_seq in Hk. apply H; lia.
Qed.

Lemma sorted_by_price :
  forall (R : number -> number -> Prop) (l : list Level),
    StronglySorted R (map fst l) ->
    StronglySorted (fun x y => R (fst x) (fst y)) l.
Proof.
  intros R l. induction l as [| x l IH]; simpl; intros H; constructor;
    inversion H as [| ? ? Hs Hf]; subst.
  - apply IH. exact Hs.
  - rewrite Forall_forall in *. intros y Hy. apply Hf.
    apply in_map. exact Hy.
Qed.

(** The reals behind the level index. *)
Lemma index_order :
  forall j k, (j < k)%nat -> (k < 20)%nat ->
    0 <= inject_Z (Z.of_nat j) /\
    inject_Z (Z.of_nat j) + 1 <= inject_Z (Z.of_nat k) /\
    inject_Z (Z.of_nat k) <= 19.
Proof.
  intros j k H1 H2. repeat split.
  - change 0 with (inject_Z 0). rewrite <- Zle_Qle. lia.
  - change 1 with (inject_Z 1). rewrite <- inject_Z_plus, <- Zle_Qle. lia.
  - change 19 with (inject_Z 19). rewrite <- Zle_Qle. lia.
Qed.

Lemma index_bound :
  forall k, (k < 20)%nat ->
    0 <= inject_Z (Z.of_nat k) /\ inject_Z (Z.of_nat k) <= 19.
Proof.
  intros k H. split.
  - change 0 with (inject_Z 0). rewrite <- Zle_Qle. lia.
  - change 19 with (inject_Z 19). rewrite <- Zle_Qle. lia.
Qed.

Lemma demo_sides_ordered :
  forall b now r,
    0 <= b ->
    descending (bids (fst (generateDemoOrderBook b now r))) /\
    ascending (asks (fst (generateDemoOrderBook b now r))).
Proof.
  intros b now r Hb.
  destruct (generateDemoOrderBook_prices b now r) as (E1 & E2 & _).
  split.
  - apply (sorted_by_price (fun p q => q <= p)). rewrite E1.
    apply map_seq_sorted. intros j k _ Hjk Hk.
    destruct (index_order j k Hjk) as (Hj & Hs & Hu); [lia |].
    apply toFixed2_mono; nra.
  - apply (sorted_by_price (fun p q => p <= q)). rewrite E2.
    apply map_seq_sorted. intros j k _ Hjk Hk.
    destruct (index_order j k Hjk) as (Hj & Hs & Hu); [lia |].
    apply toFixed2_mono; nra.
Qed.

Lemma demo_sides_strictly_ordered :
  forall b now r,
    100 <= b ->
    strictly_descending (bids (fst (generateDemoOrderBook b now r))) /\
    strictly_ascending (asks (fst (generateDemoOrderBook b now r))).
Proof.
  intros b now r Hb.
  destruct (generateDemoOrderBook_prices b now r) as (E1 & E2 & _).
  split.
  - apply (sorted_by_price (fun p q => q < p)). rewrite E1.
    apply map_seq_sorted. intros j k _ Hjk Hk.
    destruct (index_order j k Hjk) as (Hj & Hs & Hu); [lia |].
    apply toFixed2_strict; nra.
  - apply (sorted_by_price (fun p q => p < q)). rewrite E2.
    apply map_seq_sorted. intros j k _ Hjk Hk.
    destruct (index_order j k Hjk) as (Hj & Hs & Hu); [lia |].
    apply toFixed2_strict; nra.
Qed.

Lemma demo_sides_length :
  forall b now r,
    List.length (bids (fst (generateDemoOrderBook b now r))) = 20%nat /\
    List.length (asks (fst (generateDemoOrderBook b now r))) = 20%nat.
Proof.
  intros b now r.
  destruct (generateDemoOrderBook_prices b now r) as (E1 & E2 & _).
  apply (f_equal (@List.length number)) in E1, E2.
  rewrite !length_map, length_seq in E1, E2. split; assumption.
Qed.

Lemma demo_spread_positive :
  forall b now r,
    50 <= b ->
    forall bid ask,
      In bid (bids (fst (generateDemoOrderBook b now r))) ->
      In ask (asks (fst (generateDemoOrderBook b now r))) ->
      fst bid < fst ask.
Proof.
  intros b now r Hb bid ask Hbid Hask.
  destruct (generateDemoOrderBook_prices b now r) as (E1 & E2 & _).
  apply (in_map fst) in Hbid, Hask. rewrite E1 in Hbid. rewrite E2 in Hask.
  apply in_map_iff in Hbid, Hask.
  destruct Hbid as (k & <- & Hk). destruct Hask as (j & <- & Hj).
  apply in_seq in Hk, Hj.
  destruct (index_bound k) as (K0 & K1); [lia |].
  destruct (index_bound j) as (J0 & J1); [lia |].
  apply toFixed2_strict; nra.
Qed.

Lemma demoLevels_agree :
  forall n b s i bids asks r1 r2,
    agree (2 * n) r1 r2 ->
    fst (demoLevels b s n i bids asks r1) = fst (demoLevels b s n i bids asks r2).
Proof.
  induction n as [| n IH]; intros b s i bids asks r1 r2 H; [reflexivity |].
  cbn [demoLevels]. unfold bind, Math_random. cbn [draws cursor].
  pose proof (H 0%nat ltac:(lia)) as H0.
  pose proof (H 1%nat ltac:(lia)) as H1.
  rewrite !Nat.add_0_r in H0. rewrite !Nat.add_1_r in H1.
  rewrite H0, H1. apply IH.
  intros k Hk. cbn [draws cursor].
  specialize (H (S (S k)) ltac:(lia)).
  rewrite <- !plus_n_Sm in H. exact H.
Qed.

(** ** The order book after each operation *)

Lemma depth_update_result :
  forall ob data s,
    data_e data = "depthUpdate"%string ->
    processOrderBookUpdate (Some ob) Binance data s
    = Ok (setOrderBook
            (mkOrderBook
               (sort (fun a b => fst b - fst a)
                  (fold_left applyBid (data_b data) (bids ob)))
               (sort (fun a b => fst a - fst b) (asks ob))
               (lastUpdateId ob)) s).
Proof.
  intros ob data s H. unfold processOrderBookUpdate. rewrite H. reflexivity.
Qed.

(** The ask levels of the message play no part in the outcome. *)
Lemma depth_update_ignores_asks :
  forall ob p data a' s,
    processOrderBookUpdate ob p
      (mkMessage (data_e data) (data_b data) a' (data_t data) (data_p data)
         (data_q data) (data_T data) (data_m data)) s
    = processOrderBookUpdate ob p data s.
Proof. reflexivity. Qed.

(** The bid side of a depth update does what the message says: a price
    sent with size 0 only is absent afterwards, and the level sent last
    with another size is present. *)
Lemma depth_update_bids :
  forall ob data s,
    data_e data = "depthUpdate"%string ->
    exists nb,
      processOrderBookUpdate (Some ob) Binance data s = Ok (setOrderBook nb s) /\
      (forall q,
          (exists u, In u (data_b data) /\ parseFloat (fst u) == q) ->
          (forall u, In u (data_b data) ->
                     parseFloat (fst u) == q -> parseFloat (snd u) == 0) ->
          forall x, In x (bids nb) -> ~ fst x == q) /\
      (forall us price amount,
          data_b data = us ++ [(price, amount)] ->
          ~ parseFloat amount == 0 ->
          In (parseFloat price, parseFloat amount) (bids nb)).
Proof.
  intros ob data s H. eexists. split; [apply depth_update_result; exact H |].
  cbn [bids]. split.
  - intros q Hex Hall x Hx. apply sort_In in Hx.
    apply (fold_applyBid_zero_removes _ _ q Hex Hall x Hx).
  - intros us price amount E Hnz. apply sort_In.
    rewrite E, fold_left_app. cbn [fold_left].
    apply applyBid_nonzero_present. exact Hnz.
Qed.

Lemma depth_update_order :
  forall ob data s,
    data_e data = "depthUpdate"%string ->
    exists nb,
      processOrderBookUpdate (Some ob) Binance data s
      = Ok (setOrderBook nb s) /\
      descending (bids nb) /\ ascending (asks nb) /\
      (distinct_prices (bids ob) -> strictly_descending (bids nb)) /\
      (distinct_prices (asks ob) -> strictly_ascending (asks nb)).
Proof.
  intros ob data s H.
  exists (mkOrderBook
            (sort (fun a b => fst b - fst a)
               (fold_left applyBid (data_b data) (bids ob)))
            (sort (fun a b => fst a - fst b) (asks ob))
            (lastUpdateId ob)).
  split; [apply depth_update_result; exact H |].
  split; [apply sort_bids_descending |].
  split; [apply sort_asks_ascending |].
  split; intros Hd.
  - apply descending_distinct_strict; [apply sort_bids_descending |].
    apply sort_distinct, fold_applyBid_distinct. exact Hd.
  - apply ascending_distinct_strict; [apply sort_asks_ascending |].
    apply sort_distinct. exact Hd.
Qed.

Lemma snapshot_positions :
  forall snapshot i,
    nth_error (bids (processedSnapshot snapshot)) i
    = option_map (fun pa => (parseFloat (fst pa), parseFloat (snd pa)))
        (nth_error (snap_bids snapshot) i) /\
    nth_error (asks (processedSnapshot snapshot)) i
    = option_map (fun pa => (parseFloat (fst pa), parseFloat (snd pa)))
        (nth_error (snap_asks snapshot) i).
Proof.
  intros snapshot i. unfold processedSnapshot. cbn [bids asks].
  split; apply nth_error_map.
Qed.

(** C2, as the code has it.  A depth update sorts both sides: bids come out
    in descending and asks in ascending price order, strictly so on a side
    whose prices were pairwise distinct before.  The demo generator emits
    its levels in loop order: for a base price of at least 0 bid prices
    never increase and ask prices never decrease, and from a base price of
    100 on (one spread is then at least one cent) they are strictly
    ordered.  Snapshot ingestion sorts nothing: level [i] of a side of the
    book is level [i] of that side of the snapshot, parsed. *)
Theorem book_order_by_operation :
  (forall ob data s,
      data_e data = "depthUpdate"%string ->
      exists nb,
        processOrderBookUpdate (Some ob) Binance data s
        = Ok (setOrderBook nb s) /\
        descending (bids nb) /\ ascending (asks nb) /\
        (distinct_prices (bids ob) -> strictly_descending (bids nb)) /\
        (distinct_prices (asks ob) -> strictly_ascending (asks nb))) /\
  (forall b now r,
      0 <= b ->
      descending (bids (fst (generateDemoOrderBook b now r))) /\
      ascending (asks (fst (generateDemoOrderBook b now r)))) /\
  (forall b now r,
      100 <= b ->
      book_sorted (fst (generateDemoOrderBook b now r))) /\
  (forall snapshot i,
      nth_error (bids (processedSnapshot snapshot)) i
      = option_map (fun pa => (parseFloat (fst pa), parseFloat (snd pa)))
          (nth_error (snap_bids snapshot) i) /\
      nth_error (asks (processedSnapshot snapshot)) i
      = option_map (fun pa => (parseFloat (fst pa), parseFloat (snd pa)))
          (nth_error (snap_asks snapshot) i)).
Proof.
  split; [exact depth_update_order |].
  split; [exact demo_sides_ordered |].
  split; [exact demo_sides_strictly_ordered |].
  exact snapshot_positions.
Qed.

(** C7, as the code has it.  No operation compares the new identifier with
    the old one.  A depth update copies the identifier of the book it
    started from, so it stays equal; the demo generator stamps the book
    with the clock reading; a loaded snapshot carries the identifier the
    exchange sent. *)
Theorem lastUpdateId_by_operation :
  (forall ob data s,
      data_e data = "depthUpdate"%string ->
      exists nb,
        processOrderBookUpdate (Some ob) Binance data s
        = Ok (setOrderBook nb s) /\
        lastUpdateId nb = lastUpdateId ob) /\
  (forall b now r, lastUpdateId (fst (generateDemoOrderBook b now r)) = now) /\
  (forall snapshot,
      lastUpdateId (processedSnapshot snapshot) = snap_lastUpdateId snapshot).
Proof.
  split; [| split].
  - intros ob data s H. eexists.
    split; [apply depth_update_result; exact H | reflexivity].
  - intros b now r. apply generateDemoOrderBook_prices.
  - intros snapshot. reflexivity.
Qed.

(** C9, as the code has it.  The demo book has exactly 20 bid and 20 ask
    levels whatever the base price.  Every bid price is below every ask
    price when the base price is at least 50: two spreads then make at
    least one cent, the step [toFixed(2)] rounds to. *)
Theorem demo_book_shape :
  forall b now r,
    (List.length (bids (fst (generateDemoOrderBook b now r))) = 20%nat /\
     List.length (asks (fst (generateDemoOrderBook b now r))) = 20%nat) /\
    (50 <= b ->
     forall bid ask,
       In bid (bids (fst (generateDemoOrderBook b now r))) ->
       In ask (asks (fst (generateDemoOrderBook b now r))) ->
       fst bid < fst ask).
Proof.
  intros b now r. split.
  - apply demo_sides_length.
  - apply demo_spread_positive.
Qed.

(** C5, as the code has it.  The generators read the clock besides the
    random stream.  With the same base price and the same clock reading,
    two streams that give the same next 40 draws yield the same order book,
    and two that give the same next 3 draws yield the same trade for the
    same counter value. *)
Theorem demo_generation_determined :
  (forall b now r1 r2,
      agree 40 r1 r2 ->
      fst (generateDemoOrderBook b now r1) = fst (generateDemoOrderBook b now r2)) /\
  (forall b n now r1 r2,
      agree 3 r1 r2 ->
      fst (generateDemoTrade b n now r1) = fst (generateDemoTrade b n now r2)).
Proof.
  split.
  - intros b now r1 r2 H. unfold generateDemoOrderBook, bind, ret.
    pose proof (demoLevels_agree 20 b (b * (1 # 10000)) 0 [] [] r1 r2 H) as E.
    destruct (demoLevels b (b * (1 # 10000)) 20 0 [] [] r1) as [ba1 r1'].
    destruct (demoLevels b (b * (1 # 10000)) 20 0 [] [] r2) as [ba2 r2'].
    cbn [fst] in *. rewrite E. reflexivity.
  - intros b n now r1 r2 H.
    unfold generateDemoTrade, bind, ret, Math_random. cbn [fst draws cursor].
    pose proof (H 0%nat ltac:(lia)) as H0.
    pose proof (H 1%nat ltac:(lia)) as H1.
    pose proof (H 2%nat ltac:(lia)) as H2.
    rewrite !Nat.add_0_r in H0. rewrite !Nat.add_1_r in H1.
    replace (cursor r1 + 2)%nat with (S (S (cursor r1))) in H2 by lia.
    replace (cursor r2 + 2)%nat with (S (S (cursor r2))) in H2 by lia.
    rewrite H0, H1, H2. reflexivity.
Qed.

(** ** Market hours *)

(** X1.  On a weekday the market counts as open from 9:30 up to, but not
    including, 16:00; on Saturday and Sunday never. *)
Theorem market_hours_window :
  forall day hours minutes,
    (0 <= day <= 6)%Z -> (0 <= minutes <= 59)%Z ->
    (isStockMarketOpen day hours minutes = true <->
     (1 <= day <= 5)%Z /\
     ((hours = 9 /\ 30 <= minutes)%Z \/ (10 <= hours <= 15)%Z)).
Proof.
  intros day hours minutes Hd Hm. unfold isStockMarketOpen.
  destruct (Z.eqb_spec day 0) as [E0 | E0];
    destruct (Z.eqb_spec day 6) as [E6 | E6]; cbn [orb];
    try (split; [discriminate | lia]).
  rewrite andb_true_iff, Z.leb_le, Z.ltb_lt. lia.
Qed.

(** ** More on the demo generators *)

Lemma demoBasePrice_cases :
  forall sym,
    100 <= demoBasePrice sym /\
    (lookup sym DEMO_PRICES = None -> demoBasePrice sym = 100).
Proof.
  intros sym. unfold demoBasePrice, DEMO_PRICES. cbn [lookup].
  repeat match goal with
         | |- context [String.eqb sym ?k] => destruct (String.eqb sym k)
         end;
    (split; [vm_compute; discriminate | intros H; try discriminate H; reflexivity]).
Qed.

Lemma draw_rendered :
  forall (A : Type) (m : Rand A) (w w' : World) (a : A),
    draw m w = (a, w') -> rendered w' = rendered w.
Proof.
  intros A m w w' a H. unfold draw in H.
  destruct (m (rng (host w))) as [a0 r]. inversion H. reflexivity.
Qed.

Lemma draw_Math_random :
  forall w,
    draw Math_random w
    = (draws (rng (host w)) (cursor (rng (host w))),
       on_host (set_rng (mkRNG (draws (rng (host w)))
                           (S (cursor (rng (host w)))))) w).
Proof. reflexivity. Qed.

(** What one tick of the demo interval leaves behind. *)
Lemma demoTick_spec :
  forall b w,
    let r := draws (rng (host w)) (cursor (rng (host w))) in
    let currentPrice := b + (r - (1 # 2)) * b * (1 # 1000) in
    exists book newTrade,
      book = fst (generateDemoOrderBook currentPrice (clock (host w))
                    (mkRNG (draws (rng (host w))) (S (cursor (rng (host w)))))) /\
      react (demoTick b w)
      = setMarketData
          (option_map (fun prev =>
             mkMarketData (md_symbol prev) currentPrice (currentPrice - b)
               ((currentPrice - b) / b * 100)
               (volume prev) (high prev) (low prev) (marketCap prev)))
          (setTrades (prependTrade newTrade) (setOrderBook book (react w))) /\
      refs (demoTick b w) = set_tradeCounter (S (tradeCounter (refs w))) (refs w) /\
      timers (host (demoTick b w)) = timers (host w) /\
      sockets (host (demoTick b w)) = sockets (host w) /\
      rendered (demoTick b w) = rendered w.
Proof.
  intros b w r currentPrice. unfold demoTick.
  rewrite draw_Math_random. fold r. fold currentPrice.
  set (w1 := on_host (set_rng _) w).
  destruct (draw (generateDemoOrderBook _ _) w1) as [book w2] eqn:E2.
  destruct (draw (generateDemoTrade _ _ _) _) as [newTrade w4] eqn:E4.
  exists book, newTrade.
  pose proof (draw_fst _ _ _ _ _ E2) as B2.
  pose proof (draw_react _ _ _ _ _ E2) as R2.
  pose proof (draw_refs _ _ _ _ _ E2) as F2.
  pose proof (draw_host _ _ _ _ _ E2) as (S2 & T2 & _).
  pose proof (draw_rendered _ _ _ _ _ E2) as D2.
  pose proof (draw_react _ _ _ _ _ E4) as R4.
  pose proof (draw_refs _ _ _ _ _ E4) as F4.
  pose proof (draw_host _ _ _ _ _ E4) as (S4 & T4 & _).
  pose proof (draw_rendered _ _ _ _ _ E4) as D4.
  clear E2 E4.
  cbn [react refs host rendered on_react on_refs on_host timers sockets].
  cbn [react refs host rendered on_react on_refs on_host timers sockets]
    in R4, F4, S4, T4, D4.
  rewrite R4, R2, F4, F2, T4, T2, S4, S2, D4, D2.
  split; [exact B2 |].
  subst w1. cbn [react refs host rendered on_react on_refs on_host timers
                 sockets set_rng].
  repeat (split; [reflexivity |]). reflexivity.
Qed.

Lemma currentPrice_bounds :
  forall b r,
    0 <= b -> 0 <= r -> r < 1 ->
    b * (1999 # 2000) <= b + (r - (1 # 2)) * b * (1 # 1000) /\
    b + (r - (1 # 2)) * b * (1 # 1000) <= b * (2001 # 2000).
Proof. intros b r Hb H0 H1. split; nra. Qed.

Lemma no_lower_not_inherited :
  forall symbol, no_lower symbol -> inherited symbol = false.
Proof.
  intros symbol H. destruct (inherited symbol) eqn:E; [| reflexivity].
  exfalso. unfold inherited in E. apply existsb_exists in E.
  destruct E as (n & Hin & Heq). apply String.eqb_eq in Heq. subst n.
  unfold Object_prototype_names in Hin. cbn [In] in Hin.
  repeat (destruct Hin as [<- | Hin];
          [vm_compute in H; decompose [and] H; congruence |]).
  exact Hin.
Qed.

(** X2.  For every symbol that is not a name [DEMO_PRICES] inherits, and
    so for every symbol without a lower-case letter, [connectDemo]
    installs a book priced around a base of at least 100 (the table price,
    or 100 for a symbol the table lacks): 20 levels a side in strict price
    order, every bid below every ask, stamped with the clock reading. *)
Theorem connectDemo_book :
  forall c w,
    (no_lower (c_symbol c) -> inherited (c_symbol c) = false) /\
    (inherited (c_symbol c) = false ->
     (100 <= demoBasePrice (c_symbol c) /\
      (lookup (c_symbol c) DEMO_PRICES = None ->
       demoBasePrice (c_symbol c) = 100)) /\
     exists book,
       orderBook (react (connectDemo c w)) = Some book /\
       book_sorted book /\ positive_spread book /\
       List.length (bids book) = 20%nat /\ List.length (asks book) = 20%nat /\
       lastUpdateId book = clock (host w)).
Proof.
  intros c w. split; [apply no_lower_not_inherited |]. intros _.
  destruct (demoBasePrice_cases (c_symbol c)) as [Hb Hn].
  split; [split; assumption |].
  destruct (connectDemo_spec c w) as (book & md & Hr & E & _).
  exists book. rewrite Hr. split; [reflexivity |]. subst book.
  split; [exact (demo_sides_strictly_ordered _ _ _ Hb) |].
  split; [unfold positive_spread; apply demo_spread_positive; lra |].
  destruct (demo_sides_length (demoBasePrice (c_symbol c)) (clock (host w))
              (rng (host w))) as [L1 L2].
  split; [exact L1 | split; [exact L2 |]].
  apply generateDemoOrderBook_prices.
Qed.

(** X3.  A tick of a demo interval whose base price is at least 100, on a
    draw from [[0, 1)], replaces the book by one with 20 levels a side,
    bids in descending and asks in ascending price order, and every bid
    below every ask. *)
Theorem demoTick_book :
  forall b w,
    100 <= b ->
    0 <= draws (rng (host w)) (cursor (rng (host w))) ->
    draws (rng (host w)) (cursor (rng (host w))) < 1 ->
    exists book,
      orderBook (react (demoTick b w)) = Some book /\
      positive_spread book /\
      descending (bids book) /\ ascending (asks book) /\
      List.length (bids book) = 20%nat /\ List.length (asks book) = 20%nat.
Proof.
  intros b w Hb H0 H1.
  destruct (demoTick_spec b w) as (book & newTrade & E & Hr & _).
  destruct (currentPrice_bounds b _ ltac:(lra) H0 H1) as [Hlo _].
  exists book. rewrite Hr. split; [reflexivity |]. subst book.
  split; [unfold positive_spread; apply demo_spread_positive; lra |].
  match goal with
  | |- context [generateDemoOrderBook ?p ?n ?r] =>
      destruct (demo_sides_ordered p n r) as [D A]; [lra |];
      destruct (demo_sides_length p n r) as [L1 L2]
  end.
  split; [exact D | split; [exact A | split; [exact L1 | exact L2]]].
Qed.

Lemma cents_lower : forall x, x - (1 # 200) <= inject_Z (cents x) / 100.
Proof.
  intros x. unfold cents.
  pose proof (Qlt_floor (x * 100 + (1 # 2))) as H1.
  rewrite inject_Z_plus in H1. change (inject_Z 1) with 1 in H1.
  apply Qle_shift_div_l; lra.
Qed.

Lemma toFixed2_near :
  forall x, 0 <= x ->
    x - (1 # 200) <= toFixed 2 x /\ toFixed 2 x <= x + (1 # 200).
Proof.
  intros x Hx.
  destruct (toFixed2_cases x Hx) as [[_ E] | [_ E]]; rewrite E.
  - split; [apply cents_lower | apply cents_upper].
  - split; lra.
Qed.

Lemma toFixed2_zero : toFixed 2 0 == 0.
Proof. reflexivity. Qed.

Lemma toFixed2_range :
  forall x m,
    0 <= x -> x <= m -> toFixed 2 m == m ->
    0 <= toFixed 2 x /\ toFixed 2 x <= m.
Proof.
  intros x m H0 Hm E. split.
  - rewrite <- toFixed2_zero. apply toFixed2_mono; lra.
  - rewrite <- E. apply toFixed2_mono; assumption.
Qed.

Lemma demoLevels_bounds :
  forall n b s i bids asks r,
    unit_draws r ->
    Forall (fun x : Level => 0 <= snd x /\ snd x <= 1000) bids ->
    Forall (fun x : Level => 0 <= snd x /\ snd x <= 1000) asks ->
    Forall (fun x : Level => 0 <= snd x /\ snd x <= 1000)
      (fst (fst (demoLevels b s n i bids asks r))) /\
    Forall (fun x : Level => 0 <= snd x /\ snd x <= 1000)
      (snd (fst (demoLevels b s n i bids asks r))).
Proof.
  induction n as [| n IH]; intros b s i bids asks r Hr Hb Ha.
  - split; assumption.
  - cbn [demoLevels]. unfold bind, Math_random. cbn [draws cursor].
    destruct (Hr (cursor r)) as [A0 A1].
    destruct (Hr (S (cursor r))) as [B0 B1].
    apply IH.
    + intros k. apply Hr.
    + unfold push. apply Forall_app. split; [exact Hb |].
      constructor; [| constructor]. cbn [snd].
      apply toFixed2_range; [nra | nra | reflexivity].
    + unfold push. apply Forall_app. split; [exact Ha |].
      constructor; [| constructor]. cbn [snd].
      apply toFixed2_range; [nra | nra | reflexivity].
Qed.

Lemma generateDemoOrderBook_sides :
  forall b now r,
    bids (fst (generateDemoOrderBook b now r))
    = fst (fst (demoLevels b (b * (1 # 10000)) 20 0 [] [] r)) /\
    asks (fst (generateDemoOrderBook b now r))
    = snd (fst (demoLevels b (b * (1 # 10000)) 20 0 [] [] r)).
Proof.
  intros b now r. unfold generateDemoOrderBook, bind, ret.
  destruct (demoLevels b (b * (1 # 10000)) 20 0 [] [] r) as [ba r'].
  split; reflexivity.
Qed.

(** X4.  With draws from [[0, 1)] every size the demo generator emits lies
    between 0 and 1000, on both sides; with a base price that is not
    negative no generated price is negative. *)
Theorem demo_levels_in_range :
  forall b now r,
    unit_draws r ->
    let book := fst (generateDemoOrderBook b now r) in
    Forall (fun x : Level => 0 <= snd x /\ snd x <= 1000) (bids book) /\
    Forall (fun x : Level => 0 <= snd x /\ snd x <= 1000) (asks book) /\
    (0 <= b ->
     Forall (fun x : Level => 0 <= fst x) (bids book) /\
     Forall (fun x : Level => 0 <= fst x) (asks book)).
Proof.
  intros b now r Hr book. subst book.
  destruct (generateDemoOrderBook_prices b now r) as (E1 & E2 & _).
  destruct (generateDemoOrderBook_sides b now r) as [G1 G2].
  pose proof (demoLevels_bounds 20 b (b * (1 # 10000)) 0 [] [] r Hr
                (Forall_nil _) (Forall_nil _)) as [S1 S2].
  rewrite <- G1 in S1. rewrite <- G2 in S2.
  split; [exact S1 | split; [exact S2 |]].
  intros Hb. split; apply Forall_forall; intros x Hx; apply (in_map fst) in Hx.
  - rewrite E1 in Hx. apply in_map_iff in Hx. destruct Hx as (k & <- & Hk).
    apply in_seq in Hk. destruct (index_bound k) as [K0 K1]; [lia |].
    rewrite <- toFixed2_zero. apply toFixed2_mono; nra.
  - rewrite E2 in Hx. apply in_map_iff in Hx. destruct Hx as (k & <- & Hk).
    apply in_seq in Hk. destruct (index_bound k) as [K0 K1]; [lia |].
    rewrite <- toFixed2_zero. apply toFixed2_mono; nra.
Qed.

(** X5.  With draws from [[0, 1)] and a base price that is not negative,
    a demo trade is priced within half a per mille of the base price, up
    to half a cent of rounding, its size lies between 0 and 100, it is
    named after the counter and stamped with the clock reading. *)
Theorem demo_trade_in_range :
  forall b n now r,
    unit_draws r -> 0 <= b ->
    let t := fst (generateDemoTrade b n now r) in
    b * (1999 # 2000) - (1 # 200) <= price t /\
    price t <= b * (2001 # 2000) + (1 # 200) /\
    0 <= amount t /\ amount t <= 100 /\
    id t = ("trade-" ++ nat_toString n)%string /\
    time t = now.
Proof.
  intros b n now r Hr Hb t. subst t.
  unfold generateDemoTrade, bind, ret, Math_random.
  cbn [fst draws cursor price amount id time].
  destruct (Hr (cursor r)) as [A0 A1].
  destruct (Hr (S (cursor r))) as [B0 B1].
  match goal with
  | |- context [toFixed 2 (b + ?d)] =>
      destruct (toFixed2_near (b + d)) as [N0 N1]; [nra |]
  end.
  destruct (toFixed2_range (draws r (S (cursor r)) * 100) 100) as [R0 R1];
    [nra | nra | reflexivity |].
  split; [nra | split; [nra |]].
  split; [exact R0 | split; [exact R1 |]].
  split; reflexivity.
Qed.

Lemma demoMarketData_summary :
  forall sym a b r,
    let md := fst (demoMarketData sym a b r) in
    md_symbol md = sym /\ md_price md = b /\
    high md = b * (102 # 100) /\ low md = b * (98 # 100).
Proof.
  intros sym a b r md. subst md.
  unfold demoMarketData, bind, ret, Math_random.
  destruct a; cbn [fst draws cursor md_symbol md_price high low];
    repeat split.
Qed.

Lemma connectDemo_marketData :
  forall c w,
    exists md,
      marketData (react (connectDemo c w)) = Some md /\
      md_symbol md = c_symbol c /\
      md_price md = demoBasePrice (c_symbol c) /\
      high md = demoBasePrice (c_symbol c) * (102 # 100) /\
      low md = demoBasePrice (c_symbol c) * (98 # 100).
Proof.
  intros c w. unfold connectDemo.
  destruct (draw (generateDemoOrderBook _ _) _) as [book w2] eqn:E2.
  destruct (draw (demoMarketData _ _ _) _) as [md w4] eqn:E4.
  exists md.
  pose proof (draw_fst _ _ _ _ _ E4) as M4.
  pose proof (draw_react _ _ _ _ _ E4) as R4.
  clear E2 E4. unfold setTimer.
  cbn [react on_react on_refs on_host fst snd].
  split; [reflexivity |]. rewrite M4.
  apply demoMarketData_summary.
Qed.

(** X6.  The market summary keeps its price between its low and its high.
    [connectDemo] stores a summary for the symbol whose price is the base
    price, with the high 2 per cent above and the low 2 per cent below; a
    tick of the interval with that base price, on a draw from [[0, 1)],
    keeps symbol, high and low and moves the price to the drawn price,
    which stays between them. *)
Theorem market_summary_within_range :
  (forall c w,
      exists md,
        marketData (react (connectDemo c w)) = Some md /\
        md_symbol md = c_symbol c /\
        summary_of (demoBasePrice (c_symbol c)) md /\
        low md <= md_price md /\ md_price md <= high md) /\
  (forall b w md,
      0 <= b ->
      marketData (react w) = Some md -> summary_of b md ->
      0 <= draws (rng (host w)) (cursor (rng (host w))) ->
      draws (rng (host w)) (cursor (rng (host w))) < 1 ->
      exists md',
        marketData (react (demoTick b w)) = Some md' /\
        md_symbol md' = md_symbol md /\
        summary_of b md' /\
        low md' <= md_price md' /\ md_price md' <= high md').
Proof.
  split.
  - intros c w.
    destruct (connectDemo_marketData c w) as (md & E & Hs & Hp & Hh & Hl).
    destruct (demoBasePrice_cases (c_symbol c)) as [Hb _].
    exists md. split; [exact E | split; [exact Hs |]].
    unfold summary_of. rewrite Hh, Hl, Hp.
    split; [split; reflexivity |]. split; lra.
  - intros b w md Hb E [Hh Hl] H0 H1.
    destruct (demoTick_spec b w) as (book & newTrade & _ & Hr & _).
    destruct (currentPrice_bounds b _ Hb H0 H1) as [Hlo Hhi].
    eexists. rewrite Hr.
    cbn [marketData setMarketData setTrades setOrderBook].
    rewrite E. cbn [option_map].
    split; [reflexivity |].
    cbn [md_symbol md_price high low]. unfold summary_of.
    cbn [md_symbol md_price high low].
    split; [reflexivity |]. split; [split; assumption |].
    rewrite Hh, Hl. split; lra.
Qed.

(** ** What every reachable state satisfies *)

Lemma nth_error_array_set :
  forall (A : Type) (l : list A) (i j : nat) (v x : A),
    nth_error (array_set l i v) j = Some x ->
    (j = i /\ x = v /\ exists y, nth_error l i = Some y) \/
    (j <> i /\ nth_error l j = Some x).
Proof.
  intros A l. induction l as [| y l IH]; intros [| i] [| j] v x H;
    cbn [array_set nth_error] in *; try discriminate H.
  - left. inversion H. split; [reflexivity | split; [reflexivity |]].
    exists y. reflexivity.
  - right. split; [lia | exact H].
  - right. split; [lia | exact H].
  - destruct (IH i j v x H) as [(E1 & E2 & E3) | (E1 & E2)].
    + left. split; [lia | split; assumption].
    + right. split; [lia | exact E2].
Qed.

Lemma nth_error_push :
  forall (A : Type) (l : list A) (v x : A) (j : nat),
    nth_error (push l v) j = Some x ->
    nth_error l j = Some x \/ (j = List.length l /\ x = v).
Proof.
  intros A l v x j H. unfold push in H.
  destruct (Nat.lt_ge_cases j (List.length l)) as [Hlt | Hge].
  - left. rewrite nth_error_app1 in H by exact Hlt. exact H.
  - right. rewrite nth_error_app2 in H by exact Hge.
    destruct (j - List.length l)%nat as [| k] eqn:E; cbn [nth_error] in H.
    + inversion H. split; [lia | reflexivity].
    + destruct k; discriminate H.
Qed.

Lemma Forall_nth_error :
  forall (A : Type) (P : A -> Prop) (l : list A),
    Forall P l <-> (forall j x, nth_error l j = Some x -> P x).
Proof.
  intros A P l. rewrite Forall_forall. split; intros H.
  - intros j x Hj. apply H. eapply nth_error_In. exact Hj.
  - intros x Hx. apply In_nth_error in Hx. destruct Hx as [j Hj].
    apply (H j x Hj).
Qed.

Lemma clear_at_nth :
  forall i ts j tm,
    nth_error (clear_at i ts) j = Some tm ->
    exists tm0,
      nth_error ts j = Some tm0 /\ kind tm = kind tm0 /\
      (active tm = true -> active tm0 = true /\ j <> i).
Proof.
  intros i ts j tm H. unfold clear_at in H.
  destruct (nth_error ts i) as [t |] eqn:E.
  - apply nth_error_array_set in H.
    destruct H as [(-> & -> & _) | (Hne & H)].
    + exists t. split; [exact E | split; [reflexivity |]].
      cbn [active]. discriminate.
    + exists tm. split; [exact H | split; [reflexivity |]]. tauto.
  - exists tm. split; [exact H | split; [reflexivity |]].
    intros Ha. split; [exact Ha |]. congruence.
Qed.

Lemma demo_running_kind :
  forall tm tm0,
    kind tm = kind tm0 -> demo_running tm = true ->
    active tm = true /\ (active tm0 = true -> demo_running tm0 = true).
Proof.
  intros tm tm0 E H. unfold demo_running in *. rewrite <- E.
  destruct (kind tm); [| discriminate H]. tauto.
Qed.

Lemma tracked_clear :
  forall i ts d, tracked ts d -> tracked (clear_at i ts) d.
Proof.
  intros i ts d H t tm Ht Hr.
  destruct (clear_at_nth _ _ _ _ Ht) as (tm0 & E0 & Ek & Ha).
  destruct (demo_running_kind _ _ Ek Hr) as [A1 A2].
  apply (H t tm0 E0). apply A2. apply Ha. exact A1.
Qed.

Lemma tracked_clear_ref :
  forall ts d,
    tracked ts d ->
    no_demo (match d with Some i => clear_at i ts | None => ts end).
Proof.
  intros ts [i |] H t tm Ht; destruct (demo_running tm) eqn:Hr;
    try reflexivity; exfalso.
  - destruct (clear_at_nth _ _ _ _ Ht) as (tm0 & E0 & Ek & Ha).
    destruct (demo_running_kind _ _ Ek Hr) as [A1 A2].
    destruct (Ha A1) as [A3 Hne].
    specialize (H t tm0 E0 (A2 A3)). congruence.
  - specialize (H t tm Ht Hr). discriminate H.
Qed.

Lemma no_demo_tracked : forall ts d, no_demo ts -> tracked ts d.
Proof.
  intros ts d H t tm Ht Hr. rewrite (H t tm Ht) in Hr. discriminate Hr.
Qed.

Lemma no_demo_filter :
  forall ts, no_demo ts -> filter demo_running ts = [].
Proof.
  intros ts H. induction ts as [| x ts IH]; [reflexivity |].
  cbn [filter]. rewrite (H 0%nat x eq_refl).
  apply IH. intros t tm Ht. apply (H (S t) tm Ht).
Qed.

Lemma tracked_at_most_one :
  forall ts d,
    tracked ts d -> (List.length (filter demo_running ts) <= 1)%nat.
Proof.
  induction ts as [| x ts IH]; intros d H; cbn [filter]; [cbn; lia |].
  destruct (demo_running x) eqn:Hx.
  - rewrite no_demo_filter; [cbn; lia |].
    intros t tm Ht. destruct (demo_running tm) eqn:Hr; [| reflexivity].
    pose proof (H 0%nat x eq_refl Hx) as E0.
    pose proof (H (S t) tm Ht Hr) as E1. congruence.
  - apply (IH (option_map pred d)).
    intros t tm Ht Hr. rewrite (H (S t) tm Ht Hr). reflexivity.
Qed.

Lemma tracked_push_demo :
  forall ts b,
    no_demo ts ->
    tracked (push ts (mkTimer (DemoTick b) true)) (Some (List.length ts)).
Proof.
  intros ts b H t tm Ht Hr. apply nth_error_push in Ht.
  destruct Ht as [Ht | [-> _]]; [| reflexivity].
  rewrite (H t tm Ht) in Hr. discriminate Hr.
Qed.

Lemma tracked_push_reconnect :
  forall ts d c,
    tracked ts d -> tracked (push ts (mkTimer (ReconnectTimer c) true)) d.
Proof.
  intros ts d c H t tm Ht Hr. apply nth_error_push in Ht.
  destruct Ht as [Ht | [_ ->]]; [apply (H t tm Ht Hr) | discriminate Hr].
Qed.

Lemma timer_ok_clear :
  forall i ts, Forall timer_ok ts -> Forall timer_ok (clear_at i ts).
Proof.
  intros i ts H. rewrite Forall_nth_error in *. intros j tm Hj.
  destruct (clear_at_nth _ _ _ _ Hj) as (tm0 & E0 & Ek & _).
  specialize (H j tm0 E0). unfold timer_ok in *. rewrite Ek. exact H.
Qed.

Lemma Forall_push :
  forall (A : Type) (P : A -> Prop) (l : list A) (v : A),
    Forall P l -> P v -> Forall P (push l v).
Proof.
  intros A P l v Hl Hv. unfold push. apply Forall_app.
  split; [exact Hl | constructor; [exact Hv | constructor]].
Qed.

Lemma timers_clearTimer :
  forall i w, timers (host (clearTimer i w)) = clear_at i (timers (host w)).
Proof.
  intros i w. unfold clearTimer, clear_at.
  destruct (nth_error (timers (host w)) i); reflexivity.
Qed.

Lemma clearTimer_rendered : forall i w, rendered (clearTimer i w) = rendered w.
Proof.
  intros i w. unfold clearTimer.
  destruct (nth_error (timers (host w)) i); reflexivity.
Qed.

Lemma set_readyState_frame :
  forall i st w,
    react (set_readyState i st w) = react w /\
    refs (set_readyState i st w) = refs w /\
    rendered (set_readyState i st w) = rendered w /\
    timers (host (set_readyState i st w)) = timers (host w) /\
    (forall P : Closure -> Prop,
        Forall (fun s => P (handlers s)) (sockets (host w)) ->
        Forall (fun s => P (handlers s)) (sockets (host (set_readyState i st w)))).
Proof.
  intros i st w. unfold set_readyState.
  destruct (nth_error (sockets (host w)) i) as [s |] eqn:E;
    cbn [react refs rendered host on_host timers sockets set_sockets];
    repeat (split; [reflexivity |]); intros P H; [| exact H].
  rewrite Forall_nth_error in *. intros j x Hj.
  apply nth_error_array_set in Hj.
  destruct Hj as [(_ & -> & _) | (_ & Hj)]; [| apply (H j x Hj)].
  cbn [handlers]. apply (H i s E).
Qed.

Lemma close_frame :
  forall i w,
    react (close i w) = react w /\
    refs (close i w) = refs w /\
    rendered (close i w) = rendered w /\
    timers (host (close i w)) = timers (host w) /\
    (forall P : Closure -> Prop,
        Forall (fun s => P (handlers s)) (sockets (host w)) ->
        Forall (fun s => P (handlers s)) (sockets (host (close i w)))).
Proof.
  intros i w. unfold close.
  destruct (readyState_of i w) as [[| | |] |];
    try apply set_readyState_frame; repeat (split; [reflexivity |]); auto.
Qed.

Lemma invariant_same :
  forall w w',
    invariant w ->
    timers (host w') = timers (host w) ->
    demoInterval (refs w') = demoInterval (refs w) ->
    orderBook (react w') <> None ->
    rendered w' = rendered w ->
    sockets (host w') = sockets (host w) ->
    invariant w'.
Proof.
  intros w w' (I1 & I2 & I3 & I4 & I5) Et Ed Hb Er Es.
  unfold invariant. rewrite Et, Ed, Er, Es. tauto.
Qed.

Lemma invariant_clearTimer :
  forall i w, invariant w -> invariant (clearTimer i w).
Proof.
  intros i w (I1 & I2 & I3 & I4 & I5). unfold invariant.
  rewrite timers_clearTimer, clearTimer_refs, clearTimer_react,
    clearTimer_rendered, clearTimer_sockets.
  split; [apply tracked_clear; exact I1 |].
  split; [exact I2 | split; [exact I3 | split; [exact I4 |]]].
  apply timer_ok_clear. exact I5.
Qed.

Lemma invariant_set_readyState :
  forall i st w, invariant w -> invariant (set_readyState i st w).
Proof.
  intros i st w (I1 & I2 & I3 & I4 & I5).
  destruct (set_readyState_frame i st w) as (R & F & D & T & S).
  unfold invariant. rewrite R, F, D, T.
  split; [exact I1 | split; [exact I2 | split; [exact I3 |]]].
  split; [apply (S good_closure); exact I4 | exact I5].
Qed.

Lemma invariant_close : forall i w, invariant w -> invariant (close i w).
Proof.
  intros i w (I1 & I2 & I3 & I4 & I5).
  destruct (close_frame i w) as (R & F & D & T & S).
  unfold invariant. rewrite R, F, D, T.
  split; [exact I1 | split; [exact I2 | split; [exact I3 |]]].
  split; [apply (S good_closure); exact I4 | exact I5].
Qed.

Lemma invariant_cleanup : forall w, invariant w -> invariant (cleanup w).
Proof.
  intros w I. unfold cleanup.
  set (w1 := match ws (refs w) with Some _ => _ | None => w end).
  assert (I1 : invariant w1).
  { subst w1. destruct (ws (refs w)); [apply invariant_close |]; exact I. }
  set (w2 := match reconnectTimeout (refs w1) with Some _ => _ | None => w1 end).
  assert (I2 : invariant w2).
  { subst w2. destruct (reconnectTimeout (refs w1));
      [apply invariant_clearTimer |]; exact I1. }
  destruct (demoInterval (refs w2)); [apply invariant_clearTimer |]; exact I2.
Qed.

(** After the clean-up that opens [connect] no demo interval runs. *)
Lemma connect_teardown_invariant :
  forall w,
    invariant w ->
    invariant (connect_teardown w) /\
    no_demo (timers (host (connect_teardown w))).
Proof.
  intros w I. unfold connect_teardown.
  set (w1 := match ws (refs w) with Some _ => _ | None => w end).
  assert (I1 : invariant w1).
  { subst w1. destruct (ws (refs w)) as [i |]; [| exact I].
    destruct (readyState_of i w) as [[| | |] |]; try exact I.
    apply invariant_close. exact I. }
  pose proof (tracked_clear_ref _ _ (proj1 I1)) as N.
  destruct (demoInterval (refs w1)) as [t |].
  - split; [apply invariant_clearTimer; exact I1 |].
    rewrite timers_clearTimer. exact N.
  - split; [exact I1 | exact N].
Qed.

Lemma connectDemo_rendered :
  forall c w, rendered (connectDemo c w) = rendered w.
Proof.
  intros c w. unfold connectDemo.
  destruct (draw (generateDemoOrderBook _ _) _) as [book w2] eqn:E2.
  destruct (draw (demoMarketData _ _ _) _) as [md w4] eqn:E4.
  apply draw_rendered in E2, E4. unfold setTimer.
  cbn [rendered on_react on_refs on_host fst snd] in *.
  congruence.
Qed.

Lemma connectDemo_invariant :
  forall c w,
    no_demo (timers (host w)) ->
    good_closure (rendered w) ->
    Forall (fun s => good_closure (handlers s)) (sockets (host w)) ->
    Forall timer_ok (timers (host w)) ->
    invariant (connectDemo c w).
Proof.
  intros c w N G S T.
  destruct (connectDemo_spec c w) as (book & md & Hr & _ & Hf & Ht & Hs).
  unfold invariant.
  rewrite Hr, Hf, Ht, Hs, connectDemo_rendered.
  cbn [demoInterval set_demoInterval orderBook setMarketData setOrderBook].
  split; [apply tracked_push_demo; exact N |].
  split; [discriminate |].
  split; [exact G | split; [exact S |]].
  apply Forall_push; [exact T |].
  unfold timer_ok. cbn [kind]. apply demoBasePrice_cases.
Qed.

Lemma connectBinance_invariant :
  forall c w, invariant w -> good_closure c -> invariant (connectBinance c w).
Proof.
  intros c w (I1 & I2 & I3 & I4 & I5) G.
  unfold connectBinance, newWebSocket, invariant.
  cbn [react refs host rendered on_refs on_host timers sockets set_sockets
       demoInterval set_ws].
  split; [exact I1 | split; [exact I2 | split; [exact I3 |]]].
  split; [| exact I5].
  apply Forall_push; [exact I4 | exact G].
Qed.

Lemma connect_invariant :
  forall c w, invariant w -> good_closure c -> invariant (connect c w).
Proof.
  intros c w I G. rewrite connect_cases.
  destruct (connect_teardown_invariant w I) as [(_ & _ & I3 & I4 & I5) N].
  pose proof (proj1 (connect_teardown_invariant w I)) as I'.
  destruct (c_provider c); [destruct (c_assetType c) | | |];
    try (apply connectDemo_invariant; assumption).
  apply connectBinance_invariant; assumption.
Qed.

Lemma reconnect_invariant :
  forall c w, invariant w -> good_closure c -> invariant (reconnect c w).
Proof.
  intros c w I G. unfold reconnect. apply connect_invariant; [| exact G].
  destruct (reconnectTimeout (refs w)); [apply invariant_clearTimer |]; exact I.
Qed.

Lemma invariant_on_react :
  forall f w,
    invariant w -> orderBook (f (react w)) <> None -> invariant (on_react f w).
Proof.
  intros f w I H. apply (invariant_same w); try reflexivity; assumption.
Qed.

Lemma demoTick_invariant :
  forall b w, invariant w -> invariant (demoTick b w).
Proof.
  intros b w I.
  destruct (demoTick_spec b w) as (book & nt & _ & Hr & Hf & Ht & Hs & Hd).
  apply (invariant_same w); try assumption.
  - rewrite Hf. reflexivity.
  - rewrite Hr. discriminate.
Qed.

Lemma onmessage_book :
  forall c data s s',
    onmessage c data s = Ok s' -> orderBook s <> None -> orderBook s' <> None.
Proof.
  intros c data s s' H Hs. unfold onmessage in H.
  destruct (String.eqb (data_e data) "depthUpdate").
  - unfold processOrderBookUpdate in H.
    destruct (DataProvider_eqb (c_provider c) Binance && _)%bool.
    + destruct (c_orderBook c); [| discriminate H].
      inversion H. discriminate.
    + inversion H. subst s'. exact Hs.
  - destruct (String.eqb (data_e data) "trade").
    + unfold processTrade in H.
      destruct (DataProvider_eqb (c_provider c) Binance && _)%bool;
        inversion H; subst s'; exact Hs.
    + inversion H. subst s'. exact Hs.
Qed.

Lemma render_invariant : forall w, invariant w -> invariant (render w).
Proof.
  intros w I. unfold render.
  set (c' := closure_of (react w)).
  assert (G : good_closure c').
  { intros _. subst c'. cbn [c_orderBook closure_of]. apply I. }
  set (w1 := if negb _ then cleanup w else w).
  assert (I1 : invariant w1).
  { subst w1. destruct (negb _); [apply invariant_cleanup |]; exact I. }
  set (w2 := if AssetType_eqb _ _ then w1 else _).
  assert (I2 : invariant w2).
  { subst w2. destruct (AssetType_eqb _ _); [exact I1 |].
    apply invariant_on_react; [exact I1 | apply I1]. }
  set (w3 := if negb _ then connect c' w2 else w2).
  assert (I3 : invariant w3).
  { subst w3. destruct (negb _); [apply connect_invariant |]; assumption. }
  destruct I3 as (A & B & _ & D & E).
  unfold invariant.
  cbn [set_rendered react refs host rendered].
  tauto.
Qed.

Lemma onclose_invariant :
  forall c w, invariant w -> good_closure c -> invariant (onclose c w).
Proof.
  intros c w (I1 & I2 & I3 & I4 & I5) G. unfold onclose, setTimer, invariant.
  cbn [react refs host rendered on_react on_refs on_host timers sockets
       set_timers demoInterval set_reconnectTimeout orderBook setIsConnected].
  split; [apply tracked_push_reconnect; exact I1 |].
  split; [exact I2 | split; [exact I3 | split; [exact I4 |]]].
  apply Forall_push; [exact I5 | exact G].
Qed.

Lemma socket_closure_good :
  forall w i s,
    invariant w -> nth_error (sockets (host w)) i = Some s ->
    good_closure (handlers s).
Proof.
  intros w i s (_ & _ & _ & I4 & _) H.
  rewrite Forall_nth_error in I4. apply (I4 i s H).
Qed.

Lemma step_invariant :
  forall ev w, invariant w -> invariant (step ev w).
Proof.
  intros ev w I. destruct ev; cbn [step].
  - unfold handleSymbolChange. apply reconnect_invariant; [| apply I].
    apply invariant_on_react; [exact I | apply I].
  - unfold handleAssetTypeChange.
    apply invariant_on_react; [| apply I].
    apply invariant_on_react; [exact I | apply I].
  - unfold handleProviderChange. apply reconnect_invariant; [| apply I].
    apply invariant_on_react; [exact I | apply I].
  - apply render_invariant. exact I.
  - destruct (nth_error (sockets (host w)) i) as [[u c [| | |]] |] eqn:E;
      try exact I.
    unfold onopen.
    pose proof (invariant_set_readyState i OPEN w I) as I'.
    apply (invariant_same (set_readyState i OPEN w)); try reflexivity;
      [exact I' | apply I'].
  - destruct (nth_error (sockets (host w)) i) as [[u c [| | |]] |] eqn:E;
      try exact I.
    destruct (onmessage c data (react w)) as [s |] eqn:M;
      [| exact I].
    apply invariant_on_react; [exact I |].
    apply (onmessage_book _ _ _ _ M). apply I.
  - destruct (nth_error (sockets (host w)) i) as [[u c [| | |]] |] eqn:E;
      try exact I; unfold onerror;
      (apply invariant_on_react; [exact I | apply I]).
  - destruct (nth_error (sockets (host w)) i) as [[u c st] |] eqn:E;
      [| exact I].
    pose proof (socket_closure_good w i _ I E) as G. cbn [handlers] in G.
    destruct st; try exact I;
      (apply onclose_invariant;
       [apply invariant_set_readyState; exact I | exact G]).
  - destruct (fetches (host w)) as [| f rest]; [exact I |].
    apply invariant_on_react; [| discriminate].
    apply (invariant_same w); try reflexivity; [exact I | apply I].
  - destruct (nth_error (timers (host w)) t) as [[[b | c] [|]] |] eqn:E;
      try exact I.
    + apply demoTick_invariant. exact I.
    + apply connect_invariant; [apply invariant_clearTimer; exact I |].
      destruct I as (_ & _ & _ & _ & I5).
      rewrite Forall_nth_error in I5. apply (I5 t _ E).
  - apply (invariant_same w); try reflexivity; [exact I | apply I].
Qed.

Lemma mount_invariant : forall r now, invariant (mount r now).
Proof.
  intros r now. unfold mount. rewrite connect_cases.
  cbn [c_provider closure_of initialState provider].
  apply connectDemo_invariant.
  - intros t tm H. destruct t; discriminate H.
  - intros H. discriminate H.
  - constructor.
  - constructor.
Qed.

Lemma run_keeps_invariant :
  forall evs w, invariant w -> invariant (run evs w).
Proof.
  induction evs as [| ev evs IH]; intros w I; [exact I |].
  cbn [run fold_left]. apply IH. apply step_invariant. exact I.
Qed.

(** X7.  In every state reached from the first render, whatever the
    events, at most one demo interval runs; if one runs it is the one
    [demoInterval.current] holds, and the base price of every demo
    interval ever started is at least 100. *)
Theorem one_demo_interval :
  forall evs r now,
    let w := run evs (mount r now) in
    (List.length (filter demo_running (timers (host w))) <= 1)%nat /\
    tracked (timers (host w)) (demoInterval (refs w)) /\
    Forall (fun tm => forall b, kind tm = DemoTick b -> 100 <= b)
      (timers (host w)).
Proof.
  intros evs r now w.
  destruct (run_keeps_invariant evs _ (mount_invariant r now))
    as (I1 & _ & _ & _ & I5).
  fold w in I1, I5.
  split; [apply (tracked_at_most_one _ _ I1) | split; [exact I1 |]].
  eapply Forall_impl; [| exact I5].
  intros tm H b E. unfold timer_ok in H. rewrite E in H. exact H.
Qed.

Lemma good_closure_onmessage :
  forall c data s,
    good_closure c -> exists s', onmessage c data s = Ok s'.
Proof.
  intros c data s G. unfold onmessage.
  destruct (String.eqb (data_e data) "depthUpdate").
  - unfold processOrderBookUpdate.
    destruct (DataProvider_eqb (c_provider c) Binance) eqn:P; cbn [andb];
      [| eexists; reflexivity].
    destruct (String.eqb (data_e data) "depthUpdate");
      [| eexists; reflexivity].
    assert (E : c_provider c = Binance)
      by (destruct (c_provider c); try discriminate P; reflexivity).
    destruct (c_orderBook c) as [ob |] eqn:B;
      [eexists; reflexivity | exfalso; apply (G E); exact B].
  - destruct (String.eqb (data_e data) "trade"); [| eexists; reflexivity].
    unfold processTrade.
    destruct (DataProvider_eqb (c_provider c) Binance && _)%bool;
      eexists; reflexivity.
Qed.

(** X8.  In every state reached from the first render the book is not
    [null], and every socket whose handlers captured the Binance provider
    captured a book with it.  So the handler of every socket returns for
    every frame that parsed to a payload with the fields of its event type:
    the [TypeError] of a depth update on a captured [null] book cannot
    happen.  Frames that do not parse or lack those fields are not spoken
    of: the handler has no [try] and throws on them before any setter
    runs. *)
Theorem null_book_error_unreachable :
  forall evs r now,
    let w := run evs (mount r now) in
    orderBook (react w) <> None /\
    forall i sk,
      nth_error (sockets (host w)) i = Some sk ->
      (c_provider (handlers sk) = Binance ->
       c_orderBook (handlers sk) <> None) /\
      forall data, exists s', onmessage (handlers sk) data (react w) = Ok s'.
Proof.
  intros evs r now w.
  pose proof (run_keeps_invariant evs _ (mount_invariant r now)) as I.
  fold w in I. split; [apply I |].
  intros i sk H.
  pose proof (socket_closure_good w i sk I H) as G.
  split; [exact G |].
  intros data. apply good_closure_onmessage. exact G.
Qed.

(** X9.  The clean-up the [connect] effect returns leaves the state cells
    and the refs as they are, and what the refs point to is shut down: the
    socket in [ws.current] is neither connecting nor open, the timers in
    [reconnectTimeout.current] and [demoInterval.current] are inactive. *)
Theorem cleanup_shuts_down :
  forall w,
    react (cleanup w) = react w /\
    refs (cleanup w) = refs w /\
    (forall i sk,
        ws (refs w) = Some i ->
        nth_error (sockets (host (cleanup w))) i = Some sk ->
        live sk = false) /\
    (forall t tm,
        reconnectTimeout (refs w) = Some t \/ demoInterval (refs w) = Some t ->
        nth_error (timers (host (cleanup w))) t = Some tm ->
        active tm = false).
Proof.
  intros w. unfold cleanup.
  set (w1 := match ws (refs w) with Some _ => _ | None => w end).
  assert (H1 : react w1 = react w /\ refs w1 = refs w /\
               (forall i sk, ws (refs w) = Some i ->
                  nth_error (sockets (host w1)) i = Some sk -> live sk = false)).
  { subst w1. destruct (ws (refs w)) as [i |]; [| now auto].
    split; [apply close_react | split; [apply close_refs |]].
    intros j sk E H. inversion E; subst j. clear E.
    unfold close, readyState_of, set_readyState in H.
    destruct (nth_error (sockets (host w)) i) as [[u c st] |] eqn:E;
      cbn [option_map readyState] in H.
    - destruct st; cbn [host on_host sockets set_sockets] in H.
      + apply nth_error_array_set in H.
        destruct H as [(_ & -> & _) | (Hne & _)]; [reflexivity | congruence].
      + apply nth_error_array_set in H.
        destruct H as [(_ & -> & _) | (Hne & _)]; [reflexivity | congruence].
      + rewrite E in H. inversion H. reflexivity.
      + rewrite E in H. inversion H. reflexivity.
    - rewrite E in H. discriminate H. }
  destruct H1 as (R1 & F1 & S1).
  set (w2 := match reconnectTimeout (refs w1) with Some _ => _ | None => w1 end).
  assert (H2 : react w2 = react w1 /\ refs w2 = refs w1 /\
               sockets (host w2) = sockets (host w1) /\
               timers (host w2)
               = match reconnectTimeout (refs w1) with
                 | Some t => clear_at t (timers (host w1))
                 | None => timers (host w1)
                 end).
  { subst w2. destruct (reconnectTimeout (refs w1)); [| now auto].
    split; [apply clearTimer_react | split; [apply clearTimer_refs |]].
    split; [apply clearTimer_sockets | apply timers_clearTimer]. }
  destruct H2 as (R2 & F2 & S2 & T2).
  set (w3 := match demoInterval (refs w2) with Some _ => _ | None => w2 end).
  assert (H3 : react w3 = react w2 /\ refs w3 = refs w2 /\
               sockets (host w3) = sockets (host w2) /\
               timers (host w3)
               = match demoInterval (refs w2) with
                 | Some t => clear_at t (timers (host w2))
                 | None => timers (host w2)
                 end).
  { subst w3. destruct (demoInterval (refs w2)); [| now auto].
    split; [apply clearTimer_react | split; [apply clearTimer_refs |]].
    split; [apply clearTimer_sockets | apply timers_clearTimer]. }
  destruct H3 as (R3 & F3 & S3 & T3).
  split; [congruence | split; [congruence |]].
  split.
  - intros i sk E H. rewrite S3, S2 in H. apply (S1 i sk E H).
  - intros t tm E H. rewrite T3, F2, F1 in H.
    destruct (active tm) eqn:A; [exfalso | reflexivity].
    destruct (demoInterval (refs w)) as [d |] eqn:D.
    + destruct (clear_at_nth _ _ _ _ H) as (tm0 & H0 & _ & Ha).
      destruct (Ha A) as [A0 Hne]. rewrite T2, F1 in H0.
      destruct E as [E | E]; [| congruence].
      rewrite E in H0.
      destruct (clear_at_nth _ _ _ _ H0) as (tm1 & _ & _ & Hb).
      destruct (Hb A0) as [_ Hne']. congruence.
    + destruct E as [E | E]; [| discriminate E].
      rewrite T2, F1, E in H.
      destruct (clear_at_nth _ _ _ _ H) as (tm1 & _ & _ & Hb).
      destruct (Hb A) as [_ Hne']. congruence.
Qed.

(** X10.  In every state reached from the first render, [connect] with
    the Binance provider for crypto leaves no demo interval running,
    opens exactly one socket, in state CONNECTING, with the handlers of
    the given closure and the two streams of the lower-cased symbol, makes
    it [ws.current], and touches no state cell: the connection flag waits
    for the socket to open. *)
Theorem connect_binance_from_reachable :
  forall evs r now c,
    c_provider c = Binance -> c_assetType c = Crypto ->
    let w := run evs (mount r now) in
    let n := List.length (sockets (host w)) in
    filter demo_running (timers (host (connect c w))) = [] /\
    List.length (sockets (host (connect c w))) = S n /\
    nth_error (sockets (host (connect c w))) n
    = Some (mkSocket
              ("wss://stream.binance.com:443/stream?streams="
               ++ toLowerCase (c_symbol c) ++ "@depth@100ms/"
               ++ toLowerCase (c_symbol c) ++ "@trade")
              c CONNECTING) /\
    ws (refs (connect c w)) = Some n /\
    react (connect c w) = react w.
Proof.
  intros evs r now c P A w n.
  pose proof (run_keeps_invariant evs _ (mount_invariant r now)) as I.
  fold w in I.
  destruct (connect_teardown_invariant w I) as [_ N].
  destruct (connect_teardown_frame w) as (R & F & Hs & T).
  rewrite connect_cases, P, A.
  set (w2 := connect_teardown w) in *.
  unfold connectBinance, newWebSocket.
  cbn [react refs host on_refs on_host timers sockets set_sockets ws set_ws].
  split; [apply no_demo_filter; exact N |].
  unfold push. rewrite length_app, Nat.add_comm. cbn [List.length Nat.add].
  subst n. rewrite Hs.
  split; [reflexivity |].
  split; [| split; [reflexivity | exact R]].
  rewrite <- Hs. rewrite nth_error_app2 by lia.
  rewrite Nat.sub_diag. reflexivity.
Qed.

(** ** More on depth updates *)

Lemma sort_insert_perm :
  forall (A : Type) (cmp : A -> A -> number) (x : A) (l : list A),
    Permutation (x :: l) (sort_insert cmp x l).
Proof.
  intros A cmp x l. induction l as [| y l IH]; cbn [sort_insert].
  - apply Permutation_refl.
  - destruct (Qle_bool (cmp x y) 0); [apply Permutation_refl |].
    eapply Permutation_trans; [apply perm_swap |].
    apply perm_skip. exact IH.
Qed.

Lemma sort_perm :
  forall (A : Type) (cmp : A -> A -> number) (l : list A),
    Permutation l (sort cmp l).
Proof.
  intros A cmp l. induction l as [| x l IH]; [apply Permutation_refl |].
  cbn [sort fold_right]. fold (sort cmp l).
  eapply Permutation_trans; [apply perm_skip; exact IH |].
  apply sort_insert_perm.
Qed.

Lemma array_set_keeps :
  forall (A : Type) (p : A -> bool) (l : list A) (v x : A),
    In x l -> p x = false -> (0 <= findIndex p l)%Z ->
    In x (array_set l (Z.to_nat (findIndex p l)) v).
Proof.
  intros A p l v x. induction l as [| y l IH]; intros Hx Px Hi;
    [destruct Hx |].
  cbn [findIndex] in *. destruct (p y) eqn:Py.
  - cbn [Z.to_nat array_set]. destruct Hx as [-> | Hx]; [congruence |].
    right. exact Hx.
  - destruct (Z.ltb_spec (findIndex p l) 0) as [Hn | Hn]; [lia |].
    rewrite Z2Nat.inj_add by lia. rewrite Nat.add_comm. cbn [Z.to_nat Pos.to_nat Pos.iter_op Nat.add array_set].
    destruct Hx as [-> | Hx]; [left; reflexivity | right].
    apply IH; assumption.
Qed.

Lemma strict_eq_false :
  forall a b, ~ b == a -> strict_eq a b = false.
Proof.
  intros a b H. unfold strict_eq. destruct (Qeq_bool a b) eqn:E;
    [| reflexivity].
  apply Qeq_bool_iff in E. exfalso. apply H. symmetry. exact E.
Qed.

Lemma applyBid_keeps_other :
  forall (bids : list Level) price amount (x : Level),
    In x bids -> ~ parseFloat price == fst x ->
    In x (applyBid bids (price, amount)).
Proof.
  intros bids price amount x Hx Hne. unfold applyBid. cbv beta zeta iota.
  pose proof (strict_eq_false _ _ Hne) as Hf.
  destruct (strict_eq (parseFloat amount) 0).
  - apply filter_In. split; [exact Hx |]. cbn beta. rewrite Hf. reflexivity.
  - match goal with
    | |- context [(0 <=? ?i)%Z] => destruct (Z.leb_spec 0 i) as [Hi | Hi]
    end.
    + apply (array_set_keeps _ (fun l : Level => strict_eq (fst l) (parseFloat price)));
        assumption.
    + unfold push. apply in_or_app. left. exact Hx.
Qed.

Lemma fold_applyBid_keeps_other :
  forall us (bids : list Level) (x : Level),
    In x bids ->
    (forall u, In u us -> ~ parseFloat (fst u) == fst x) ->
    In x (fold_left applyBid us bids).
Proof.
  induction us as [| [price amount] us IH]; intros bids x Hx Hus;
    [exact Hx |].
  cbn [fold_left]. apply IH.
  - apply applyBid_keeps_other; [exact Hx |].
    apply (Hus (price, amount)). left. reflexivity.
  - intros u Hu. apply Hus. right. exact Hu.
Qed.

(** X12.  A depth update leaves alone what the message does not name: the
    ask side keeps exactly its levels (it is only reordered), every bid
    level whose price no entry of the message carries is still there, and
    no state cell but the book changes. *)
Theorem depth_update_frame :
  forall ob data s,
    data_e data = "depthUpdate"%string ->
    exists nb,
      processOrderBookUpdate (Some ob) Binance data s
      = Ok (setOrderBook nb s) /\
      Permutation (asks ob) (asks nb) /\
      (forall x : Level,
          In x (bids ob) ->
          (forall u, In u (data_b data) -> ~ parseFloat (fst u) == fst x) ->
          In x (bids nb)) /\
      trades (setOrderBook nb s) = trades s /\
      isConnected (setOrderBook nb s) = isConnected s /\
      symbol (setOrderBook nb s) = symbol s /\
      provider (setOrderBook nb s) = provider s /\
      assetType (setOrderBook nb s) = assetType s /\
      marketData (setOrderBook nb s) = marketData s.
Proof.
  intros ob data s H.
  exists (mkOrderBook
            (sort (fun a b => fst b - fst a)
               (fold_left applyBid (data_b data) (bids ob)))
            (sort (fun a b => fst a - fst b) (asks ob))
            (lastUpdateId ob)).
  split; [apply depth_update_result; exact H |].
  cbn [bids asks].
  split; [apply sort_perm |].
  split; [| repeat (split; [reflexivity |]); reflexivity].
  intros x Hx Hus. apply sort_In.
  apply fold_applyBid_keeps_other; assumption.
Qed.

(** X13.  A depth update introduces no duplicate price: a side whose
    prices were pairwise distinct before has pairwise distinct prices
    afterwards, whatever the message repeats. *)
Theorem depth_update_keeps_prices_distinct :
  forall ob data s,
    data_e data = "depthUpdate"%string ->
    exists nb,
      processOrderBookUpdate (Some ob) Binance data s
      = Ok (setOrderBook nb s) /\
      (distinct_prices (bids ob) -> distinct_prices (bids nb)) /\
      (distinct_prices (asks ob) -> distinct_prices (asks nb)).
Proof.
  intros ob data s H.
  exists (mkOrderBook
            (sort (fun a b => fst b - fst a)
               (fold_left applyBid (data_b data) (bids ob)))
            (sort (fun a b => fst a - fst b) (asks ob))
            (lastUpdateId ob)).
  split; [apply depth_update_result; exact H |].
  cbn [bids asks]. split; intros Hd.
  - apply sort_distinct, fold_applyBid_distinct. exact Hd.
  - apply sort_distinct. exact Hd.
Qed.

Lemma sort_sorted_id :
  forall (A : Type) (cmp : A -> A -> number) (R : A -> A -> Prop) (l : list A),
    (forall x y, R x y -> Qle_bool (cmp x y) 0 = true) ->
    StronglySorted R l -> sort cmp l = l.
Proof.
  intros A cmp R l HR Hs. induction Hs as [| x l Hs IH Hx];
    [reflexivity |].
  cbn [sort fold_right]. fold (sort cmp l). rewrite IH.
  destruct l as [| y t]; [reflexivity |].
  cbn [sort_insert]. inversion Hx; subst.
  rewrite (HR x y); [reflexivity | assumption].
Qed.

Lemma sort_descending_id :
  forall l : list Level,
    descending l -> sort (fun a b => fst b - fst a) l = l.
Proof.
  intros l H. apply (sort_sorted_id _ _ (fun x y : Level => fst y <= fst x));
    [| exact H].
  intros [x1 x2] [y1 y2] Hxy. apply Qle_bool_iff. cbn [fst] in *. lra.
Qed.

Lemma sort_ascending_id :
  forall l : list Level,
    ascending l -> sort (fun a b => fst a - fst b) l = l.
Proof.
  intros l H. apply (sort_sorted_id _ _ (fun x y : Level => fst x <= fst y));
    [| exact H].
  intros [x1 x2] [y1 y2] Hxy. apply Qle_bool_iff. cbn [fst] in *. lra.
Qed.

(** X14.  On a book whose bids are in descending and whose asks are in
    ascending price order, a depth update that carries no bid level
    installs the very same book again. *)
Theorem empty_depth_update_keeps_sorted_book :
  forall ob data s,
    data_e data = "depthUpdate"%string -> data_b data = [] ->
    descending (bids ob) -> ascending (asks ob) ->
    processOrderBookUpdate (Some ob) Binance data s = Ok (setOrderBook ob s).
Proof.
  intros ob data s H Hb Hd Ha.
  rewrite (depth_update_result ob data s H), Hb. cbn [fold_left].
  rewrite (sort_descending_id _ Hd), (sort_ascending_id _ Ha).
  destruct ob; reflexivity.
Qed.

Lemma sort_length :
  forall (A : Type) (cmp : A -> A -> number) (l : list A),
    List.length (sort cmp l) = List.length l.
Proof.
  intros A cmp l. symmetry. apply Permutation_length. apply sort_perm.
Qed.

Lemma findIndex_all_false :
  forall (A : Type) (p : A -> bool) (l : list A),
    (forall x, In x l -> p x = false) -> findIndex p l = (-1)%Z.
Proof.
  intros A p l. induction l as [| y l IH]; intros H; [reflexivity |].
  cbn [findIndex]. rewrite (H y (or_introl eq_refl)).
  rewrite IH by (intros x Hx; apply H; right; exact Hx). reflexivity.
Qed.

Lemma findIndex_some :
  forall (A : Type) (p : A -> bool) (l : list A) (x : A),
    In x l -> p x = true -> (0 <= findIndex p l)%Z.
Proof.
  intros A p l x Hx Px.
  destruct (findIndex_range A p l) as [E | E]; [| lia].
  assert (Hn : (findIndex p l < 0)%Z) by lia.
  rewrite (findIndex_none A p l Hn x Hx) in Px. discriminate Px.
Qed.

Lemma filter_length_le :
  forall (A : Type) (f : A -> bool) (l : list A),
    (List.length (filter f l) <= List.length l)%nat.
Proof.
  intros A f l. induction l as [| x l IH]; cbn [filter List.length];
    [lia |].
  destruct (f x); cbn [List.length]; lia.
Qed.

Lemma applyBid_length :
  forall (bids : list Level) price amount,
    (List.length (applyBid bids (price, amount)) <= S (List.length bids))%nat /\
    (parseFloat amount == 0 ->
     (List.length (applyBid bids (price, amount)) <= List.length bids)%nat) /\
    (~ parseFloat amount == 0 ->
     (exists x : Level, In x bids /\ fst x == parseFloat price) ->
     List.length (applyBid bids (price, amount)) = List.length bids) /\
    (~ parseFloat amount == 0 ->
     (forall x : Level, In x bids -> ~ fst x == parseFloat price) ->
     List.length (applyBid bids (price, amount)) = S (List.length bids)).
Proof.
  intros bids price amount. unfold applyBid. cbv beta zeta iota.
  destruct (strict_eq (parseFloat amount) 0) eqn:Ez.
  - apply Qeq_bool_iff in Ez.
    split; [eapply Nat.le_trans;
            [apply filter_length_le | apply Nat.le_succ_diag_r] |].
    split; [intros _; apply filter_length_le |].
    split; intros Hnz; contradiction.
  - assert (Hnz : ~ parseFloat amount == 0).
    { intros E. apply Qeq_bool_iff in E. unfold strict_eq in Ez. congruence. }
    split; [| split; [intros E; contradiction | split]].
    + match goal with
      | |- context [(0 <=? ?i)%Z] => destruct (0 <=? i)%Z
      end.
      * rewrite array_set_length. lia.
      * unfold push. rewrite length_app. cbn [List.length]. lia.
    + intros _ (x & Hx & E).
      rewrite (proj2 (Z.leb_le 0 _)).
      * apply array_set_length.
      * apply (findIndex_some _ _ _ x Hx). apply Qeq_bool_iff. exact E.
    + intros _ Habs.
      rewrite findIndex_all_false.
      * cbn. unfold push. rewrite length_app. cbn [List.length]. lia.
      * intros x Hx. cbn beta. unfold strict_eq.
        destruct (Qeq_bool (fst x) (parseFloat price)) eqn:E; [| reflexivity].
        apply Qeq_bool_iff in E. exfalso. apply (Habs x Hx E).
Qed.

Lemma fold_applyBid_length :
  forall us (bids : list Level),
    (List.length (fold_left applyBid us bids)
     <= List.length bids + List.length us)%nat.
Proof.
  induction us as [| [price amount] us IH]; intros bids; cbn [fold_left List.length];
    [lia |].
  specialize (IH (applyBid bids (price, amount))).
  pose proof (proj1 (applyBid_length bids price amount)). lia.
Qed.

(** X15.  How a depth update changes the number of levels.  The ask side
    keeps its count; the bid side grows by at most one level per entry of
    the message.  For a message with a single bid entry: a size other than
    0 at a price the side has keeps the count, at a price the side lacks
    adds one level; size 0 never adds a level. *)
Theorem depth_update_level_count :
  forall ob data s,
    data_e data = "depthUpdate"%string ->
    exists nb,
      processOrderBookUpdate (Some ob) Binance data s
      = Ok (setOrderBook nb s) /\
      List.length (asks nb) = List.length (asks ob) /\
      (List.length (bids nb)
       <= List.length (bids ob) + List.length (data_b data))%nat /\
      (forall price amount,
          data_b data = [(price, amount)] ->
          (parseFloat amount == 0 ->
           (List.length (bids nb) <= List.length (bids ob))%nat) /\
          (~ parseFloat amount == 0 ->
           (exists x : Level, In x (bids ob) /\ fst x == parseFloat price) ->
           List.length (bids nb) = List.length (bids ob)) /\
          (~ parseFloat amount == 0 ->
           (forall x : Level, In x (bids ob) -> ~ fst x == parseFloat price) ->
           List.length (bids nb) = S (List.length (bids ob)))).
Proof.
  intros ob data s H.
  exists (mkOrderBook
            (sort (fun a b => fst b - fst a)
               (fold_left applyBid (data_b data) (bids ob)))
            (sort (fun a b => fst a - fst b) (asks ob))
            (lastUpdateId ob)).
  split; [apply depth_update_result; exact H |].
  cbn [bids asks]. rewrite !sort_length.
  split; [reflexivity |].
  split; [apply fold_applyBid_length |].
  intros price amount E. rewrite E. cbn [fold_left].
  destruct (applyBid_length (bids ob) price amount) as (_ & L1 & L2 & L3).
  split; [exact L1 | split; [exact L2 | exact L3]].
Qed.

Lemma applyBidShared_current :
  forall st u, currentBids (applyBidShared st u) = applyBid (currentBids st) u.
Proof.
  intros [cap [own |]] u; unfold applyBidShared, currentBids;
    cbn [ownBids capturedBids]; [reflexivity |].
  destruct (strict_eq (parseFloat (snd u)) 0); reflexivity.
Qed.

Lemma fold_applyBidShared_current :
  forall l st,
    currentBids (fold_left applyBidShared l st)
    = fold_left applyBid l (currentBids st).
Proof.
  induction l as [| u l IH]; intros st; cbn [fold_left]; [reflexivity |].
  rewrite IH, applyBidShared_current. reflexivity.
Qed.

Lemma fold_applyBidShared_own :
  forall l cap own,
    fold_left applyBidShared l (mkBidsLoop cap (Some own))
    = mkBidsLoop cap (Some (fold_left applyBid l own)).
Proof.
  induction l as [| u l IH]; intros cap own; cbn [fold_left]; [reflexivity |].
  unfold applyBidShared at 2. cbn [ownBids capturedBids]. apply IH.
Qed.

Lemma fold_applyBidShared_nonzero :
  forall l cap,
    (forall u, In u l -> ~ parseFloat (snd u) == 0) ->
    fold_left applyBidShared l (mkBidsLoop cap None)
    = mkBidsLoop (fold_left applyBid l cap) None.
Proof.
  induction l as [| u l IH]; intros cap H; cbn [fold_left]; [reflexivity |].
  unfold applyBidShared at 2. cbn [ownBids capturedBids].
  rewrite (strict_eq_false (parseFloat (snd u)) 0)
    by (intros Hq; apply (H u (or_introl eq_refl)); symmetry; exact Hq).
  apply IH. intros v Hv. apply H. right. exact Hv.
Qed.

Lemma strict_eq_true : forall a b : number, a == b -> strict_eq a b = true.
Proof. intros a b H. apply Qeq_bool_iff. exact H. Qed.

Lemma depthUpdateShared_installed :
  forall ob data,
    fst (depthUpdateShared ob data)
    = mkOrderBook
        (sort (fun a b => fst b - fst a)
           (fold_left applyBid (data_b data) (bids ob)))
        (sort (fun a b => fst a - fst b) (asks ob))
        (lastUpdateId ob).
Proof.
  intros ob data. unfold depthUpdateShared.
  pose proof (fold_applyBidShared_current (data_b data)
                (mkBidsLoop (bids ob) None)) as E.
  unfold currentBids in E. cbn [ownBids capturedBids] in E.
  destruct (ownBids (fold_left applyBidShared (data_b data)
                       (mkBidsLoop (bids ob) None)));
    cbn [fst]; rewrite E; reflexivity.
Qed.

Lemma depthUpdateShared_frame :
  forall ob data,
    asks (snd (depthUpdateShared ob data))
    = asks (fst (depthUpdateShared ob data)) /\
    lastUpdateId (snd (depthUpdateShared ob data)) = lastUpdateId ob.
Proof.
  intros ob data. unfold depthUpdateShared.
  destruct (ownBids (fold_left applyBidShared (data_b data)
                       (mkBidsLoop (bids ob) None)));
    split; reflexivity.
Qed.

Lemma depthUpdateShared_nonzero :
  forall ob data,
    (forall u, In u (data_b data) -> ~ parseFloat (snd u) == 0) ->
    snd (depthUpdateShared ob data) = fst (depthUpdateShared ob data).
Proof.
  intros ob data H. unfold depthUpdateShared.
  rewrite (fold_applyBidShared_nonzero _ _ H). reflexivity.
Qed.

Lemma fold_applyBidShared_detached :
  forall pre z post cap,
    (forall u, In u pre -> ~ parseFloat (snd u) == 0) ->
    parseFloat (snd z) == 0 ->
    fold_left applyBidShared (pre ++ z :: post) (mkBidsLoop cap None)
    = mkBidsLoop (fold_left applyBid pre cap)
        (Some (fold_left applyBid post
                 (applyBid (fold_left applyBid pre cap) z))).
Proof.
  intros pre z post cap Hpre Hz.
  rewrite fold_left_app, (fold_applyBidShared_nonzero _ _ Hpre).
  cbn [fold_left].
  assert (E : applyBidShared (mkBidsLoop (fold_left applyBid pre cap) None) z
              = mkBidsLoop (fold_left applyBid pre cap)
                  (Some (applyBid (fold_left applyBid pre cap) z))).
  { unfold applyBidShared. cbn [ownBids capturedBids].
    rewrite (strict_eq_true _ _ Hz). reflexivity. }
  rewrite E. apply fold_applyBidShared_own.
Qed.

Lemma depthUpdateShared_detached :
  forall ob data pre z post,
    data_b data = pre ++ z :: post ->
    (forall u, In u pre -> ~ parseFloat (snd u) == 0) ->
    parseFloat (snd z) == 0 ->
    bids (snd (depthUpdateShared ob data)) = fold_left applyBid pre (bids ob).
Proof.
  intros ob data pre z post E Hpre Hz. unfold depthUpdateShared.
  rewrite E, (fold_applyBidShared_detached pre z post _ Hpre Hz).
  reflexivity.
Qed.

Lemma onmessageShared_depth :
  forall c ob data s,
    c_provider c = Binance -> c_orderBook c = Some ob ->
    data_e data = "depthUpdate"%string ->
    onmessageShared c data s
    = Ok (setOrderBook (fst (depthUpdateShared ob data)) s,
          with_book c (snd (depthUpdateShared ob data))) /\
    onmessage c data s
    = Ok (setOrderBook (fst (depthUpdateShared ob data)) s).
Proof.
  intros c ob data s P B E. unfold onmessageShared, onmessage.
  rewrite E, P, B. cbn [String.eqb Ascii.eqb Bool.eqb DataProvider_eqb].
  split.
  - destruct (depthUpdateShared ob data); reflexivity.
  - rewrite (depth_update_result ob data s E), depthUpdateShared_installed.
    reflexivity.
Qed.

(** X11.  Depth updates handled by the same socket meet the arrays the
    earlier ones wrote to.  One update installs the book the callback
    computes and leaves the captured book with the same asks, sorted, and
    its identifier.  When no bid entry of the update has size 0 the
    captured book is left equal to the installed one, so the next update of
    the same socket builds on the result of this one.  When an entry has
    size 0, [filter] detaches the bids: the captured book keeps what the
    entries before the first such entry wrote, unsorted, and loses the
    rest. *)
Theorem depth_updates_share_captured_arrays :
  forall c ob d1 s,
    c_provider c = Binance -> c_orderBook c = Some ob ->
    data_e d1 = "depthUpdate"%string ->
    exists nb1 ob1,
      onmessageShared c d1 s = Ok (setOrderBook nb1 s, with_book c ob1) /\
      onmessage c d1 s = Ok (setOrderBook nb1 s) /\
      asks ob1 = asks nb1 /\ lastUpdateId ob1 = lastUpdateId ob /\
      ((forall u, In u (data_b d1) -> ~ parseFloat (snd u) == 0) ->
       ob1 = nb1 /\
       forall d2 s1,
         data_e d2 = "depthUpdate"%string ->
         exists nb2 ob2,
           onmessageShared (with_book c ob1) d2 s1
           = Ok (setOrderBook nb2 s1, with_book c ob2) /\
           processOrderBookUpdate (Some nb1) Binance d2 s1
           = Ok (setOrderBook nb2 s1)) /\
      (forall pre z post,
          data_b d1 = pre ++ z :: post ->
          (forall u, In u pre -> ~ parseFloat (snd u) == 0) ->
          parseFloat (snd z) == 0 ->
          bids ob1 = fold_left applyBid pre (bids ob)).
Proof.
  intros c ob d1 s P B E1.
  destruct (onmessageShared_depth c ob d1 s P B E1) as [H1 H2].
  exists (fst (depthUpdateShared ob d1)), (snd (depthUpdateShared ob d1)).
  destruct (depthUpdateShared_frame ob d1) as [Fa Fi].
  split; [exact H1 | split; [exact H2 | split; [exact Fa | split; [exact Fi |]]]].
  split.
  - intros Hnz. pose proof (depthUpdateShared_nonzero ob d1 Hnz) as En.
    split; [exact En |]. intros d2 s1 E2.
    destruct (onmessageShared_depth (with_book c (snd (depthUpdateShared ob d1)))
                (snd (depthUpdateShared ob d1)) d2 s1 P eq_refl E2) as [G1 _].
    exists (fst (depthUpdateShared (snd (depthUpdateShared ob d1)) d2)),
           (snd (depthUpdateShared (snd (depthUpdateShared ob d1)) d2)).
    split; [exact G1 |].
    rewrite <- En, (depth_update_result _ d2 s1 E2), depthUpdateShared_installed.
    reflexivity.
  - intros pre z post. apply depthUpdateShared_detached.
Qed.

(** ** The order-book screen *)

Lemma withTotal_shape :
  forall l acc,
    map row_price (fst (withTotal acc l)) = map fst l /\
    map row_amount (fst (withTotal acc l)) = map snd l /\
    snd (withTotal acc l) = fold_left (fun sum x => sum + snd x) l acc.
Proof.
  induction l as [| [p a] l IH]; intros acc; cbn [withTotal].
  - repeat split.
  - destruct (IH (acc + a)) as (E1 & E2 & E3).
    destruct (withTotal (acc + a) l) as [rows final].
    cbn [fst snd map row_price row_amount fold_left] in *.
    rewrite E1, E2, E3. repeat split.
Qed.

Lemma withTotal_bounds :
  forall l acc,
    sizes_nonneg l ->
    acc <= snd (withTotal acc l) /\
    Forall (fun row => acc <= row_total row /\
                       row_total row <= snd (withTotal acc l))
      (fst (withTotal acc l)).
Proof.
  induction l as [| [p a] l IH]; intros acc H; cbn [withTotal].
  - split; [cbn; lra | constructor].
  - inversion H as [| ? ? Ha Hl]; subst. cbn [snd] in Ha.
    destruct (IH (acc + a) Hl) as [B1 B2].
    destruct (withTotal (acc + a) l) as [rows final].
    cbn [fst snd] in *. split; [lra |].
    constructor; [cbn [row_total]; split; lra |].
    eapply Forall_impl; [| exact B2].
    cbn beta. intros row [R1 R2]. split; lra.
Qed.

Lemma sizes_nonneg_slice :
  forall n l, sizes_nonneg l -> sizes_nonneg (slice0 n l).
Proof.
  intros n l H. unfold sizes_nonneg, slice0 in *.
  rewrite <- (firstn_skipn n l) in H. apply Forall_app in H. apply H.
Qed.

Lemma Math_max_bounds :
  forall a b, a <= Math_max a b /\ b <= Math_max a b.
Proof.
  intros a b. unfold Math_max. destruct (Qle_bool a b) eqn:E.
  - apply Qle_bool_iff in E. split; lra.
  - destruct (Qlt_le_dec b a) as [H | H]; [split; lra |].
    apply Qle_bool_iff in H. congruence.
Qed.

Lemma percentage_bounds :
  forall total maxTotal,
    0 <= total -> total <= maxTotal -> 0 < maxTotal ->
    0 <= percentage total maxTotal /\ percentage total maxTotal <= 100.
Proof.
  intros total maxTotal H0 H1 Hm. unfold percentage.
  assert (A : 0 <= total / maxTotal) by (apply Qle_shift_div_l; lra).
  assert (B : total / maxTotal <= 1) by (apply Qle_shift_div_r; lra).
  split; nra.
Qed.

(** X16.  The depth table of a book whose sizes are not negative: at most
    15 rows a side, taken from the top of the side with their prices and
    sizes; every running total lies between 0 and [maxTotal], so that,
    when [maxTotal] is positive, the bar of every row is between 0 and 100
    per cent wide.  Without a book the table is empty and [maxTotal] is
    0. *)
Theorem depth_rows_bounded :
  depthRows None = mkDepthRows [] [] 0 /\
  forall ob,
    sizes_nonneg (bids ob) -> sizes_nonneg (asks ob) ->
    let d := depthRows (Some ob) in
    map row_price (bidsWithTotal d) = map fst (firstn 15 (bids ob)) /\
    map row_amount (bidsWithTotal d) = map snd (firstn 15 (bids ob)) /\
    map row_price (asksWithTotal d) = map fst (firstn 15 (asks ob)) /\
    map row_amount (asksWithTotal d) = map snd (firstn 15 (asks ob)) /\
    (List.length (bidsWithTotal d) <= 15)%nat /\
    (List.length (asksWithTotal d) <= 15)%nat /\
    forall row,
      In row (bidsWithTotal d) \/ In row (asksWithTotal d) ->
      0 <= row_total row /\ row_total row <= maxTotal d /\
      (0 < maxTotal d ->
       0 <= percentage (row_total row) (maxTotal d) /\
       percentage (row_total row) (maxTotal d) <= 100).
Proof.
  split; [reflexivity |].
  intros ob Hb Ha d. subst d. unfold depthRows.
  destruct (withTotal_shape (slice0 15 (bids ob)) 0) as (B1 & B2 & _).
  destruct (withTotal_shape (slice0 15 (asks ob)) 0) as (A1 & A2 & _).
  destruct (withTotal_bounds (slice0 15 (bids ob)) 0
              (sizes_nonneg_slice 15 _ Hb)) as [B3 B4].
  destruct (withTotal_bounds (slice0 15 (asks ob)) 0
              (sizes_nonneg_slice 15 _ Ha)) as [A3 A4].
  destruct (withTotal 0 (slice0 15 (bids ob))) as [brows bidTotal].
  destruct (withTotal 0 (slice0 15 (asks ob))) as [arows askTotal].
  cbn [fst snd bidsWithTotal asksWithTotal maxTotal] in *.
  unfold slice0 in *.
  split; [exact B1 | split; [exact B2 | split; [exact A1 | split; [exact A2 |]]]].
  split.
  { apply (f_equal (@List.length number)) in B1.
    rewrite !length_map in B1. rewrite B1. apply firstn_le_length. }
  split.
  { apply (f_equal (@List.length number)) in A1.
    rewrite !length_map in A1. rewrite A1. apply firstn_le_length. }
  destruct (Math_max_bounds bidTotal askTotal) as [M1 M2].
  rewrite Forall_forall in B4, A4.
  intros row [Hr | Hr];
    [destruct (B4 row Hr) as [R1 R2] | destruct (A4 row Hr) as [R1 R2]];
    (split; [exact R1 |]; split; [lra |];
     intros Hm; apply percentage_bounds; lra).
Qed.

(** X17.  The spread shown in the header.  Without a book, or with a side
    that has no level, spread and spread percentage are 0.  With a best
    bid that is positive and below the best ask, the spread is their
    difference and positive, and the percentage, taken of the mid price,
    lies strictly between 0 and 200. *)
Theorem spread_of_book :
  (spread None = 0 /\ spreadPercentage None = 0) /\
  (forall ob,
      bids ob = [] \/ asks ob = [] ->
      spread (Some ob) = 0 /\ spreadPercentage (Some ob) = 0) /\
  (forall ob a ra b rb,
      asks ob = a :: ra -> bids ob = b :: rb ->
      0 < fst b -> fst b < fst a ->
      spread (Some ob) = fst a - fst b /\
      0 < spread (Some ob) /\
      0 < spreadPercentage (Some ob) /\
      spreadPercentage (Some ob) < 200).
Proof.
  split; [split; reflexivity |]. split.
  - intros ob [E | E]; unfold spread, spreadPercentage; rewrite E;
      destruct (asks ob); destruct (bids ob); split; reflexivity.
  - intros ob a ra b rb Ea Eb Hb Hab.
    unfold spreadPercentage, spread. rewrite Ea, Eb.
    split; [reflexivity |]. split; [lra |].
    set (m := (fst a + fst b) / 2).
    assert (Hm : m == (fst a + fst b) * (1 # 2)) by (subst m; field).
    assert (Hp : 0 < m) by lra.
    assert (A : 0 < (fst a - fst b) / m) by (apply Qlt_shift_div_l; lra).
    assert (B : (fst a - fst b) / m < 2) by (apply Qlt_shift_div_r; lra).
    split; nra.
Qed.

(** X18.  The ask list reverses the memoised rows in place on every
    render.  A render hands the list the rows in reverse order and leaves
    them reversed in the memo; a second render of the same memo hands over
    the original order and puts the memo back as it was.  Bid rows and
    [maxTotal] are not touched. *)
Theorem asks_flip_between_renders :
  forall memo,
    let first := displayAsks memo in
    let second := displayAsks (snd first) in
    fst first = rev (asksWithTotal memo) /\
    asksWithTotal (snd first) = rev (asksWithTotal memo) /\
    fst second = asksWithTotal memo /\
    snd second = memo /\
    bidsWithTotal (snd first) = bidsWithTotal memo /\
    maxTotal (snd first) = maxTotal memo.
Proof.
  intros [bs rows m]. unfold displayAsks.
  cbn [fst snd asksWithTotal bidsWithTotal maxTotal].
  rewrite rev_involutive. repeat split.
Qed.

(** ** The heatmap screen *)

Lemma slice_last_length :
  forall (A : Type) (n : nat) (l : list A),
    List.length (slice_last n l) = Nat.min n (List.length l).
Proof.
  intros A n l. unfold slice_last. rewrite length_skipn. lia.
Qed.

Lemma slice_last_app :
  forall (A : Type) (n : nat) (l m : list A),
    slice_last n (slice_last n l ++ m) = slice_last n (l ++ m).
Proof.
  intros A n l m. unfold slice_last.
  rewrite !length_app, length_skipn.
  destruct (Nat.le_gt_cases (List.length l) n) as [H | H].
  - replace (List.length l - n)%nat with 0%nat by lia.
    cbn [skipn]. rewrite Nat.sub_0_r. reflexivity.
  - rewrite !skipn_app, length_skipn, skipn_skipn.
    f_equal; f_equal; lia.
Qed.

Lemma slice_last_all :
  forall (A : Type) (n : nat) (l : list A),
    (List.length l <= n)%nat -> slice_last n l = l.
Proof.
  intros A n l H. unfold slice_last.
  replace (List.length l - n)%nat with 0%nat by lia. reflexivity.
Qed.

Lemma slice_last_last :
  forall (A : Type) (n : nat) (l : list A) (x : A),
    (0 < n)%nat -> exists l', slice_last n (l ++ [x]) = l' ++ [x].
Proof.
  intros A n l x Hn. unfold slice_last.
  rewrite length_app. cbn [List.length].
  rewrite skipn_app.
  replace (List.length l + 1 - n - List.length l)%nat with 0%nat by lia.
  cbn [skipn]. eexists. reflexivity.
Qed.

Lemma heatmapEffect_data :
  forall ob now st,
    heatmapData (heatmapEffect (Some ob) now st)
    = slice_last 60 (heatmapData st ++ [newColumn ob now]).
Proof.
  intros ob now st. unfold heatmapEffect.
  destruct (map cell_price (newColumn ob now)); reflexivity.
Qed.

Lemma heatmapRuns_data :
  forall runs st,
    heatmapData (heatmapRuns runs st)
    = slice_last 60
        (heatmapData st ++ map (fun p => newColumn (fst p) (snd p)) runs)
    \/ runs = [].
Proof.
  induction runs as [| [ob now] runs IH]; intros st;
    [right; reflexivity | left].
  unfold heatmapRuns. cbn [fold_left fst snd].
  fold (heatmapRuns runs (heatmapEffect (Some ob) now st)).
  destruct (IH (heatmapEffect (Some ob) now st)) as [E | E].
  - rewrite E, heatmapEffect_data, slice_last_app.
    cbn [map fst snd]. rewrite <- app_assoc. reflexivity.
  - subst runs. cbn [heatmapRuns fold_left map fst snd].
    apply heatmapEffect_data.
Qed.

(** X19.  The heatmap keeps the last 60 columns.  One run of the effect
    appends the column of the new book at the end and keeps at most 60;
    a run without a book changes nothing.  After any number of runs on a
    history of at most 60 columns the history is the last 60 of the old
    columns followed by the new ones, oldest first. *)
Theorem heatmap_history_capped :
  (forall now st, heatmapEffect None now st = st) /\
  (forall ob now st,
      (List.length (heatmapData (heatmapEffect (Some ob) now st)) <= 60)%nat /\
      exists older,
        heatmapData (heatmapEffect (Some ob) now st)
        = older ++ [newColumn ob now]) /\
  (forall runs st,
      (List.length (heatmapData st) <= 60)%nat ->
      heatmapData (heatmapRuns runs st)
      = slice_last 60
          (heatmapData st ++ map (fun p => newColumn (fst p) (snd p)) runs) /\
      (List.length (heatmapData (heatmapRuns runs st)) <= 60)%nat).
Proof.
  split; [reflexivity |]. split.
  - intros ob now st. rewrite heatmapEffect_data. split.
    + rewrite slice_last_length. lia.
    + apply slice_last_last. lia.
  - intros runs st H.
    assert (E : heatmapData (heatmapRuns runs st)
                = slice_last 60
                    (heatmapData st
                     ++ map (fun p => newColumn (fst p) (snd p)) runs)).
    { destruct (heatmapRuns_data runs st) as [E | E]; [exact E |].
      subst runs. cbn [heatmapRuns fold_left map]. rewrite app_nil_r.
      symmetry. apply slice_last_all. exact H. }
    split; [exact E |]. rewrite E, slice_last_length. lia.
Qed.

Lemma fold_Math_min :
  forall l p,
    fold_left Math_min l p <= p /\
    Forall (fun x => fold_left Math_min l p <= x) l /\
    (fold_left Math_min l p = p \/ In (fold_left Math_min l p) l).
Proof.
  induction l as [| x l IH]; intros p; cbn [fold_left].
  - split; [lra | split; [constructor | left; reflexivity]].
  - destruct (IH (Math_min p x)) as (A & B & C).
    assert (M : Math_min p x <= p /\ Math_min p x <= x /\
                (Math_min p x = p \/ Math_min p x = x)).
    { unfold Math_min. destruct (Qle_bool p x) eqn:E.
      - apply Qle_bool_iff in E. split; [lra | split; [lra | left; reflexivity]].
      - destruct (Qlt_le_dec x p) as [H | H].
        + split; [lra | split; [lra | right; reflexivity]].
        + apply Qle_bool_iff in H. congruence. }
    destruct M as (M1 & M2 & M3).
    split; [lra |]. split.
    + constructor; [lra | exact B].
    + destruct C as [C | C]; [| right; right; exact C].
      rewrite C. destruct M3 as [M3 | M3]; [left | right; left]; congruence.
Qed.

Lemma fold_Math_max :
  forall l p,
    p <= fold_left Math_max l p /\
    Forall (fun x => x <= fold_left Math_max l p) l /\
    (fold_left Math_max l p = p \/ In (fold_left Math_max l p) l).
Proof.
  induction l as [| x l IH]; intros p; cbn [fold_left].
  - split; [lra | split; [constructor | left; reflexivity]].
  - destruct (IH (Math_max p x)) as (A & B & C).
    destruct (Math_max_bounds p x) as [M1 M2].
    assert (M3 : Math_max p x = p \/ Math_max p x = x)
      by (unfold Math_max; destruct (Qle_bool p x); auto).
    split; [lra |]. split.
    + constructor; [lra | exact B].
    + destruct C as [C | C]; [| right; right; exact C].
      rewrite C. destruct M3 as [M3 | M3]; [left | right; left]; congruence.
Qed.

(** X20.  The column the effect builds holds at most 40 cells, the bids of
    the top 20 levels first and then the asks, all stamped with the same
    clock reading.  When the column is not empty the price range is set to
    its lowest and highest price: both are prices of the column and every
    cell of the column lies between them.  When they differ, the rectangle
    of a cell has its lower edge inside the drawing area, but its upper
    edge may lie above it by up to one cell height: a cell at the lowest
    price sits on the lower edge of the area, and the rectangle of a cell
    at the highest price lies wholly above the area, its lower edge on the
    upper edge of the area.  When the column is empty the range stays as
    it was. *)
Theorem heatmap_column_placement :
  forall ob now st CHART_HEIGHT,
    0 <= CHART_HEIGHT ->
    let column := newColumn ob now in
    let range := priceRange (heatmapEffect (Some ob) now st) in
    (List.length column <= 40)%nat /\
    map cell_price column
    = map fst (firstn 20 (bids ob)) ++ map fst (firstn 20 (asks ob)) /\
    map cell_type column
    = map (fun _ => BidSide) (firstn 20 (bids ob))
      ++ map (fun _ => AskSide) (firstn 20 (asks ob)) /\
    Forall (fun cell => timestamp cell = now) column /\
    (column = [] -> range = priceRange st) /\
    (column <> [] ->
     In (fst range) (map cell_price column) /\
     In (snd range) (map cell_price column) /\
     forall cell,
       In cell column ->
       fst range <= cell_price cell /\ cell_price cell <= snd range /\
       (fst range < snd range ->
        - cellHeight CHART_HEIGHT <= rectY CHART_HEIGHT range cell /\
        0 <= rectY CHART_HEIGHT range cell + cellHeight CHART_HEIGHT /\
        rectY CHART_HEIGHT range cell + cellHeight CHART_HEIGHT
        <= CHART_HEIGHT /\
        (cell_price cell == fst range ->
         rectY CHART_HEIGHT range cell + cellHeight CHART_HEIGHT
         == CHART_HEIGHT) /\
        (cell_price cell == snd range ->
         rectY CHART_HEIGHT range cell + cellHeight CHART_HEIGHT == 0))).
Proof.
  intros ob now st H Hh column range. subst range column.
  unfold heatmapEffect, newColumn, slice0.
  set (bs := firstn 20 (bids ob)). set (asx := firstn 20 (asks ob)).
  split.
  { rewrite length_app, !length_map. subst bs asx.
    apply (Nat.add_le_mono _ 20 _ 20); apply firstn_le_length. }
  split; [rewrite map_app, !map_map; reflexivity |].
  split; [rewrite map_app, !map_map; reflexivity |].
  split.
  { apply Forall_app. split; apply Forall_forall; intros cell Hc;
      apply in_map_iff in Hc; destruct Hc as (l & <- & _); reflexivity. }
  match goal with
  | |- (?c = [] -> _) /\ _ => set (column := c)
  end.
  destruct (map cell_price column) as [| p ps] eqn:E.
  - split; [reflexivity |]. intros Hne. exfalso. apply Hne.
    destruct column; [reflexivity | discriminate E].
  - split; [intros E0; rewrite E0 in E; discriminate E |].
    intros _. cbn [priceRange fst snd].
    destruct (fold_Math_min ps p) as (A1 & A2 & A3).
    destruct (fold_Math_max ps p) as (B1 & B2 & B3).
    split; [destruct A3 as [-> | A3]; [left; reflexivity | right; exact A3] |].
    split; [destruct B3 as [-> | B3]; [left; reflexivity | right; exact B3] |].
    intros cell Hc. apply (in_map cell_price) in Hc. rewrite E in Hc.
    rewrite Forall_forall in A2, B2.
    assert (L : fold_left Math_min ps p <= cell_price cell)
      by (destruct Hc as [<- | Hc]; [exact A1 | apply A2; exact Hc]).
    assert (U : cell_price cell <= fold_left Math_max ps p)
      by (destruct Hc as [<- | Hc]; [exact B1 | apply B2; exact Hc]).
    split; [exact L | split; [exact U |]].
    intros Hlt. unfold rectY, cellHeight, cellY. cbn [fst snd].
    set (lo := fold_left Math_min ps p) in *.
    set (hi := fold_left Math_max ps p) in *.
    assert (F0 : 0 <= (cell_price cell - lo) / (hi - lo))
      by (apply Qle_shift_div_l; lra).
    assert (F1 : (cell_price cell - lo) / (hi - lo) <= 1)
      by (apply Qle_shift_div_r; lra).
    set (f := (cell_price cell - lo) / (hi - lo)) in *.
    assert (E1 : H - f * H - H / 40 + H / 40 == H - f * H) by field.
    split; [nra |]. split; [nra |]. split; [nra |]. split.
    + intros Ep. rewrite E1.
      assert (Ef : f == 0) by (subst f; rewrite Ep; field; lra).
      rewrite Ef. ring.
    + intros Ep. rewrite E1.
      assert (Ef : f == 1) by (subst f; rewrite Ep; field; lra).
      rewrite Ef. ring.
Qed.

Lemma maxAmount_bounds :
  forall data,
    1 <= maxAmount data /\
    forall cell, In cell (concat data) -> cell_amount cell <= maxAmount data.
Proof.
  intros data. unfold maxAmount.
  induction (concat data) as [| c l IH]; cbn [map fold_right].
  - split; [lra | intros cell []].
  - destruct IH as [I1 I2].
    destruct (Math_max_bounds (cell_amount c)
                (fold_right Math_max 1 (map cell_amount l))) as [M1 M2].
    split; [lra |].
    intros cell [<- | Hc]; [exact M1 |].
    specialize (I2 cell Hc). lra.
Qed.

(** X21.  The colour of a heatmap cell.  [maxAmount] is at least 1 and at
    least the size of every cell, so the division in [getColorIntensity]
    is never by 0; for a cell whose size is not negative the intensity is
    a whole number between 0 and 255. *)
Theorem heatmap_intensity_in_range :
  forall data cell,
    In cell (concat data) -> 0 <= cell_amount cell ->
    1 <= maxAmount data /\
    cell_amount cell <= maxAmount data /\
    exists k : Z,
      getColorIntensity (cell_amount cell) (maxAmount data) = inject_Z k /\
      (0 <= k <= 255)%Z.
Proof.
  intros data cell Hc Ha.
  destruct (maxAmount_bounds data) as [M1 M2]. specialize (M2 cell Hc).
  split; [exact M1 | split; [exact M2 |]].
  unfold getColorIntensity, Math_floor. eexists. split; [reflexivity |].
  set (m := maxAmount data) in *.
  assert (F0 : 0 <= cell_amount cell / m) by (apply Qle_shift_div_l; lra).
  assert (I : 0 <= Math_min (cell_amount cell / m) 1 /\
              Math_min (cell_amount cell / m) 1 <= 1).
  { unfold Math_min. destruct (Qle_bool (cell_amount cell / m) 1) eqn:E.
    - apply Qle_bool_iff in E. split; lra.
    - split; lra. }
  destruct I as [I0 I1]. split.
  - apply le_Qfloor. change (inject_Z 0) with 0. nra.
  - assert (Hq : Math_min (cell_amount cell / m) 1 * 255 <= inject_Z 255)
      by (change (inject_Z 255) with 255; nra).
    apply Qfloor_resp_le in Hq. rewrite Qfloor_Z in Hq. exact Hq.
Qed.

(** X22.  The zoom buttons.  From a scale between 0.5 and 3 both targets
    stay between 0.5 and 3; zooming in never lowers the scale, zooming out
    never raises it, and at the ends of the range the scale stays put. *)
Theorem zoom_stays_in_range :
  forall scale,
    (1 # 2) <= scale -> scale <= 3 ->
    ((1 # 2) <= zoomIn scale /\ zoomIn scale <= 3 /\ scale <= zoomIn scale) /\
    ((1 # 2) <= zoomOut scale /\ zoomOut scale <= 3 /\ zoomOut scale <= scale) /\
    zoomIn 3 == 3 /\ zoomOut (1 # 2) == (1 # 2).
Proof.
  intros scale H0 H1. unfold zoomIn, zoomOut, Math_min, Math_max.
  split; [| split; [| split; reflexivity]].
  - destruct (Qle_bool (scale * (12 # 10)) 3) eqn:E.
    + apply Qle_bool_iff in E. repeat split; lra.
    + repeat split; lra.
  - destruct (Qle_bool (scale * (8 # 10)) (1 # 2)) eqn:E.
    + repeat split; lra.
    + destruct (Qlt_le_dec (1 # 2) (scale * (8 # 10))) as [H | H].
      * repeat split; lra.
      * apply Qle_bool_iff in H. congruence.
Qed.

(** ** The settings screen *)

Lemma upper_ascii_not_lower :
  forall c,
    (Nat.leb 97 (nat_of_ascii (upper_ascii c))
     && Nat.leb (nat_of_ascii (upper_ascii c)) 122)%bool = false.
Proof.
  intros [[] [] [] [] [] [] [] []]; reflexivity.
Qed.

Lemma toUpperCase_no_lower : forall s, no_lower (toUpperCase s).
Proof.
  induction s as [| c s IH]; cbn [toUpperCase no_lower]; [exact I |].
  split; [apply upper_ascii_not_lower | exact IH].
Qed.

Lemma stripUSDT_no_lower : forall s, no_lower s -> no_lower (stripUSDT s).
Proof.
  induction s as [| c s IH]; intros H; [exact I |].
  cbn [stripUSDT]. destruct (String.eqb (String c s) "USDT"); [exact I |].
  cbn [no_lower] in *. split; [apply H | apply IH; apply H].
Qed.

Lemma string_length_append :
  forall s t : string,
    String.length (s ++ t) = (String.length s + String.length t)%nat.
Proof.
  induction s as [| c s IH]; intros t; cbn; [reflexivity |].
  rewrite IH. reflexivity.
Qed.

Lemma toUpperCase_length :
  forall s, String.length (toUpperCase s) = String.length s.
Proof.
  induction s as [| c s IH]; cbn; [reflexivity |]. rewrite IH. reflexivity.
Qed.

Lemma toUpperCase_append :
  forall s t : string,
    toUpperCase (s ++ t) = (toUpperCase s ++ toUpperCase t)%string.
Proof.
  induction s as [| c s IH]; intros t; cbn; [reflexivity |].
  rewrite IH. reflexivity.
Qed.

Lemma stripUSDT_suffix :
  forall s : string, stripUSDT (s ++ "USDT") = s.
Proof.
  induction s as [| c s IH]; [reflexivity |].
  change (String c s ++ "USDT")%string with (String c (s ++ "USDT")).
  cbn [stripUSDT]. rewrite IH.
  destruct (String.eqb (String c (s ++ "USDT")) "USDT") eqn:E;
    [| reflexivity].
  apply String.eqb_eq in E. apply (f_equal String.length) in E.
  cbn [String.length] in E. rewrite string_length_append in E.
  cbn [String.length] in E. lia.
Qed.

Lemma reconnect_selection :
  forall c w,
    provider (react (reconnect c w)) = provider (react w) /\
    symbol (react (reconnect c w)) = symbol (react w) /\
    assetType (react (reconnect c w)) = assetType (react w).
Proof.
  intros c w. unfold reconnect.
  match goal with
  | |- context [connect c ?x] =>
      destruct (connect_selection c x) as (P & S & A);
      assert (R : react x = react w)
        by (destruct (reconnectTimeout (refs w));
            [apply clearTimer_react | reflexivity])
  end.
  rewrite P, S, A, R. auto.
Qed.

(** X23.  A symbol typed by hand.  A text that is empty or blank changes
    nothing.  Any other text empties the field and becomes the symbol in
    upper case, as typed otherwise: for crypto blanks around it are kept,
    so the symbol is as long as the text; for stocks one closing [USDT] is
    cut off.  The symbol set never contains a lower-case letter. *)
Theorem custom_symbol_submit :
  forall customSymbol w,
    (trim customSymbol = EmptyString ->
     handleCustomSymbolSubmit customSymbol w = (customSymbol, w)) /\
    (trim customSymbol <> EmptyString ->
     let r := handleCustomSymbolSubmit customSymbol w in
     fst r = EmptyString /\
     symbol (react (snd r))
     = match c_assetType (rendered w) with
       | Crypto => toUpperCase customSymbol
       | Stock => stripUSDT (toUpperCase customSymbol)
       end /\
     no_lower (symbol (react (snd r))) /\
     (c_assetType (rendered w) = Crypto ->
      String.length (symbol (react (snd r))) = String.length customSymbol)) /\
    (forall t : string,
        stripUSDT (toUpperCase (t ++ "usdt")) = toUpperCase t).
Proof.
  intros customSymbol w. unfold handleCustomSymbolSubmit. split; [| split].
  - intros E. rewrite E. reflexivity.
  - intros Hne. apply String.eqb_neq in Hne. rewrite Hne.
    cbn [fst snd]. unfold handleSymbolChange.
    match goal with
    | |- context [reconnect ?c ?x] =>
        destruct (reconnect_selection c x) as (_ & S & _)
    end.
    rewrite S. cbn [react on_react symbol setSymbol].
    split; [reflexivity | split; [reflexivity |]].
    split.
    + destruct (c_assetType (rendered w));
        [| apply stripUSDT_no_lower]; apply toUpperCase_no_lower.
    + intros A. rewrite A. apply toUpperCase_length.
  - intros t. rewrite toUpperCase_append. apply stripUSDT_suffix.
Qed.






(** What [connect] does under Binance for crypto, from any state. *)
Lemma connect_binance_spec :
  forall c w,
    c_provider c = Binance -> c_assetType c = Crypto ->
    react (connect c w) = react w /\
    ws (refs (connect c w)) = Some (List.length (sockets (host w))) /\
    List.length (sockets (host (connect c w)))
    = S (List.length (sockets (host w))) /\
    nth_error (sockets (host (connect c w))) (List.length (sockets (host w)))
    = Some (mkSocket
              ("wss://stream.binance.com:443/stream?streams="
               ++ toLowerCase (c_symbol c) ++ "@depth@100ms/"
               ++ toLowerCase (c_symbol c) ++ "@trade")
              c CONNECTING) /\
    timers (host (connect c w)) = timers (host (connect_teardown w)).
Proof.
  intros c w P A.
  destruct (connect_teardown_frame w) as (R & F & Hs & T).
  rewrite connect_cases, P, A.
  set (w2 := connect_teardown w) in *.
  unfold connectBinance, newWebSocket.
  cbn [react refs host on_refs on_host timers sockets set_sockets ws set_ws].
  unfold push. rewrite length_app, Nat.add_comm. cbn [List.length Nat.add].
  rewrite Hs.
  split; [exact R | split; [reflexivity | split; [reflexivity |]]].
  split; [| reflexivity].
  rewrite <- Hs. rewrite nth_error_app2 by lia.
  rewrite Nat.sub_diag. reflexivity.
Qed.

Lemma connect_teardown_timers :
  forall w t tm,
    nth_error (timers (host (connect_teardown w))) t = Some tm ->
    exists tm0,
      nth_error (timers (host w)) t = Some tm0 /\ kind tm = kind tm0 /\
      (active tm = true -> active tm0 = true).
Proof.
  intros w t tm. unfold connect_teardown.
  set (w1 := match ws (refs w) with Some _ => _ | None => w end).
  assert (T1 : timers (host w1) = timers (host w)).
  { subst w1. destruct (ws (refs w)) as [i |]; [| reflexivity].
    destruct (readyState_of i w) as [[| | |] |]; try reflexivity.
    apply close_timers. }
  destruct (demoInterval (refs w1)) as [d |]; intros H.
  - rewrite timers_clearTimer, T1 in H.
    destruct (clear_at_nth _ _ _ _ H) as (tm0 & H0 & Hk & Ha).
    exists tm0. split; [exact H0 | split; [exact Hk |]].
    intros A. apply Ha. exact A.
  - rewrite T1 in H. exists tm. auto.
Qed.

(** X25.  The reconnect timer reconnects with what the closed socket had
    captured.  When a pending reconnect timer of a socket made for Binance
    and crypto fires, a new socket to Binance is opened and becomes
    [ws.current], whatever provider is selected by then; the selection and
    the other state cells are not changed, and the timer does not fire
    again. *)
Theorem reconnect_timer_uses_captured_selection :
  forall w t c,
    nth_error (timers (host w)) t = Some (mkTimer (ReconnectTimer c) true) ->
    c_provider c = Binance -> c_assetType c = Crypto ->
    let w' := step (TimerFire t) w in
    react w' = react w /\
    ws (refs w') = Some (List.length (sockets (host w))) /\
    nth_error (sockets (host w')) (List.length (sockets (host w)))
    = Some (mkSocket
              ("wss://stream.binance.com:443/stream?streams="
               ++ toLowerCase (c_symbol c) ++ "@depth@100ms/"
               ++ toLowerCase (c_symbol c) ++ "@trade")
              c CONNECTING) /\
    exists tm, nth_error (timers (host w')) t = Some tm /\ active tm = false.
Proof.
  intros w t c H P A w'. subst w'. cbn [step]. rewrite H.
  destruct (connect_binance_spec c (clearTimer t w) P A)
    as (R & W & _ & N & T).
  rewrite clearTimer_react in R. rewrite clearTimer_sockets in W, N.
  split; [exact R | split; [exact W | split; [exact N |]]].
  rewrite T.
  assert (L : (t < List.length (timers (host (connect_teardown (clearTimer t w)))))%nat).
  { destruct (connect_teardown_frame (clearTimer t w)) as (_ & _ & _ & Lt).
    rewrite Lt, timers_clearTimer. unfold clear_at. rewrite H.
    rewrite array_set_length. apply nth_error_Some. congruence. }
  apply nth_error_Some in L.
  destruct (nth_error (timers (host (connect_teardown (clearTimer t w)))) t)
    as [tm |] eqn:E; [| congruence].
  exists tm. split; [reflexivity |].
  destruct (active tm) eqn:Act; [exfalso | reflexivity].
  destruct (connect_teardown_timers _ _ _ E) as (tm0 & H0 & _ & Ha).
  rewrite timers_clearTimer in H0.
  destruct (clear_at_nth _ _ _ _ H0) as (tm1 & _ & _ & Hb).
  destruct (Hb (Ha Act)) as [_ Hne]. congruence.
Qed.

End Provider.

(** ** The code at concrete inputs *)

(** C1.  The ask levels of a depth update are never read.  On the book
    with the single ask [[101, 5]], the update that sends ask price
    [101.00] with size [0] leaves that ask in the book: the resulting book
    is the one before. *)
Theorem ask_of_size_zero_stays :
  parseDecimal "0" == 0 /\
  data_a depth0 = [("101.00"%string, "0"%string)] /\
  processOrderBookUpdate parseDecimal (Some book0) Binance depth0 state0
  = Ok (setOrderBook book0 state0) /\
  exists l, In l (asks book0) /\ fst l == parseDecimal "101.00".
Proof.
  split; [reflexivity |]. split; [reflexivity |]. split; [reflexivity |].
  exists (101, 5). split; [left; reflexivity | reflexivity].
Qed.

Lemma strictly_descending_head :
  forall x y l, strictly_descending (x :: y :: l) -> fst y < fst x.
Proof.
  intros x y l H. inversion H as [| ? ? _ Hf]; subst.
  inversion Hf; subst. assumption.
Qed.

(** C2 as stated fails.  With base price 99.954993, which a demo tick
    around the default base price 100 can draw, the first two bids both
    round to 99.94; a snapshot whose bids arrive in ascending order is
    stored in that order; and a depth update of a book that has one bid
    price twice keeps both levels. *)
Lemma demo_and_snapshot_not_strictly_sorted :
  ~ book_sorted (fst (generateDemoOrderBook (99954993 # 1000000) 0 rng0)) /\
  ~ book_sorted (processedSnapshot parseDecimal snapshot0) /\
  (exists nb,
      processOrderBookUpdate parseDecimal (Some book1) Binance depth0 state0
      = Ok (setOrderBook nb state0) /\
      ~ book_sorted nb).
Proof.
  split; [| split]; [| | exists book1; split; [reflexivity |]]; intros [H _].
  - assert (E : map fst (firstn 2
                  (bids (fst (generateDemoOrderBook (99954993 # 1000000) 0 rng0))))
                = [9994 # 100; 9994 # 100]) by (vm_compute; reflexivity).
    destruct (bids (fst (generateDemoOrderBook (99954993 # 1000000) 0 rng0)))
      as [| x [| y l]]; try discriminate E.
    apply strictly_descending_head in H.
    cbn [firstn map] in E. injection E as E1 E2.
    rewrite E1, E2 in H. revert H. apply Qlt_irrefl.
  - apply strictly_descending_head in H. vm_compute in H. discriminate H.
  - apply strictly_descending_head in H. vm_compute in H. discriminate H.
Qed.

(** C5 as stated fails.  Same symbol, same random stream, two clock
    readings: the two books differ, and so do the two trades. *)
Lemma same_seed_different_clock :
  fst (generateDemoOrderBook (demoBasePrice "BTCUSDT") 1000 rng0)
  <> fst (generateDemoOrderBook (demoBasePrice "BTCUSDT") 2000 rng0) /\
  fst (generateDemoTrade (demoBasePrice "BTCUSDT") 0 1000 rng0)
  <> fst (generateDemoTrade (demoBasePrice "BTCUSDT") 0 2000 rng0).
Proof.
  split; intros H.
  - apply (f_equal lastUpdateId) in H.
    destruct (generateDemoOrderBook_prices (demoBasePrice "BTCUSDT") 1000 rng0)
      as (_ & _ & E1).
    destruct (generateDemoOrderBook_prices (demoBasePrice "BTCUSDT") 2000 rng0)
      as (_ & _ & E2).
    rewrite E1, E2 in H. discriminate H.
  - apply (f_equal time) in H. vm_compute in H. discriminate H.
Qed.

(** C7 as stated fails.  A depth update applied to a book whose identifier
    is 7 yields a book whose identifier is 7 again, not a greater one. *)
Lemma depth_update_keeps_lastUpdateId :
  exists nb,
    processOrderBookUpdate parseDecimal (Some book0) Binance depth0 state0
    = Ok (setOrderBook nb state0) /\
    lastUpdateId book0 = 7 /\
    ~ lastUpdateId book0 < lastUpdateId nb.
Proof.
  exists book0. split; [reflexivity |]. split; [reflexivity |].
  apply Qlt_irrefl.
Qed.

(** C8.  From the first render the user picks Binance and then, before
    the socket has opened, the demo provider again.  [reconnect] runs with
    the closure of the Binance render: [connect] does not close a socket
    that is still connecting and opens a second one, which becomes
    [ws.current]; the clean-up of the effect closes only that one.  The
    first socket stays alive next to the demo interval, and goes on to
    open.  In the same way a change of symbol leaves two sockets alive. *)
Theorem socket_and_demo_timer_coexist :
  let w := run parseDecimal overlap_trace (mount rng0 0) in
  provider (react w) = Demo /\
  map readyState (sockets (host w)) = [CONNECTING; CLOSING] /\
  ws (refs w) = Some 1%nat /\
  existsb live (sockets (host w)) = true /\
  existsb demo_running (timers (host w)) = true /\
  map readyState (sockets (host (step parseDecimal (SocketOpen 0) w)))
  = [OPEN; CLOSING] /\
  List.length
    (filter live
       (sockets (host (run parseDecimal twin_trace (mount rng0 0))))) = 2%nat.
Proof.
  vm_compute. repeat split; reflexivity.
Qed.

(** C9 as stated fails.  With base price 0.001 every level rounds to
    price 0: the first bid is not below the first ask. *)
Lemma tiny_base_price_no_spread :
  0 < (1 # 1000) /\
  ~ (forall bid ask,
        In bid (bids (fst (generateDemoOrderBook (1 # 1000) 0 rng0))) ->
        In ask (asks (fst (generateDemoOrderBook (1 # 1000) 0 rng0))) ->
        fst bid < fst ask).
Proof.
  split; [reflexivity |]. intros H.
  assert (E1 : nth_error (bids (fst (generateDemoOrderBook (1 # 1000) 0 rng0))) 0
               = Some (0 # 100, 50000 # 100)) by (vm_compute; reflexivity).
  assert (E2 : nth_error (asks (fst (generateDemoOrderBook (1 # 1000) 0 rng0))) 0
               = Some (0 # 100, 50000 # 100)) by (vm_compute; reflexivity).
  apply nth_error_In in E1, E2.
  specialize (H _ _ E1 E2). revert H. apply Qlt_irrefl.
Qed.

(** C10.  The guard of the two callbacks tests the provider their render
    captured, not the provider selected when the message arrives.  After
    the user went from the demo provider to Binance and back before the
    first socket had opened, that socket stays alive and opens; its
    handlers captured Binance.  With the demo provider selected, a depth
    update it delivers replaces the book (20 bids before, 21 after) and a
    trade it delivers is put on the trade list. *)
Theorem stale_handler_ignores_selected_provider :
  let w := run parseDecimal (overlap_trace ++ [SocketOpen 0]) (mount rng0 0) in
  provider (react w) = Demo /\
  map readyState (sockets (host w)) = [OPEN; CLOSING] /\
  map (fun sk => c_provider (handlers sk)) (sockets (host w))
  = [Binance; Binance] /\
  data_e depth1 = "depthUpdate"%string /\ data_e trade0 = "trade"%string /\
  option_map (fun b => List.length (bids b)) (orderBook (react w))
  = Some 20%nat /\
  option_map (fun b => List.length (bids b))
    (orderBook (react (step parseDecimal (SocketMessage 0 depth1) w)))
  = Some 21%nat /\
  provider (react (step parseDecimal (SocketMessage 0 depth1) w)) = Demo /\
  trades (react w) = [] /\
  trades (react (step parseDecimal (SocketMessage 0 trade0) w))
  = [tradeOfMessage parseDecimal trade0].
Proof.
  vm_compute. repeat split; reflexivity.
Qed.

(** ** The theorems at sample inputs *)

Lemma trades_capped_witness :
  processTrade parseDecimal Binance trade0 state0
  = Ok (setTrades (prependTrade (tradeOfMessage parseDecimal trade0)) state0) /\
  appendTrades
    [tradeOfMessage parseDecimal trade0; tradeOfMessage parseDecimal trade0] []
  = firstn 100
      (rev [tradeOfMessage parseDecimal trade0; tradeOfMessage parseDecimal trade0]
       ++ []).
Proof.
  destruct (trades_capped_newest_first parseDecimal) as (H1 & _ & _ & H4).
  split.
  - apply H1; reflexivity.
  - apply H4. simpl. lia.
Defined.

Lemma asset_switch_witness :
  let w' := render (handleAssetTypeChange Stock (mount rng0 0)) in
  provider (react w') = Demo /\
  assetType (react w') = Stock /\
  symbol (react w') = "AAPL"%string.
Proof.
  destruct (asset_switch_resets_selection Stock (mount rng0 0))
    as (P & A & S & _).
  - vm_compute. reflexivity.
  - vm_compute. discriminate.
  - split; [exact P | split; [exact A | exact S]].
Defined.

Lemma unsupported_selection_witness :
  let c := mkClosure Binance Stock "AAPL" None 0 in
  connect c (mount rng0 0) = connect (as_demo c) (mount rng0 0) /\
  isConnected (react (connect c (mount rng0 0))) = true.
Proof.
  destruct (unsupported_selection_falls_back_to_demo
              (mkClosure Binance Stock "AAPL" None 0) (mount rng0 0))
    as (E & C & _).
  - reflexivity.
  - split; [exact E | exact C].
Defined.

Lemma book_order_witness :
  (exists nb,
      processOrderBookUpdate parseDecimal (Some book0) Binance depth0 state0
      = Ok (setOrderBook nb state0) /\
      strictly_descending (bids nb) /\ strictly_ascending (asks nb)) /\
  book_sorted (fst (generateDemoOrderBook 45000 0 rng0)).
Proof.
  destruct (book_order_by_operation parseDecimal) as (H1 & _ & H3 & _).
  split.
  - destruct (H1 book0 depth0 state0) as (nb & E & _ & _ & Hb & Ha).
    + reflexivity.
    + exists nb. split; [exact E |]. split.
      * apply Hb. repeat constructor. intros H. inversion H.
      * apply Ha. repeat constructor. intros H. inversion H.
  - apply H3. discriminate.
Defined.

Lemma lastUpdateId_witness :
  exists nb,
    processOrderBookUpdate parseDecimal (Some book0) Binance depth0 state0
    = Ok (setOrderBook nb state0) /\
    lastUpdateId nb = 7.
Proof.
  destruct (proj1 (lastUpdateId_by_operation parseDecimal) book0 depth0 state0)
    as (nb & E & H).
  - reflexivity.
  - exists nb. split; [exact E | exact H].
Defined.

Lemma demo_book_shape_witness :
  50 <= 45000 /\
  forall bid ask,
    In bid (bids (fst (generateDemoOrderBook 45000 0 rng0))) ->
    In ask (asks (fst (generateDemoOrderBook 45000 0 rng0))) ->
    fst bid < fst ask.
Proof.
  split; [discriminate |].
  apply (proj2 (demo_book_shape 45000 0 rng0)). discriminate.
Defined.

Lemma demo_generation_witness :
  let r2 := mkRNG (fun n => if (n <? 45)%nat then 1 # 2 else 0) 0 in
  fst (generateDemoOrderBook 45000 0 rng0)
  = fst (generateDemoOrderBook 45000 0 r2) /\
  fst (generateDemoTrade 45000 0 0 rng0) = fst (generateDemoTrade 45000 0 0 r2).
Proof.
  intros r2. destruct demo_generation_determined as (H1 & H2). split.
  - apply H1. intros i Hi. subst r2. cbn [draws cursor rng0 Nat.add].
    destruct (Nat.ltb_spec i 45); [reflexivity | lia].
  - apply H2. intros i Hi. subst r2. cbn [draws cursor rng0 Nat.add].
    destruct (Nat.ltb_spec i 45); [reflexivity | lia].
Defined.


(** ** The further properties at sample inputs *)

Lemma market_hours_window_witness :
  isStockMarketOpen 1 9 30 = true /\ isStockMarketOpen 5 16 0 = false.
Proof.
  split.
  - apply (market_hours_window 1 9 30); lia.
  - destruct (isStockMarketOpen 5 16 0) eqn:E; [| reflexivity].
    apply (market_hours_window 5 16 0) in E; lia.
Defined.

Lemma connectDemo_book_witness :
  let c := mkClosure Demo Crypto "PEPEUSDT" None 0 in
  inherited "PEPEUSDT" = false /\
  demoBasePrice "PEPEUSDT" = 100 /\
  exists book,
    orderBook (react (connectDemo c (mount rng0 0))) = Some book /\
    book_sorted book /\ positive_spread book.
Proof.
  intros c.
  destruct (connectDemo_book c (mount rng0 0)) as (N & H).
  assert (I : inherited "PEPEUSDT" = false)
    by (apply N; vm_compute; repeat split; reflexivity).
  split; [exact I |].
  destruct (H I) as ((_ & B) & book & E & Hs & Hp & _).
  split; [apply B; reflexivity |].
  exists book. split; [exact E | split; [exact Hs | exact Hp]].
Defined.

Lemma demoTick_book_witness :
  100 <= 45000 /\
  exists book,
    orderBook (react (demoTick 45000 (mount rng0 0))) = Some book /\
    positive_spread book /\
    List.length (bids book) = 20%nat /\ List.length (asks book) = 20%nat.
Proof.
  split; [discriminate |].
  destruct (demoTick_book 45000 (mount rng0 0))
    as (book & E & Hp & _ & _ & Lb & La).
  - discriminate.
  - vm_compute. discriminate.
  - vm_compute. reflexivity.
  - exists book. split; [exact E | split; [exact Hp | split; [exact Lb | exact La]]].
Defined.

Lemma demo_levels_in_range_witness :
  unit_draws rng0 /\
  Forall (fun x : Level => 0 <= snd x /\ snd x <= 1000)
    (bids (fst (generateDemoOrderBook 45000 0 rng0))) /\
  Forall (fun x : Level => 0 <= fst x)
    (asks (fst (generateDemoOrderBook 45000 0 rng0))).
Proof.
  assert (U : unit_draws rng0)
    by (intros i; split; [discriminate | reflexivity]).
  split; [exact U |].
  destruct (demo_levels_in_range 45000 0 rng0 U) as (Hb & _ & Hp).
  split; [exact Hb |]. apply Hp. discriminate.
Defined.

Lemma demo_trade_in_range_witness :
  unit_draws rng0 /\
  0 <= amount (fst (generateDemoTrade 45000 7 1000 rng0)) /\
  amount (fst (generateDemoTrade 45000 7 1000 rng0)) <= 100 /\
  id (fst (generateDemoTrade 45000 7 1000 rng0)) = "trade-7"%string.
Proof.
  assert (U : unit_draws rng0)
    by (intros i; split; [discriminate | reflexivity]).
  split; [exact U |].
  destruct (demo_trade_in_range 45000 7 1000 rng0 U)
    as (_ & _ & A1 & A2 & I & _).
  - discriminate.
  - split; [exact A1 | split; [exact A2 | exact I]].
Defined.

Lemma market_summary_witness :
  let c := mkClosure Demo Crypto "BTCUSDT" None 0 in
  let b := demoBasePrice "BTCUSDT" in
  exists md',
    marketData (react (demoTick b (connectDemo c (mount rng0 0)))) = Some md' /\
    low md' <= md_price md' /\ md_price md' <= high md'.
Proof.
  intros c b.
  destruct market_summary_within_range as (H1 & H2).
  destruct (H1 c (mount rng0 0)) as (md & E & _ & Hs & _).
  destruct (H2 b (connectDemo c (mount rng0 0)) md)
    as (md' & E' & _ & _ & L & H).
  - discriminate.
  - exact E.
  - exact Hs.
  - vm_compute. discriminate.
  - vm_compute. reflexivity.
  - exists md'. split; [exact E' | split; [exact L | exact H]].
Defined.

Lemma null_book_error_witness :
  exists sk s',
    nth_error
      (sockets (host (run parseDecimal overlap_trace (mount rng0 0)))) 0
    = Some sk /\
    c_orderBook (handlers sk) <> None /\
    onmessage parseDecimal (handlers sk) depth1
      (react (run parseDecimal overlap_trace (mount rng0 0)))
    = Ok s'.
Proof.
  destruct (nth_error
              (sockets (host (run parseDecimal overlap_trace (mount rng0 0))))
              0) as [sk |] eqn:E; [| vm_compute in E; discriminate E].
  destruct (proj2 (null_book_error_unreachable parseDecimal overlap_trace
                     rng0 0) 0%nat sk E) as (G & H).
  destruct (H depth1) as (s' & Hs).
  exists sk, s'. split; [reflexivity | split; [| exact Hs]].
  apply G. vm_compute in E. injection E as <-. reflexivity.
Defined.

Lemma cleanup_shuts_down_witness :
  let w := run parseDecimal binance_trace (mount rng0 0) in
  ws (refs w) = Some 0%nat /\
  exists sk,
    nth_error (sockets (host (cleanup w))) 0 = Some sk /\ live sk = false.
Proof.
  intros w.
  assert (W : ws (refs w) = Some 0%nat) by (vm_compute; reflexivity).
  split; [exact W |].
  destruct (nth_error (sockets (host (cleanup w))) 0) as [sk |] eqn:E;
    [| vm_compute in E; discriminate E].
  exists sk. split; [reflexivity |].
  exact (proj1 (proj2 (proj2 (cleanup_shuts_down w))) 0%nat sk W E).
Defined.

Lemma connect_binance_witness :
  let c := mkClosure Binance Crypto "BTCUSDT" None 0 in
  let w := run parseDecimal [Render] (mount rng0 0) in
  filter demo_running (timers (host (connect c w))) = [] /\
  ws (refs (connect c w)) = Some (List.length (sockets (host w))) /\
  react (connect c w) = react w.
Proof.
  intros c w.
  destruct (connect_binance_from_reachable parseDecimal [Render] rng0 0 c)
    as (F & _ & _ & W & R); [reflexivity | reflexivity |].
  split; [exact F | split; [exact W | exact R]].
Defined.

Lemma depth_updates_shared_witness :
  let c := closure_of state0 in
  exists nb1 nb2 ob2,
    onmessageShared parseDecimal c depth1 state0
    = Ok (setOrderBook nb1 state0, with_book c nb1) /\
    onmessageShared parseDecimal (with_book c nb1) depth0
      (setOrderBook nb1 state0)
    = Ok (setOrderBook nb2 (setOrderBook nb1 state0), with_book c ob2) /\
    bids book0 = [(100, 1)] /\
    bids nb2 = [(100, 1); (parseDecimal "99.00", parseDecimal "3")].
Proof.
  intros c.
  destruct (depth_updates_share_captured_arrays parseDecimal c book0 depth1
              state0 eq_refl eq_refl eq_refl)
    as (nb1 & ob1 & H1 & Hm & _ & _ & Hn & _).
  destruct Hn as (E & H2).
  - intros u [<- | []]. vm_compute. discriminate.
  - subst ob1.
    destruct (H2 depth0 (setOrderBook nb1 state0) eq_refl)
      as (nb2 & ob2 & G1 & G2).
    exists nb1, nb2, ob2.
    split; [exact H1 | split; [exact G1 | split; [reflexivity |]]].
    vm_compute in Hm. injection Hm as Hm. subst nb1.
    vm_compute in G2. injection G2 as G2. subst nb2.
    vm_compute. reflexivity.
Defined.

Lemma depth_update_frame_witness :
  exists nb,
    processOrderBookUpdate parseDecimal (Some book0) Binance depth1 state0
    = Ok (setOrderBook nb state0) /\
    Permutation (asks book0) (asks nb) /\
    In (100, 1) (bids nb).
Proof.
  destruct (depth_update_frame parseDecimal book0 depth1 state0)
    as (nb & E & P & F & _); [reflexivity |].
  exists nb. split; [exact E | split; [exact P |]].
  apply F; [left; reflexivity |].
  intros u [<- | []]. vm_compute. discriminate.
Defined.

Lemma depth_update_distinct_witness :
  exists nb,
    processOrderBookUpdate parseDecimal (Some book0) Binance depth1 state0
    = Ok (setOrderBook nb state0) /\
    distinct_prices (bids nb) /\ distinct_prices (asks nb).
Proof.
  destruct (depth_update_keeps_prices_distinct parseDecimal book0 depth1 state0)
    as (nb & E & Hb & Ha); [reflexivity |].
  exists nb. split; [exact E |]. split.
  - apply Hb. repeat constructor. intros H. inversion H.
  - apply Ha. repeat constructor. intros H. inversion H.
Defined.

Lemma empty_depth_update_witness :
  processOrderBookUpdate parseDecimal (Some book0) Binance depth0 state0
  = Ok (setOrderBook book0 state0).
Proof.
  apply (empty_depth_update_keeps_sorted_book parseDecimal book0 depth0 state0);
    [reflexivity | reflexivity | repeat constructor | repeat constructor].
Defined.

Lemma depth_update_level_count_witness :
  exists nb,
    processOrderBookUpdate parseDecimal (Some book0) Binance depth1 state0
    = Ok (setOrderBook nb state0) /\
    List.length (asks nb) = 1%nat /\ List.length (bids nb) = 2%nat.
Proof.
  destruct (depth_update_level_count parseDecimal book0 depth1 state0)
    as (nb & E & La & _ & H); [reflexivity |].
  exists nb. split; [exact E | split; [exact La |]].
  destruct (H "99.00"%string "3"%string eq_refl) as (_ & _ & H3).
  apply H3.
  - vm_compute. discriminate.
  - intros x [<- | []]. vm_compute. discriminate.
Defined.

Lemma depth_rows_witness :
  let d := depthRows (Some book1) in
  let row := mkRow 100 2 3 in
  In row (bidsWithTotal d) /\
  0 <= row_total row /\ row_total row <= maxTotal d.
Proof.
  intros d row.
  assert (I : In row (bidsWithTotal d)) by (right; left; reflexivity).
  split; [exact I |].
  destruct (proj2 depth_rows_bounded book1) as (_ & _ & _ & _ & _ & _ & H).
  - repeat constructor; discriminate.
  - repeat constructor; discriminate.
  - destruct (H row (or_introl I)) as (A & B & _).
    split; [exact A | exact B].
Defined.

Lemma spread_of_book_witness :
  spread (Some book0) = 101 - 100 /\
  0 < spreadPercentage (Some book0) /\ spreadPercentage (Some book0) < 200.
Proof.
  destruct (proj2 (proj2 spread_of_book) book0 (101, 5) [] (100, 1) [])
    as (A & _ & C & D);
    [reflexivity | reflexivity | reflexivity | reflexivity |].
  split; [exact A | split; [exact C | exact D]].
Defined.

Lemma heatmap_history_witness :
  let st := mkHeatmap [] (0, 0) in
  let runs := [(book0, 1000); (book1, 2000)] in
  heatmapData (heatmapRuns runs st)
  = slice_last 60 [newColumn book0 1000; newColumn book1 2000] /\
  (List.length (heatmapData (heatmapRuns runs st)) <= 60)%nat.
Proof.
  intros st runs.
  apply (proj2 (proj2 heatmap_history_capped) runs st).
  cbn [heatmapData st List.length]. lia.
Defined.

Lemma heatmap_column_witness :
  let st := mkHeatmap [] (0, 0) in
  let range := priceRange (heatmapEffect (Some book0) 1000 st) in
  let top := mkCell 101 5 1000 AskSide in
  In top (newColumn book0 1000) /\
  cell_price top == snd range /\
  rectY 600 range top == - (15) /\
  rectY 600 range top + cellHeight 600 == 0.
Proof.
  intros st range top.
  assert (I : In top (newColumn book0 1000)) by (right; left; reflexivity).
  split; [exact I |].
  assert (P : cell_price top == snd range) by reflexivity.
  split; [exact P |].
  destruct (heatmap_column_placement book0 1000 st 600)
    as (_ & _ & _ & _ & _ & H); [discriminate |].
  destruct H as (_ & _ & H); [discriminate |].
  destruct (H top I) as (_ & _ & C).
  destruct C as (_ & _ & _ & _ & T); [reflexivity |].
  split; [| exact (T P)].
  pose proof (T P) as T0. unfold cellHeight in T0.
  assert (Hc : 600 / 40 == 15) by reflexivity.
  rewrite Hc in T0.
  assert (T1 : rectY 600 range top + 15 == 0) by exact T0.
  lra.
Defined.

Lemma heatmap_intensity_witness :
  let cell := mkCell 100 3 1000 BidSide in
  let data := [[mkCell 101 5 1000 AskSide]; [cell]] in
  cell_amount cell <= maxAmount data /\
  exists k : Z,
    getColorIntensity (cell_amount cell) (maxAmount data) = inject_Z k /\
    (0 <= k <= 255)%Z.
Proof.
  intros cell data.
  destruct (heatmap_intensity_in_range data cell) as (_ & A & B).
  - right; left; reflexivity.
  - discriminate.
  - split; [exact A | exact B].
Defined.

Lemma zoom_witness :
  (1 # 2) <= zoomIn 1 /\ zoomIn 1 <= 3 /\ 1 <= zoomIn 1 /\ zoomOut 1 <= 1.
Proof.
  destruct (zoom_stays_in_range 1) as ((A & B & C) & (_ & _ & D) & _);
    [discriminate | discriminate |].
  split; [exact A | split; [exact B | split; [exact C | exact D]]].
Defined.

Lemma custom_symbol_witness :
  handleCustomSymbolSubmit "  " (mount rng0 0) = ("  "%string, mount rng0 0) /\
  fst (handleCustomSymbolSubmit " ethusdt" (mount rng0 0)) = EmptyString /\
  symbol (react (snd (handleCustomSymbolSubmit " ethusdt" (mount rng0 0))))
  = " ETHUSDT"%string /\
  stripUSDT (toUpperCase "aaplusdt") = "AAPL"%string.
Proof.
  destruct (custom_symbol_submit "  " (mount rng0 0)) as (H1 & _ & _).
  destruct (custom_symbol_submit " ethusdt" (mount rng0 0)) as (_ & H2 & H3).
  split; [apply H1; reflexivity |].
  destruct H2 as (A & B & _); [discriminate |].
  split; [exact A | split; [exact B | exact (H3 "aapl"%string)]].
Defined.


Lemma reconnect_timer_witness :
  let w := run parseDecimal (overlap_trace ++ [SocketClose 1]) (mount rng0 0) in
  let w' := step parseDecimal (TimerFire 4) w in
  provider (react w) = Demo /\
  react w' = react w /\
  ws (refs w') = Some 2%nat /\
  exists tm, nth_error (timers (host w')) 4 = Some tm /\ active tm = false.
Proof.
  intros w w'.
  split; [vm_compute; reflexivity |].
  destruct (nth_error (timers (host w)) 4) as [[[b | c] [|]] |] eqn:E;
    try (exfalso; vm_compute in E; discriminate E).
  assert (P : c_provider c = Binance /\ c_assetType c = Crypto).
  { vm_compute in E. injection E as <-. split; reflexivity. }
  destruct (reconnect_timer_uses_captured_selection parseDecimal w 4 c E
              (proj1 P) (proj2 P)) as (R & W & _ & T).
  split; [exact R | split; [| exact T]].
  transitivity (Some (List.length (sockets (host w)))); [exact W |].
  vm_compute. reflexivity.
Defined.
